(** * Drawing Mirror: the archive analysis pipeline

    A shallow embedding of [backend/app/services/archive_analyzer.py],
    [backend/app/routers/archive.py], [backend/app/routers/lenses.py],
    [backend/app/services/ai/prompts/registry.py] and of the part of the
    schema of [backend/app/database.py] they work on.

    Conventions.
    - Python [str] is the [string] of its UTF-8 bytes; Python [int] is [Z];
      a [float] (a number with a fraction in a JSON document, a relevance
      score in an SQLite REAL) is the rational [Q] it stands for, NaN and
      the infinities being left out.
    - A call that may raise returns a [pyresult]; code that also reads or
      writes the database connection lives in the monad [M], which keeps the
      connection, the history of commits, the printed log and the calls made
      to the inference service.
    - What is not code of this repository (json.loads, the sqlite3 value
      adapters, the file system, Pillow, the inference service) is gathered
      in the record [Env], together with the prompts the analyzer gets from
      the registry; the registry itself is modelled at the end of the
      definitions. *)

From Stdlib Require Import List String Ascii ZArith QArith Bool Arith Lia.
From Stdlib Require Import Permutation DecimalString Sorted.
Import ListNotations.

Local Open Scope string_scope.
Local Open Scope Z_scope.

Set Implicit Arguments.
Set Warnings "-register-all".

(* ------------------------------------------------------------------ *)
(** ** Python values *)

(** The exception classes the modelled code meets. All of them derive from
    [Exception]; [OtherError] stands for any other subclass of it. *)
Inductive exn_class : Type :=
| JSONDecodeError
| AttributeError
| TypeError
| ValueError
| RuntimeError
| OverflowError
| OSError
| IntegrityError
| ProgrammingError
| HTTPException (status_code : Z)
| OtherError.

Record exn : Type := mk_exn { exn_cls : exn_class; exn_msg : string }.

Inductive pyresult (A : Type) : Type :=
| Ok (a : A)
| Raise (e : exn).
Arguments Ok {A} a.
Arguments Raise {A} e.

Definition is_JSONDecodeError (e : exn) : bool :=
  match exn_cls e with JSONDecodeError => true | _ => false end.

(** [json.loads] yields [None], [bool], [int], [float], [str], [list] and
    [dict]. A [float] is kept as the rational it stands for; the literals
    NaN and Infinity, which the decoder also accepts, are left out. A
    [dict] keeps one binding for each key, in insertion order. *)
Inductive json : Type :=
| JNull
| JBool (b : bool)
| JInt (z : Z)
| JNum (q : Q)
| JStr (s : string)
| JArr (l : list json)
| JObj (kv : list (string * json)).

(** [type(v).__name__], as exception messages quote it. *)
Definition type_name (v : json) : string :=
  match v with
  | JNull => "NoneType"
  | JBool _ => "bool"
  | JInt _ => "int"
  | JNum _ => "float"
  | JStr _ => "str"
  | JArr _ => "list"
  | JObj _ => "dict"
  end.

Definition no_attribute (v : json) (attribute : string) : exn :=
  mk_exn AttributeError
    ("'" ++ type_name v ++ "' object has no attribute '" ++ attribute ++ "'").

(** [d.get(key, default)] on a value that may not be a dict. *)
Fixpoint assoc_get (kv : list (string * json)) (key : string) : option json :=
  match kv with
  | [] => None
  | (k, v) :: kv' => if String.eqb k key then Some v else assoc_get kv' key
  end.

Definition json_get (v : json) (key : string) (default : json) : pyresult json :=
  match v with
  | JObj kv => Ok (match assoc_get kv key with Some x => x | None => default end)
  | _ => Raise (no_attribute v "get")
  end.

(** [d.items()]. *)
Definition json_items (v : json) : pyresult (list (string * json)) :=
  match v with
  | JObj kv => Ok kv
  | _ => Raise (no_attribute v "items")
  end.

(** A [string] holds the UTF-8 encoding of a [str]: a character is a byte
    that is not a continuation byte, with the continuation bytes after it. *)
Definition is_continuation_byte (c : ascii) : bool :=
  let n := nat_of_ascii c in ((128 <=? n) && (n <? 192))%nat.

(** The characters of a text, [cur] being the character read so far. *)
Fixpoint split_chars (cur : option string) (s : string) : list string :=
  match s with
  | EmptyString => match cur with Some x => [x] | None => [] end
  | String c r =>
      if is_continuation_byte c
      then split_chars (Some (match cur with Some x => x | None => EmptyString end
                              ++ String c EmptyString)) r
      else (match cur with Some x => [x] | None => [] end
            ++ split_chars (Some (String c EmptyString)) r)%list
  end.

Definition chars_of (s : string) : list json :=
  map JStr (split_chars None s).

(** Iterating over a value: a list gives its elements, a dict its keys, a
    string its characters; anything else is not iterable. *)
Definition json_iter (v : json) : pyresult (list json) :=
  match v with
  | JArr l => Ok l
  | JObj kv => Ok (map (fun p => JStr (fst p)) kv)
  | JStr s => Ok (chars_of s)
  | _ => Raise (mk_exn TypeError ("'" ++ type_name v ++ "' object is not iterable"))
  end.

(** Truth value of an object, as tested by [if x:] and [not x]. *)
Definition truthy (v : json) : bool :=
  match v with
  | JNull => false
  | JBool b => b
  | JInt z => negb (z =? 0)
  | JNum q => negb (Qeq_bool q 0)
  | JStr s => negb (String.eqb s EmptyString)
  | JArr l => match l with [] => false | _ => true end
  | JObj kv => match kv with [] => false | _ => true end
  end.

(** Equality of two hashable values used as dict keys: [True == 1 == 1.0]. *)
Definition key_num (v : json) : option Q :=
  match v with
  | JBool b => Some (if b then 1%Q else 0%Q)
  | JInt z => Some (inject_Z z)
  | JNum q => Some q
  | _ => None
  end.

Definition key_eqb (a b : json) : bool :=
  match a, b with
  | JNull, JNull => true
  | JStr s, JStr t => String.eqb s t
  | _, _ =>
      match key_num a, key_num b with
      | Some p, Some q => Qeq_bool p q
      | _, _ => false
      end
  end.

Definition hashable (v : json) : bool :=
  match v with JArr _ | JObj _ => false | _ => true end.

(** A dict built at run time, keyed by JSON values: assigning an existing key
    replaces its value and keeps its place. *)
Section PyDict.
Variable V : Type.

Fixpoint dict_set (d : list (json * V)) (k : json) (v : V) : list (json * V) :=
  match d with
  | [] => [(k, v)]
  | (k', v') :: d' =>
      if key_eqb k' k then (k', v) :: d' else (k', v') :: dict_set d' k v
  end.

Fixpoint dict_get (d : list (json * V)) (k : json) : option V :=
  match d with
  | [] => None
  | (k', v') :: d' => if key_eqb k' k then Some v' else dict_get d' k
  end.
End PyDict.

(* ------------------------------------------------------------------ *)
(** ** Python string operations *)

(** The characters [str.isspace] holds of, in UTF-8: the ASCII ones, then
    U+0085 and U+00A0 (two bytes), then U+1680, U+2000 to U+200A, U+2028,
    U+2029, U+202F, U+205F and U+3000 (three bytes). *)
Definition is_ascii_space (c : ascii) : bool :=
  let n := nat_of_ascii c in
  (((9 <=? n) && (n <=? 13)) || ((28 <=? n) && (n <=? 32)))%nat.

Definition is_space2 (c1 c2 : ascii) : bool :=
  let n2 := nat_of_ascii c2 in
  ((n2 =? 133) || (n2 =? 160))%nat && (nat_of_ascii c1 =? 194)%nat.

Definition is_space3 (c1 c2 c3 : ascii) : bool :=
  let n1 := nat_of_ascii c1 in
  let n2 := nat_of_ascii c2 in
  let n3 := nat_of_ascii c3 in
  ((n3 =? 128) && (n2 =? 154) && (n1 =? 225)
   || (((128 <=? n3) && (n3 <=? 138)) || (n3 =? 168) || (n3 =? 169) || (n3 =? 175))
      && (n2 =? 128) && (n1 =? 226)
   || (n3 =? 159) && (n2 =? 129) && (n1 =? 226)
   || (n3 =? 128) && (n2 =? 128) && (n1 =? 227))%nat.

(** [s.lstrip()] *)
Fixpoint lstrip (s : string) : string :=
  match s with
  | EmptyString => EmptyString
  | String c1 r1 =>
      if is_ascii_space c1 then lstrip r1
      else
        match r1 with
        | EmptyString => s
        | String c2 r2 =>
            if is_space2 c1 c2 then lstrip r2
            else
              match r2 with
              | EmptyString => s
              | String c3 r3 => if is_space3 c1 c2 c3 then lstrip r3 else s
              end
        end
  end.

(** The text is made of whitespace only (or is empty). *)
Definition is_blank (s : string) : bool := String.eqb (lstrip s) EmptyString.

(** [s.rstrip()]: the text up to its trailing whitespace. *)
Fixpoint rstrip (s : string) : string :=
  match s with
  | EmptyString => EmptyString
  | String c r => if is_blank s then EmptyString else String c (rstrip r)
  end.

Definition strip (s : string) : string := rstrip (lstrip s).

Definition startswith (s p : string) : bool := String.prefix p s.

Fixpoint drop (n : nat) (s : string) : string :=
  match n, s with
  | O, _ => s
  | S n', String _ r => drop n' r
  | S _, EmptyString => EmptyString
  end.

Fixpoint take (n : nat) (s : string) : string :=
  match n, s with
  | S n', String c r => String c (take n' r)
  | _, _ => EmptyString
  end.

Definition endswith (s p : string) : bool :=
  (String.length p <=? String.length s)%nat
  && String.eqb (drop (String.length s - String.length p) s) p.

(** [s.find(sub)] and [s.rfind(sub)]: the lowest and the highest index where
    [sub] starts, or [-1]. *)
Fixpoint find_from (i : nat) (sub s : string) : option nat :=
  if String.prefix sub s then Some i
  else match s with
       | EmptyString => None
       | String _ r => find_from (S i) sub r
       end.

Fixpoint rfind_from (i : nat) (sub s : string) : option nat :=
  match s with
  | EmptyString => if String.prefix sub s then Some i else None
  | String _ r =>
      match rfind_from (S i) sub r with
      | Some j => Some j
      | None => if String.prefix sub s then Some i else None
      end
  end.

Definition py_find (s sub : string) : Z :=
  match find_from 0 sub s with Some i => Z.of_nat i | None => -1 end.

Definition py_rfind (s sub : string) : Z :=
  match rfind_from 0 sub s with Some i => Z.of_nat i | None => -1 end.

(** Slice bounds: a negative index counts from the end, and both ends clamp.
    These slices take an index that [find] or [rfind] gave: both count in
    bytes here, which cuts a text where counting in characters does. *)
Definition slice_index (k : Z) (s : string) : nat :=
  let n := Z.of_nat (String.length s) in
  Z.to_nat (if k <? 0 then Z.max 0 (n + k) else Z.min k n).

(** [s[k:]] and [s[:k]]. *)
Definition slice_from (k : Z) (s : string) : string := drop (slice_index k s) s.
Definition slice_to (k : Z) (s : string) : string := take (slice_index k s) s.

(** [s[:n]] for a constant [n]: the first [n] characters. *)
Fixpoint first_chars (n : nat) (s : string) : string :=
  match s with
  | EmptyString => EmptyString
  | String c r =>
      if is_continuation_byte c then String c (first_chars n r)
      else match n with
           | O => EmptyString
           | S n' => String c (first_chars n' r)
           end
  end.

(** [len(s)]: the number of characters. *)
Fixpoint py_len (s : string) : nat :=
  match s with
  | EmptyString => O
  | String c r => if is_continuation_byte c then py_len r else S (py_len r)
  end.

(** [str.lower] on ASCII text. *)
Definition lower_char (c : ascii) : ascii :=
  let n := nat_of_ascii c in
  if ((65 <=? n) && (n <=? 90))%nat then ascii_of_nat (n + 32) else c.

Fixpoint lower_ascii (s : string) : string :=
  match s with
  | EmptyString => EmptyString
  | String c r => String (lower_char c) (lower_ascii r)
  end.

Fixpoint is_ascii_text (s : string) : bool :=
  match s with
  | EmptyString => true
  | String c r => (nat_of_ascii c <? 128)%nat && is_ascii_text r
  end.

(** [str(n)] for an integer. *)
Definition str_of_Z (z : Z) : string := NilZero.string_of_int (Z.to_int z).

(** ** Ranges and list slices *)

Fixpoint range_up (fuel start stop step : nat) : list nat :=
  match fuel with
  | O => []
  | S f => if (start <? stop)%nat then start :: range_up f (start + step) stop step
           else []
  end.

(** [range(0, stop, step)]: a zero step raises, a negative one gives nothing. *)
Definition py_range0 (stop : nat) (step : Z) : pyresult (list nat) :=
  if step =? 0 then Raise (mk_exn ValueError "range() arg 3 must not be zero")
  else if step <? 0 then Ok []
  else Ok (range_up stop 0 stop (Z.to_nat step)).

(** [l[start : start + size]] for [start >= 0]. *)
Definition list_slice (A : Type) (l : list A) (start : nat) (size : Z) : list A :=
  firstn (Z.to_nat size) (skipn start l).

(* ------------------------------------------------------------------ *)
(** ** The schema ([database.py])

    A table is the list of its rows in rowid order. Only the columns the
    pipeline and the two routers read or write are kept. *)

Definition timestamp := nat.
Definition bytes := list Byte.byte.

Record Drawing : Type := mk_drawing {
  d_id : Z;
  d_user_id : Z;
  d_filename : string;
  d_filepath : string;
  d_drawn_date : option string;
  d_file_ext : option string;
  d_analysis_text : option string;
  d_analysis_json : option json;
  d_analyzed_at : option timestamp
}.

(** The values the code writes to [archive_analyses.status] and [.phase]. *)
Inductive run_status : Type := Pending | Running | Complete | Failed.
Inductive run_phase : Type := BatchAnalysis | LensDiscovery | PhaseDone.

Record Analysis : Type := mk_analysis {
  a_id : Z;
  a_user_id : Z;
  a_status : run_status;
  a_phase : option run_phase;
  a_total_drawings : Z;
  a_analyzed_count : Z;
  a_error_message : option string;
  a_model_used : option string;
  a_started_at : timestamp;
  a_completed_at : option timestamp
}.

Record Lens : Type := mk_lens {
  l_id : Z;
  l_user_id : Z;
  l_archive_analysis_id : Z;
  l_name : string;
  l_description : string;
  l_sort_order : Z;
  l_raw_claude_output : json;
  l_created_at : timestamp
}.

Record Link : Type := mk_link {
  k_id : Z;
  k_lens_id : Z;
  k_drawing_id : Z;
  k_relevance_score : Q;
  k_annotation : option string;
  k_annotation_generated_at : option timestamp
}.

(** [sqlite_sequence]: for each AUTOINCREMENT table the pipeline inserts
    into, the largest rowid an INSERT has taken so far. *)
Record Sequences : Type := mk_sequences {
  seq_archive_analyses : Z;
  seq_lenses : Z;
  seq_lens_drawing_links : Z
}.

Record DB : Type := mk_db {
  users : list Z;
  drawings : list Drawing;
  archive_analyses : list Analysis;
  lenses : list Lens;
  lens_drawing_links : list Link;
  sqlite_sequence : Sequences
}.

Definition with_drawings (db : DB) (ds : list Drawing) : DB :=
  mk_db (users db) ds (archive_analyses db) (lenses db) (lens_drawing_links db)
    (sqlite_sequence db).
Definition with_analyses (db : DB) (rs : list Analysis) : DB :=
  mk_db (users db) (drawings db) rs (lenses db) (lens_drawing_links db)
    (sqlite_sequence db).
Definition with_lenses (db : DB) (ls : list Lens) : DB :=
  mk_db (users db) (drawings db) (archive_analyses db) ls (lens_drawing_links db)
    (sqlite_sequence db).
Definition with_links (db : DB) (ks : list Link) : DB :=
  mk_db (users db) (drawings db) (archive_analyses db) (lenses db) ks
    (sqlite_sequence db).
Definition with_sequences (db : DB) (sq : Sequences) : DB :=
  mk_db (users db) (drawings db) (archive_analyses db) (lenses db)
    (lens_drawing_links db) sq.

(** INTEGER PRIMARY KEY AUTOINCREMENT: an INSERT takes one more than the
    largest rowid in the table and the largest one taken before. It keeps
    the rowid it took in [sqlite_sequence] also when OR IGNORE then drops
    the row; a statement that fails leaves the sequence as it was. *)
Definition next_id (seq : Z) (ids : list Z) : Z :=
  1 + Z.max seq (fold_right Z.max 0 ids).

Definition next_analysis_id (db : DB) : Z :=
  next_id (seq_archive_analyses (sqlite_sequence db)) (map a_id (archive_analyses db)).
Definition next_lens_id (db : DB) : Z :=
  next_id (seq_lenses (sqlite_sequence db)) (map l_id (lenses db)).
Definition next_link_id (db : DB) : Z :=
  next_id (seq_lens_drawing_links (sqlite_sequence db))
          (map k_id (lens_drawing_links db)).

Definition take_analysis_id (db : DB) : DB :=
  with_sequences db
    (mk_sequences (next_analysis_id db) (seq_lenses (sqlite_sequence db))
                  (seq_lens_drawing_links (sqlite_sequence db))).
Definition take_lens_id (db : DB) : DB :=
  with_sequences db
    (mk_sequences (seq_archive_analyses (sqlite_sequence db)) (next_lens_id db)
                  (seq_lens_drawing_links (sqlite_sequence db))).
Definition take_link_id (db : DB) : DB :=
  with_sequences db
    (mk_sequences (seq_archive_analyses (sqlite_sequence db))
                  (seq_lenses (sqlite_sequence db)) (next_link_id db)).

Definition is_null (A : Type) (o : option A) : bool :=
  match o with None => true | Some _ => false end.

(** ORDER BY drawn_date ASC, filename ASC: NULL dates first, text compared
    byte by byte. *)
Definition date_leb (a b : option string) : bool :=
  match a, b with
  | None, _ => true
  | Some _, None => false
  | Some x, Some y => String.leb x y
  end.

Definition date_eqb (a b : option string) : bool :=
  match a, b with
  | None, None => true
  | Some x, Some y => String.eqb x y
  | _, _ => false
  end.

Definition order_leb (a b : Drawing) : bool :=
  if date_eqb (d_drawn_date a) (d_drawn_date b)
  then String.leb (d_filename a) (d_filename b)
  else date_leb (d_drawn_date a) (d_drawn_date b).

Fixpoint insert_sorted (x : Drawing) (l : list Drawing) : list Drawing :=
  match l with
  | [] => [x]
  | y :: l' => if order_leb x y then x :: l else y :: insert_sorted x l'
  end.

Definition order_by_date_filename (l : list Drawing) : list Drawing :=
  fold_right insert_sorted [] l.

(** UPDATE ... WHERE id = ?: every row with that id is rewritten. *)
Definition update_where (A : Type) (key : A -> Z) (id : Z) (f : A -> A)
    (rows : list A) : list A :=
  map (fun r => if key r =? id then f r else r) rows.

(* ------------------------------------------------------------------ *)
(** ** The environment ([config.py] and the external collaborators) *)

Record Settings : Type := mk_settings {
  model_name : string;
  batch_size : Z;
  max_tokens_per_image : Z;
  max_tokens_lens_discovery : Z;
  max_tokens_annotation_batch : Z;
  relevance_threshold : Q
}.

(** An image handed to the inference service: bytes, media type, label. *)
Definition image_tuple : Type := (bytes * string * string)%type.

Inductive Call : Type :=
| CallAnalyzeBatch (images : list image_tuple) (prompt : string) (max_tokens : Z)
| CallSynthesizeText (text : string) (max_tokens : Z).

Record Env : Type := mk_env {
  settings : Settings;
  (** [json.loads] *)
  json_loads : string -> pyresult json;
  (** [float(s)] on a string *)
  float_of_str : string -> pyresult Q;
  (** [s.lower()] on a text that has characters outside ASCII (the case
      tables of Unicode) *)
  unicode_lower : string -> string;
  (** the text SQLite stores for a number bound to a TEXT column *)
  text_of_num : Q -> pyresult string;
  (** [open(path, 'rb').read()] *)
  read_file : string -> pyresult bytes;
  (** Pillow: open, convert to RGB, thumbnail 2048x2048, save as JPEG q85 *)
  pil_recompress : bytes -> pyresult bytes;
  (** [VisionService.analyze_batch], given the calls made before this one *)
  analyze_batch : list Call -> list image_tuple -> string -> Z -> pyresult string;
  (** [VisionService.synthesize_text], given the calls made before this one *)
  synthesize_text : list Call -> string -> Z -> pyresult string;
  (** the rendered prompt templates of the registry *)
  prompt_drawing_batch_analysis : string;
  render_lens_discovery : string -> nat -> string -> string;
  render_lens_annotation_batch : string -> string -> string -> string
}.

(* ------------------------------------------------------------------ *)
(** ** State and the monad of the pipeline *)

Inductive LogEvent : Type :=
| LogResized (from_kb to_kb : Z)
| LogCouldNotLoad (filepath : string) (e : exn)
| LogPhase1CallFailed (batch_start : nat) (e : exn)
| LogPhase1Batch (number : Z) (images : nat)
| LogPhase2NoDrawings
| LogPhase2NoLenses (raw : string)
| LogPhase2LensStored (name : json) (scores : nat)
| LogPhase3CallFailed (e : exn)
| LogJSONListFailed (text : string)
| LogJSONDictFailed (text : string)
| LogPipelineFailed (e : exn)
| LogAnnotationFailed (lens_id : Z) (e : exn).

(** [conn] is what the open connection sees; [committed] lists the database
    as it stood at each [db.commit()], the latest first. *)
Record State : Type := mk_state {
  conn : DB;
  committed : list DB;
  log : list LogEvent;
  calls : list Call;
  clock : timestamp
}.

Definition M (A : Type) : Type := State -> pyresult A * State.

Definition ret (A : Type) (a : A) : M A := fun s => (Ok a, s).

Definition bind (A B : Type) (m : M A) (f : A -> M B) : M B :=
  fun s => match m s with
           | (Ok a, s') => f a s'
           | (Raise e, s') => (Raise e, s')
           end.

Definition raise (A : Type) (e : exn) : M A := fun s => (Raise e, s).
Arguments raise {A} e.

Definition lift (A : Type) (r : pyresult A) : M A := fun s => (r, s).

(** [try: m  except ...: h]; the handler runs in the state [m] left. *)
Definition try_except (A : Type) (m : M A) (h : exn -> M A) : M A :=
  fun s => match m s with
           | (Ok a, s') => (Ok a, s')
           | (Raise e, s') => h e s'
           end.

(** Runs [m] and hands its outcome to the code that follows the [try]. *)
Definition attempt (A : Type) (m : M A) : M (pyresult A) :=
  fun s => let (r, s') := m s in (Ok r, s').

Declare Scope py_scope.
Delimit Scope py_scope with py.
Notation "x <- m ;; k" := (bind m (fun x => k))
  (at level 100, m at next level, right associativity) : py_scope.
Notation "m ;; k" := (bind m (fun _ => k))
  (at level 100, right associativity) : py_scope.
Local Open Scope py_scope.

Fixpoint for_each (X : Type) (body : X -> M unit) (l : list X) : M unit :=
  match l with
  | [] => ret tt
  | x :: l' => body x ;; for_each body l'
  end.

Definition query (A : Type) (f : DB -> A) : M A := fun s => (Ok (f (conn s)), s).

Definition exec (f : DB -> DB) : M unit :=
  fun s => (Ok tt, mk_state (f (conn s)) (committed s) (log s) (calls s) (clock s)).

Definition commit : M unit :=
  fun s => (Ok tt, mk_state (conn s) (conn s :: committed s) (log s) (calls s) (clock s)).

Definition print (ev : LogEvent) : M unit :=
  fun s => (Ok tt, mk_state (conn s) (committed s) (log s ++ [ev]) (calls s) (clock s)).

(** [datetime('now')] as SQLite evaluates it inside a statement. *)
Definition now : M timestamp := fun s => (Ok (clock s), s).

(** [await asyncio.sleep(...)]: time passes. *)
Definition sleep : M unit :=
  fun s => (Ok tt, mk_state (conn s) (committed s) (log s) (calls s) (S (clock s))).

Definition record_call (c : Call) : M unit :=
  fun s => (Ok tt, mk_state (conn s) (committed s) (log s) (calls s ++ [c]) (S (clock s))).

(* ------------------------------------------------------------------ *)
(** ** The analyzer ([services/archive_analyzer.py]) *)

Definition _MAX_IMAGE_BYTES : Z := 3700000.

Definition newline : string := String (ascii_of_nat 10) EmptyString.
Definition fence : string := "```".

(** What [.*c] matches at the start of [s] under DOTALL: the longest prefix
    of [s] that ends with [c]. *)
Fixpoint greedy_upto (c : ascii) (s : string) : option string :=
  match s with
  | EmptyString => None
  | String a r =>
      match greedy_upto c r with
      | Some m => Some (String a m)
      | None => if Ascii.eqb a c then Some (String a EmptyString) else None
      end
  end.

(** [re.search] of the pattern [o.*c] with DOTALL: the leftmost position
    where a match starts, and the longest match there. *)
Fixpoint re_search_delimited (o c : ascii) (s : string) : option string :=
  match s with
  | EmptyString => None
  | String a r =>
      if Ascii.eqb a o then
        match greedy_upto c r with
        | Some m => Some (String a m)
        | None => re_search_delimited o c r
        end
      else re_search_delimited o c r
  end.

Section Analyzer.
Variable env : Env.

Definition cfg : Settings := settings env.

(** [s.lower()] *)
Definition lower (s : string) : string :=
  if is_ascii_text s then lower_ascii s else unicode_lower env s.

(** *** Image conditioning *)

Definition _prepare_image_bytes (raw_bytes : bytes) (media_type : string)
  : M (bytes * string) :=
  if Z.of_nat (List.length raw_bytes) <=? _MAX_IMAGE_BYTES
  then ret (raw_bytes, media_type)
  else
    result <- lift (pil_recompress env raw_bytes) ;;
    print (LogResized (Z.of_nat (List.length raw_bytes) / 1024)
                      (Z.of_nat (List.length result) / 1024)) ;;
    ret (result, "image/jpeg").

(** *** JSON parsing utilities *)

Definition _strip_markdown_fences (text : string) : string :=
  let text := strip text in
  let text := if startswith text fence
              then slice_from (py_find text newline + 1) text else text in
  let text := if endswith text fence
              then slice_to (py_rfind text fence) text else text in
  strip text.

(** [json.loads(text)] under [except json.JSONDecodeError: pass]; [keep]
    is the [isinstance] test, [None] means the code falls through. *)
Definition loads_or_pass (keep : json -> bool) (text : string) : M (option json) :=
  match json_loads env text with
  | Ok result => if keep result then ret (Some result) else ret None
  | Raise e => if is_JSONDecodeError e then ret None else raise e
  end.

Definition is_list (v : json) : bool :=
  match v with JArr _ => true | _ => false end.
Definition is_dict (v : json) : bool :=
  match v with JObj _ => true | _ => false end.

Definition _parse_json_list (text : string) : M json :=
  let text := _strip_markdown_fences text in
  direct <- loads_or_pass is_list text ;;
  match direct with
  | Some result => ret result
  | None =>
      fallback <- match re_search_delimited "[" "]" text with
                  | Some m => loads_or_pass (fun _ => true) m
                  | None => ret None
                  end ;;
      match fallback with
      | Some result => ret result
      | None => print (LogJSONListFailed (first_chars 300 text)) ;; ret (JArr [])
      end
  end.

Definition _parse_json_dict (text : string) : M json :=
  let text := _strip_markdown_fences text in
  direct <- loads_or_pass is_dict text ;;
  match direct with
  | Some result => ret result
  | None =>
      fallback <- match re_search_delimited "{" "}" text with
                  | Some m => loads_or_pass (fun _ => true) m
                  | None => ret None
                  end ;;
      match fallback with
      | Some result => ret result
      | None => print (LogJSONDictFailed (first_chars 300 text)) ;; ret (JObj [])
      end
  end.

(** *** Values bound to SQL parameters *)

(** A Python value bound to the parameter at [position] of a statement,
    for a TEXT column: [None] is NULL, a [str] is itself, a [bool] or an
    [int] that fits 64 bits is stored as the text of the integer, a
    [float] as the text SQLite gives it; a larger [int], a list and a dict
    are refused. *)
Definition bind_text (position : Z) (v : json) : pyresult (option string) :=
  match v with
  | JNull => Ok None
  | JStr s => Ok (Some s)
  | JBool b => Ok (Some (if b then "1" else "0"))
  | JInt z =>
      if (- 2 ^ 63 <=? z) && (z <? 2 ^ 63) then Ok (Some (str_of_Z z))
      else Raise (mk_exn OverflowError
                    "Python int too large to convert to SQLite INTEGER")
  | JNum q => match text_of_num env q with
              | Ok s => Ok (Some s)
              | Raise e => Raise e
              end
  | JArr _ | JObj _ =>
      Raise (mk_exn ProgrammingError
               ("Error binding parameter " ++ str_of_Z position ++ ": type '"
                ++ type_name v ++ "' is not supported"))
  end.

(** [float(n)] for an [int]: the nearest double, ties to the even one, and
    OverflowError when that is beyond the largest double. *)
Definition double_of_int (z : Z) : pyresult Q :=
  let a := Z.abs z in
  let bits := if a =? 0 then 0 else Z.log2 a + 1 in
  if bits <=? 53 then Ok (inject_Z z)
  else
    let shift := bits - 53 in
    let q := Z.shiftr a shift in
    let r := a - Z.shiftl q shift in
    let half := 2 ^ (shift - 1) in
    let q' := if (half <? r) || ((r =? half) && Z.odd q) then q + 1 else q in
    let m := Z.shiftl q' shift in
    if 2 ^ 1024 <=? m
    then Raise (mk_exn OverflowError "int too large to convert to float")
    else Ok (inject_Z (Z.sgn z * m)).

(** [float(score)] *)
Definition py_float (v : json) : pyresult Q :=
  match v with
  | JNum q => Ok q
  | JInt z => double_of_int z
  | JBool b => Ok (if b then 1%Q else 0%Q)
  | JStr s => float_of_str env s
  | _ => Raise (mk_exn TypeError
                  ("float() argument must be a string or a real number, not '"
                   ++ type_name v ++ "'"))
  end.

(** *** The inference service *)

Definition vision_analyze_batch (images : list image_tuple) (prompt : string)
    (max_tokens : Z) : M string :=
  fun s =>
    (analyze_batch env (calls s) images prompt max_tokens,
     snd (record_call (CallAnalyzeBatch images prompt max_tokens) s)).

Definition vision_synthesize_text (text : string) (max_tokens : Z) : M string :=
  fun s =>
    (synthesize_text env (calls s) text max_tokens,
     snd (record_call (CallSynthesizeText text max_tokens) s)).

(** *** SQL statements of the pipeline *)

(** SELECT COUNT of the drawings WHERE user_id = ? *)
Definition count_drawings (user_id : Z) (db : DB) : Z :=
  Z.of_nat (List.length (filter (fun d => d_user_id d =? user_id) (drawings db))).

Definition set_run_started (total : Z) (a : Analysis) : Analysis :=
  mk_analysis (a_id a) (a_user_id a) Running (Some BatchAnalysis) total
    (a_analyzed_count a) (a_error_message a) (a_model_used a)
    (a_started_at a) (a_completed_at a).

Definition set_run_phase (p : run_phase) (a : Analysis) : Analysis :=
  mk_analysis (a_id a) (a_user_id a) (a_status a) (Some p) (a_total_drawings a)
    (a_analyzed_count a) (a_error_message a) (a_model_used a)
    (a_started_at a) (a_completed_at a).

Definition set_run_complete (t : timestamp) (a : Analysis) : Analysis :=
  mk_analysis (a_id a) (a_user_id a) Complete (Some PhaseDone) (a_total_drawings a)
    (a_analyzed_count a) (a_error_message a) (a_model_used a)
    (a_started_at a) (Some t).

Definition set_run_failed (msg : string) (a : Analysis) : Analysis :=
  mk_analysis (a_id a) (a_user_id a) Failed (a_phase a) (a_total_drawings a)
    (a_analyzed_count a) (Some msg) (a_model_used a)
    (a_started_at a) (a_completed_at a).

Definition set_analyzed_count (n : Z) (a : Analysis) : Analysis :=
  mk_analysis (a_id a) (a_user_id a) (a_status a) (a_phase a) (a_total_drawings a)
    n (a_error_message a) (a_model_used a) (a_started_at a) (a_completed_at a).

(** UPDATE archive_analyses SET ... WHERE id = ? *)
Definition update_analysis (analysis_id : Z) (f : Analysis -> Analysis) : M unit :=
  exec (fun db => with_analyses db (update_where a_id analysis_id f (archive_analyses db))).

(** SELECT ... FROM drawings WHERE user_id = ? AND analyzed_at IS NULL
    ORDER BY drawn_date ASC, filename ASC *)
Definition select_unanalyzed (user_id : Z) (db : DB) : list Drawing :=
  order_by_date_filename
    (filter (fun d => (d_user_id d =? user_id) && is_null (d_analyzed_at d))
            (drawings db)).

Definition set_analysis (text : option string) (item : json) (t : timestamp)
    (d : Drawing) : Drawing :=
  mk_drawing (d_id d) (d_user_id d) (d_filename d) (d_filepath d) (d_drawn_date d)
    (d_file_ext d) text (Some item) (Some t).

Definition set_analyzed_at (t : timestamp) (d : Drawing) : Drawing :=
  mk_drawing (d_id d) (d_user_id d) (d_filename d) (d_filepath d) (d_drawn_date d)
    (d_file_ext d) (d_analysis_text d) (d_analysis_json d) (Some t).

(** UPDATE drawings SET analysis_text = ?, analysis_json = ?,
    analyzed_at = datetime('now') WHERE id = ?; the second parameter is
    [json.dumps(item)], kept here as the value it serialises. *)
Definition update_drawing_analysis (analysis_text item : json) (id : Z) : M unit :=
  text <- lift (bind_text 1 analysis_text) ;;
  t <- now ;;
  exec (fun db => with_drawings db
                    (update_where d_id id (set_analysis text item t) (drawings db))).

(** UPDATE drawings SET analyzed_at = datetime('now') WHERE id = ? *)
Definition update_drawing_attempted (id : Z) : M unit :=
  t <- now ;;
  exec (fun db => with_drawings db
                    (update_where d_id id (set_analyzed_at t) (drawings db))).

(** *** Phase 1: batch image analysis *)

Definition load_image (d : Drawing) : M image_tuple :=
  image_bytes <- lift (read_file env (d_filepath d)) ;;
  let ext := lower (match d_file_ext d with
                    | Some e => if String.eqb e EmptyString then "jpeg" else e
                    | None => "jpeg"
                    end) in
  let media_type := if String.eqb ext "jpg" || String.eqb ext "jpeg"
                    then "image/jpeg" else "image/" ++ ext in
  p <- _prepare_image_bytes image_bytes media_type ;;
  ret (fst p, snd p, d_filename d).

(** The loop that fills [image_tuples]: a drawing that cannot be loaded
    is reported and left out. *)
Fixpoint load_images (batch : list Drawing) (image_tuples : list image_tuple)
  : M (list image_tuple) :=
  match batch with
  | [] => ret image_tuples
  | d :: rest =>
      r <- attempt (load_image d) ;;
      match r with
      | Ok t => load_images rest (image_tuples ++ [t])
      | Raise e => print (LogCouldNotLoad (d_filepath d) e) ;;
                   load_images rest image_tuples
      end
  end.

(** {item.get('filename', ''): item for item in analyses} *)
Fixpoint filename_map (analyses : list json) (acc : list (json * json))
  : pyresult (list (json * json)) :=
  match analyses with
  | [] => Ok acc
  | item :: rest =>
      match json_get item "filename" (JStr EmptyString) with
      | Raise e => Raise e
      | Ok k => if hashable k then filename_map rest (dict_set acc k item)
                else Raise (mk_exn TypeError
                             ("unhashable type: '" ++ type_name k ++ "'"))
      end
  end.

(** The body of [for d in batch:] under "Store per drawing". *)
Definition store_drawing (filename_to_analysis : list (json * json)) (d : Drawing)
  : M unit :=
  match dict_get filename_to_analysis (JStr (d_filename d)) with
  | Some item =>
      if truthy item then
        analysis_text <- lift (json_get item "description" (JStr EmptyString)) ;;
        update_drawing_analysis analysis_text item (d_id d)
      else update_drawing_attempted (d_id d)
  | None => update_drawing_attempted (d_id d)
  end.

(** One turn of [for batch_start in range(0, len(drawings), batch_size)]. *)
Definition phase1_batch (analysis_id : Z) (drawings : list Drawing)
    (batch_size : Z) (prompt : string) (batch_start : nat) : M unit :=
  let batch := list_slice drawings batch_start batch_size in
  image_tuples <- load_images batch [] ;;
  match image_tuples with
  | [] => ret tt
  | _ :: _ =>
      let max_tokens :=
        Z.of_nat (List.length image_tuples) * max_tokens_per_image cfg + 500 in
      r <- attempt (vision_analyze_batch image_tuples prompt max_tokens) ;;
      match r with
      | Raise e => print (LogPhase1CallFailed batch_start e)
      | Ok raw_response =>
          analyses <- _parse_json_list raw_response ;;
          items <- lift (json_iter analyses) ;;
          filename_to_analysis <- lift (filename_map items []) ;;
          for_each (store_drawing filename_to_analysis) batch ;;
          let analyzed_so_far :=
            Z.min (Z.of_nat batch_start + batch_size)
                  (Z.of_nat (List.length drawings)) in
          update_analysis analysis_id (set_analyzed_count analyzed_so_far) ;;
          commit ;;
          print (LogPhase1Batch (Z.of_nat batch_start / batch_size + 1)
                                (List.length image_tuples)) ;;
          if Z.of_nat batch_start + batch_size <? Z.of_nat (List.length drawings)
          then sleep else ret tt
      end
  end.

Definition _phase1_batch_analysis (user_id analysis_id : Z) : M unit :=
  drawings <- query (select_unanalyzed user_id) ;;
  match drawings with
  | [] => ret tt
  | _ :: _ =>
      let batch_size := batch_size cfg in
      let prompt := prompt_drawing_batch_analysis env in
      starts <- lift (py_range0 (List.length drawings) batch_size) ;;
      for_each (phase1_batch analysis_id drawings batch_size prompt) starts
  end.

(** *** Phase 2: lens discovery *)

(** SELECT ... FROM drawings WHERE user_id = ? AND analysis_text IS NOT NULL
    ORDER BY drawn_date ASC, filename ASC *)
Definition select_analyzed (user_id : Z) (db : DB) : list Drawing :=
  order_by_date_filename
    (filter (fun d => (d_user_id d =? user_id) && negb (is_null (d_analysis_text d)))
            (drawings db)).

(** [x or default] for an optional string. *)
Definition str_or (x : option string) (default : string) : string :=
  match x with
  | Some v => if String.eqb v EmptyString then default else v
  | None => default
  end.

(** An f-string field holding an optional string. *)
Definition fmt (x : option string) : string :=
  match x with Some v => v | None => "None" end.

Definition summaries_block (rows : list Drawing) : string :=
  fold_left
    (fun acc r =>
       acc ++ newline ++ "[" ++ str_or (d_drawn_date r) "unknown date" ++ "] "
           ++ d_filename r ++ ": " ++ fmt (d_analysis_text r) ++ newline)
    rows EmptyString.

(** [[r['drawn_date'] for r in rows if r['drawn_date']]] *)
Fixpoint nonempty_dates (rows : list Drawing) : list string :=
  match rows with
  | [] => []
  | r :: rest =>
      match d_drawn_date r with
      | Some v => if String.eqb v EmptyString then nonempty_dates rest
                  else v :: nonempty_dates rest
      | None => nonempty_dates rest
      end
  end.

Definition year_range (rows : list Drawing) : string :=
  match nonempty_dates rows with
  | [] => "unknown period"
  | (first :: _) as dates =>
      first_chars 4 first ++ "–" ++ first_chars 4 (last dates first)
  end.

(** {r['filename']: r['id'] for r in rows} *)
Definition filename_to_id_map (rows : list Drawing) : list (json * Z) :=
  fold_left (fun acc r => dict_set acc (JStr (d_filename r)) (d_id r)) rows [].

Definition lens_conflict (user_id : Z) (name : string) (db : DB) : bool :=
  existsb (fun l => (l_user_id l =? user_id) && String.eqb (l_name l) name)
          (lenses db).

(** INSERT OR IGNORE INTO lenses (user_id, archive_analysis_id, name,
    description, sort_order, raw_claude_output): a NULL in a NOT NULL
    column or a taken (user_id, name) drops the row, which has taken its
    rowid by then; a missing parent row is an integrity error. *)
Definition insert_or_ignore_lens (user_id analysis_id : Z) (name description : json)
    (sort_order : Z) (raw : json) : M unit :=
  name_text <- lift (bind_text 3 name) ;;
  description_text <- lift (bind_text 4 description) ;;
  t <- now ;;
  db <- query (fun db => db) ;;
  match name_text, description_text with
  | Some n, Some d =>
      if lens_conflict user_id n db then exec take_lens_id
      else if existsb (Z.eqb user_id) (users db)
              && existsb (fun a => a_id a =? analysis_id) (archive_analyses db)
      then exec (fun db =>
                   with_lenses (take_lens_id db)
                     (lenses db ++
                      [mk_lens (next_lens_id db) user_id analysis_id
                               n d sort_order raw t]))
      else raise (mk_exn IntegrityError "FOREIGN KEY constraint failed")
  | _, _ => exec take_lens_id
  end.

(** SELECT id FROM lenses WHERE user_id = ? AND name = ?, then
    [lens_row['id']] on the first row. *)
Definition select_lens_id (user_id : Z) (name : json) : M Z :=
  name_text <- lift (bind_text 2 name) ;;
  db <- query (fun db => db) ;;
  match name_text with
  | Some n =>
      match find (fun l => (l_user_id l =? user_id) && String.eqb (l_name l) n)
                 (lenses db) with
      | Some l => ret (l_id l)
      | None => raise (mk_exn TypeError "'NoneType' object is not subscriptable")
      end
  | None => raise (mk_exn TypeError "'NoneType' object is not subscriptable")
  end.

Definition link_conflict (lens_id drawing_id : Z) (db : DB) : bool :=
  existsb (fun k => (k_lens_id k =? lens_id) && (k_drawing_id k =? drawing_id))
          (lens_drawing_links db).

(** INSERT OR IGNORE INTO lens_drawing_links (lens_id, drawing_id,
    relevance_score): a taken (lens_id, drawing_id) drops the row, which
    has taken its rowid by then. *)
Definition insert_or_ignore_link (lens_id drawing_id : Z) (score : Q) : M unit :=
  exec (fun db =>
          if link_conflict lens_id drawing_id db then take_link_id db
          else with_links (take_link_id db)
                 (lens_drawing_links db ++
                  [mk_link (next_link_id db) lens_id drawing_id score None None])).

(** The body of [for filename, score in drawing_relevance.items()]. *)
Definition store_relevance (filename_to_id : list (json * Z)) (lens_id : Z)
    (entry : string * json) : M unit :=
  match dict_get filename_to_id (JStr (fst entry)) with
  | Some drawing_id =>
      score <- lift (py_float (snd entry)) ;;
      insert_or_ignore_link lens_id drawing_id score
  | None => ret tt
  end.

(** The body of [for sort_order, lens_data in enumerate(lenses_data)]. *)
Definition store_lens (user_id analysis_id : Z) (filename_to_id : list (json * Z))
    (entry : nat * json) : M unit :=
  let sort_order := Z.of_nat (fst entry) in
  let lens_data := snd entry in
  name <- lift (json_get lens_data "name"
                  (JStr ("Lens " ++ str_of_Z (sort_order + 1)))) ;;
  description <- lift (json_get lens_data "description" (JStr EmptyString)) ;;
  drawing_relevance <- lift (json_get lens_data "drawing_relevance" (JObj [])) ;;
  insert_or_ignore_lens user_id analysis_id name description sort_order lens_data ;;
  lens_id <- select_lens_id user_id name ;;
  items <- lift (json_items drawing_relevance) ;;
  for_each (store_relevance filename_to_id lens_id) items ;;
  commit ;;
  print (LogPhase2LensStored name (List.length items)).

Definition enumerate (A : Type) (l : list A) : list (nat * A) :=
  combine (seq 0 (List.length l)) l.

Definition _phase2_lens_discovery (user_id analysis_id : Z) : M unit :=
  rows <- query (select_analyzed user_id) ;;
  match rows with
  | [] => print LogPhase2NoDrawings
  | _ :: _ =>
      let prompt := render_lens_discovery env (year_range rows)
                      (List.length rows) (summaries_block rows) in
      raw_response <-
        try_except
          (vision_synthesize_text prompt (max_tokens_lens_discovery cfg))
          (fun e => raise (mk_exn RuntimeError
                             ("Lens discovery API call failed: " ++ exn_msg e))) ;;
      result <- _parse_json_dict raw_response ;;
      lenses_data <- lift (json_get result "lenses" (JArr [])) ;;
      if negb (truthy lenses_data)
      then print (LogPhase2NoLenses (first_chars 500 raw_response))
      else
        let filename_to_id := filename_to_id_map rows in
        items <- lift (json_iter lenses_data) ;;
        for_each (store_lens user_id analysis_id filename_to_id) (enumerate items)
  end.

(** *** The pipeline *)

(** The first statements of [run_full_pipeline]: count the drawings, mark
    the run 'running', commit. *)
Definition pipeline_start (user_id analysis_id : Z) : M unit :=
  total <- query (count_drawings user_id) ;;
  update_analysis analysis_id (set_run_started total) ;;
  commit.

(** The [try] block of [run_full_pipeline]. *)
Definition pipeline_body (user_id analysis_id : Z) : M unit :=
  pipeline_start user_id analysis_id ;;
  _phase1_batch_analysis user_id analysis_id ;;
  update_analysis analysis_id (set_run_phase LensDiscovery) ;;
  commit ;;
  _phase2_lens_discovery user_id analysis_id ;;
  t <- now ;;
  update_analysis analysis_id (set_run_complete t) ;;
  commit.

(** The [db.close()] of its [finally] follows a [db.commit()] on either
    path and discards nothing. *)
Definition run_full_pipeline (user_id analysis_id : Z) : M unit :=
  try_except
    (pipeline_body user_id analysis_id)
    (fun e =>
       print (LogPipelineFailed e) ;;
       update_analysis analysis_id (set_run_failed (first_chars 500 (exn_msg e))) ;;
       commit).

(** *** Phase 3: lens annotation *)

(** ... FROM lens_drawing_links ldl JOIN drawings d ON d.id = ldl.drawing_id *)
Definition join_links (db : DB) : list (Link * Drawing) :=
  flat_map (fun k => map (pair k)
                       (filter (fun d => d_id d =? k_drawing_id k) (drawings db)))
           (lens_drawing_links db).

Definition above_threshold (lens_id : Z) (p : Link * Drawing) : bool :=
  (k_lens_id (fst p) =? lens_id)
  && Qle_bool (relevance_threshold cfg) (k_relevance_score (fst p)).

(** The drawings of a lens that still need an annotation, in date order. *)
Definition select_needing_annotation (lens_id : Z) (db : DB) : list Drawing :=
  order_by_date_filename
    (map snd
       (filter (fun p => above_threshold lens_id p
                         && is_null (k_annotation (fst p))
                         && negb (is_null (d_analysis_text (snd p))))
               (join_links db))).

Definition set_annotation (text : option string) (t : timestamp) (k : Link) : Link :=
  mk_link (k_id k) (k_lens_id k) (k_drawing_id k) (k_relevance_score k)
    text (Some t).

(** UPDATE lens_drawing_links SET annotation = ?,
    annotation_generated_at = datetime('now')
    WHERE lens_id = ? AND drawing_id = ? *)
Definition update_link_annotation (annotation : json) (lens_id drawing_id : Z)
  : M unit :=
  text <- lift (bind_text 1 annotation) ;;
  t <- now ;;
  exec (fun db =>
          with_links db
            (map (fun k => if (k_lens_id k =? lens_id) && (k_drawing_id k =? drawing_id)
                           then set_annotation text t k else k)
                 (lens_drawing_links db))).

(** {item.get('filename', ''): item.get('annotation', '') for item in annotations} *)
Fixpoint annotation_map (annotations : list json) (acc : list (json * json))
  : pyresult (list (json * json)) :=
  match annotations with
  | [] => Ok acc
  | item :: rest =>
      match json_get item "filename" (JStr EmptyString) with
      | Raise e => Raise e
      | Ok k =>
          match json_get item "annotation" (JStr EmptyString) with
          | Raise e => Raise e
          | Ok v => if hashable k then annotation_map rest (dict_set acc k v)
                    else Raise (mk_exn TypeError
                                  ("unhashable type: '" ++ type_name k ++ "'"))
          end
      end
  end.

Definition drawing_entry (d : Drawing) : string :=
  d_filename d ++ " (" ++ str_or (d_drawn_date d) "unknown" ++ "): "
    ++ str_or (d_analysis_text d) "(no description available)".

Definition store_annotation (lens : Lens) (filename_to_annotation : list (json * json))
    (d : Drawing) : M unit :=
  match dict_get filename_to_annotation (JStr (d_filename d)) with
  | Some annotation =>
      if truthy annotation
      then update_link_annotation annotation (l_id lens) (d_id d)
      else ret tt
  | None => ret tt
  end.

Definition _annotate_batch (lens : Lens) (batch : list Drawing) : M unit :=
  let drawing_entries := String.concat newline (map drawing_entry batch) in
  let prompt := render_lens_annotation_batch env (l_name lens) (l_description lens)
                  drawing_entries in
  r <- attempt (vision_synthesize_text prompt (max_tokens_annotation_batch cfg)) ;;
  match r with
  | Raise e => print (LogPhase3CallFailed e)
  | Ok raw_response =>
      annotations <- _parse_json_list raw_response ;;
      items <- lift (json_iter annotations) ;;
      filename_to_annotation <- lift (annotation_map items []) ;;
      for_each (store_annotation lens filename_to_annotation) batch
  end.

Definition annotation_batch_size : Z := 10.

(** [db.close()] in the [finally] of a function that opened its connection
    at [opened]: what the connection wrote since its last [db.commit()] is
    discarded. *)
Definition last_commit (opened s : State) : DB :=
  if (List.length (committed opened) <? List.length (committed s))%nat
  then hd (conn opened) (committed s)
  else conn opened.

Definition closing (A : Type) (body : M A) : M A :=
  fun opened =>
    let (r, s) := body opened in
    (r, mk_state (last_commit opened s) (committed s) (log s) (calls s) (clock s)).

Definition generate_lens_annotations (lens_id user_id : Z) : M unit :=
  closing (try_except
    (lens <- query (fun db => find (fun l => (l_id l =? lens_id)
                                             && (l_user_id l =? user_id))
                                   (lenses db)) ;;
     match lens with
     | None => ret tt
     | Some lens =>
         rows <- query (select_needing_annotation lens_id) ;;
         match rows with
         | [] => ret tt
         | _ :: _ =>
             starts <- lift (py_range0 (List.length rows) annotation_batch_size) ;;
             for_each
               (fun i =>
                  _annotate_batch lens (list_slice rows i annotation_batch_size) ;;
                  commit ;;
                  if Z.of_nat i + annotation_batch_size <? Z.of_nat (List.length rows)
                  then sleep else ret tt)
               starts
         end
     end)
    (fun e => print (LogAnnotationFailed lens_id e))).

(* ---------------------------------------------------------------- *)
(** ** The routers *)

(** [with get_db() as db:] commits when the block ends and rolls back to
    what the fresh connection saw when it raises. *)
Definition get_db (A : Type) (body : M A) : M A :=
  fun s => match body s with
           | (Ok a, s') => (Ok a, snd (commit s'))
           | (Raise e, s') =>
               (Raise e, mk_state (conn s) (committed s') (log s') (calls s') (clock s'))
           end.

(** *** [routers/archive.py] *)

Record AnalyzeTriggerResponse : Type := mk_trigger_response {
  tr_analysis_id : Z;
  tr_status : string
}.

Definition is_running (a : Analysis) : bool :=
  match a_status a with Running => true | _ => false end.

(** INSERT INTO archive_analyses (user_id, status, model_used)
    VALUES (?, 'pending', ?), and [cursor.lastrowid]. *)
Definition insert_analysis (user_id : Z) (model : string) : M Z :=
  db <- query (fun db => db) ;;
  t <- now ;;
  if existsb (Z.eqb user_id) (users db) then
    let id := next_analysis_id db in
    exec (fun db =>
            with_analyses (take_analysis_id db)
              (archive_analyses db ++
               [mk_analysis id user_id Pending None 0 0 None (Some model) t None])) ;;
    ret id
  else raise (mk_exn IntegrityError "FOREIGN KEY constraint failed").

(** The handler of POST /analyze. The response goes back at once; the
    background task it adds is [run_full_pipeline user_id analysis_id]. *)
Definition trigger_analysis (user_id : Z) : M AnalyzeTriggerResponse :=
  analysis_id <-
    get_db
      (running <- query (fun db => find (fun a => (a_user_id a =? user_id)
                                                  && is_running a)
                                        (archive_analyses db)) ;;
       match running with
       | Some r =>
           raise (mk_exn (HTTPException 409)
                    ("Analysis already running (id=" ++ str_of_Z (a_id r) ++ ")"))
       | None => insert_analysis user_id (model_name cfg)
       end) ;;
  ret (mk_trigger_response analysis_id "started").

(** *** [routers/lenses.py] *)

Record AnnotationStatusResponse : Type := mk_annotation_status {
  as_lens_id : Z;
  as_total : Z;
  as_ready : Z;
  as_status : string
}.

(** The [if]/[elif] chain at the end of [get_annotation_status]. *)
Definition annotation_status (total ready : Z) : string :=
  if total =? 0 then "empty"
  else if ready =? 0 then "pending"
  else if ready <? total then "generating"
  else "complete".

(** The handler of GET /{lens_id}/annotation_status, on the database its
    connection sees. *)
Definition get_annotation_status (lens_id user_id : Z) (db : DB)
  : AnnotationStatusResponse :=
  let total :=
    Z.of_nat (List.length (filter (above_threshold lens_id) (join_links db))) in
  let ready :=
    Z.of_nat (List.length
                (filter (fun p => above_threshold lens_id p
                                  && negb (is_null (k_annotation (fst p))))
                        (join_links db))) in
  mk_annotation_status lens_id total ready (annotation_status total ready).
End Analyzer.

(* ------------------------------------------------------------------ *)
(** ** What the claims are stated with *)









(* ------------------------------------------------------------------ *)
(** ** A small world to run the definitions on *)

Definition dq : string := String (ascii_of_nat 34) EmptyString.

(** The document [[{"filename":"a.jpg","annotation":"x"}]]. *)
Definition doc_a : string :=
  "[{" ++ dq ++ "filename" ++ dq ++ ":" ++ dq ++ "a.jpg" ++ dq ++ ","
       ++ dq ++ "annotation" ++ dq ++ ":" ++ dq ++ "x" ++ dq ++ "}]".

Definition val_a : json :=
  JArr [JObj [("filename", JStr "a.jpg"); ("annotation", JStr "x")]].

(** The document
    [{"lenses":[{"name":"Geographic journey","description":"places",
                 "drawing_relevance":{"a.jpg":0.9,"b.jpg":0.5}}]}]. *)
Definition doc_lenses : string :=
  "{" ++ dq ++ "lenses" ++ dq ++ ":[{"
      ++ dq ++ "name" ++ dq ++ ":" ++ dq ++ "Geographic journey" ++ dq ++ ","
      ++ dq ++ "description" ++ dq ++ ":" ++ dq ++ "places" ++ dq ++ ","
      ++ dq ++ "drawing_relevance" ++ dq ++ ":{"
      ++ dq ++ "a.jpg" ++ dq ++ ":0.9," ++ dq ++ "b.jpg" ++ dq ++ ":0.5}}]}".

Definition val_lenses : json :=
  JObj [("lenses",
         JArr [JObj [("name", JStr "Geographic journey");
                     ("description", JStr "places");
                     ("drawing_relevance",
                      JObj [("a.jpg", JNum (9 # 10)); ("b.jpg", JNum (5 # 10))])]])].

(** A decoder that knows a few documents and refuses the rest. *)
Definition canned_loads (text : string) : pyresult json :=
  if String.eqb text doc_a then Ok val_a
  else if String.eqb text doc_lenses then Ok val_lenses
  else if String.eqb text "[1]" then Ok (JArr [JInt 1])
  else if String.eqb text "[]" then Ok (JArr [])
  else if String.eqb text "{}" then Ok (JObj [])
  else Raise (mk_exn JSONDecodeError "Expecting value").







Definition no_such_file (path : string) : pyresult bytes :=
  Raise (mk_exn OSError "No such file or directory").

Definition reference_settings : Settings :=
  mk_settings "claude-opus-4-6" 8 600 8000 2000 (4 # 10).

(** An environment whose files are given by [files] and whose inference
    service answers with [analyze] and [synthesize]. *)
Definition world (files : string -> pyresult bytes)
    (analyze : list Call -> list image_tuple -> string -> Z -> pyresult string)
    (synthesize : list Call -> string -> Z -> pyresult string) : Env :=
  mk_env reference_settings canned_loads
    (fun s => Raise (mk_exn ValueError
                       ("could not convert string to float: '" ++ s ++ "'")))
    (fun s => s)
    (fun _ => Ok "0")
    files
    (fun raw => Ok raw)
    analyze synthesize
    "analyze these drawings"
    (fun year_range _ summaries => year_range ++ summaries)
    (fun name description entries => name ++ description ++ entries).


Definition service_down (A : Type) : pyresult A :=
  Raise (mk_exn OtherError "overloaded").

Definition quiet_world : Env :=
  world no_such_file (fun _ _ _ _ => service_down string)
        (fun _ _ _ => service_down string).



Definition fresh_state (db : DB) : State := mk_state db [db] [] [] 0%nat.

(** A drawing of user 1 dated 2016-05-06. *)
Definition drawing_of_1 (id : Z) (filename : string) (analysis_text : option string)
    (analyzed_at : option timestamp) : Drawing :=
  mk_drawing id 1 filename ("/data/" ++ filename) (Some "2016-05-06") (Some "jpg")
    analysis_text None analyzed_at.

(** A run of user 1 as [trigger_analysis] creates it. *)
Definition pending_run (id : Z) : Analysis :=
  mk_analysis id 1 Pending None 0 0 None (Some "claude-opus-4-6") 0%nat None.

(** User 1 has two analyzed drawings, the lens "Geographic journey" from an
    earlier run, and a link from it to a.jpg with score 0.7. *)
Definition db_with_lens : DB :=
  mk_db [1]
    [drawing_of_1 1 "a.jpg" (Some "a harbour") (Some 0%nat);
     drawing_of_1 2 "b.jpg" (Some "a street") (Some 0%nat)]
    [mk_analysis 1 1 Complete (Some PhaseDone) 2 2 None None 0%nat (Some 0%nat);
     pending_run 2]
    [mk_lens 1 1 1 "Geographic journey" "places" 0 JNull 0%nat]
    [mk_link 1 1 1 (7 # 10) None None]
    (mk_sequences 2 1 1).

(** The inference service proposes 0.9 for a.jpg and 0.5 for b.jpg. *)
Definition rediscovery_world : Env :=
  world no_such_file (fun _ _ _ _ => service_down string)
        (fun _ _ _ => Ok doc_lenses).

(** User 1 has one drawing analyzed by an earlier run and one that is new. *)
Definition db_half_analyzed : DB :=
  mk_db [1]
    [drawing_of_1 1 "z.jpg" (Some "an old sketch") (Some 0%nat);
     drawing_of_1 2 "a.jpg" None None]
    [pending_run 1] [] [] (mk_sequences 1 0 0).

(** Every file can be read and the inference service describes a.jpg. *)
Definition analysis_world : Env :=
  world (fun _ => Ok []) (fun _ _ _ _ => Ok doc_a)
        (fun _ _ _ => service_down string).

(** Every file can be read, and the inference service is down. *)
Definition flaky_world : Env :=
  world (fun _ => Ok []) (fun _ _ _ _ => service_down string)
        (fun _ _ _ => service_down string).

(** User 1 has two new drawings; only a.jpg can be read. *)
Definition db_two_new : DB :=
  mk_db [1]
    [drawing_of_1 1 "a.jpg" None None; drawing_of_1 2 "b.jpg" None None]
    [pending_run 1] [] [] (mk_sequences 1 0 0).

Definition only_a_jpg (path : string) : pyresult bytes :=
  if String.eqb path "/data/a.jpg" then Ok [] else no_such_file path.

(** The inference service answers with the array [[1]]. *)
Definition odd_world : Env :=
  world only_a_jpg (fun _ _ _ _ => Ok "[1]") (fun _ _ _ => service_down string).

(** The inference service describes a.jpg and nothing else. *)
Definition partial_world : Env :=
  world only_a_jpg (fun _ _ _ _ => Ok doc_a) (fun _ _ _ => service_down string).

(** User 1 has one new drawing and has never run the pipeline. *)
Definition db_no_runs : DB :=
  mk_db [1] [drawing_of_1 1 "a.jpg" None None] [] [] [] (mk_sequences 0 0 0).

(* ------------------------------------------------------------------ *)
(** ** Relations between states *)

(** [steps R m] says that [m] takes every state to a state related to it by
    [R], whether [m] returns or raises. *)
Definition steps {A : Type} (R : State -> State -> Prop) (m : M A) : Prop :=
  forall s, R s (snd (m s)).

Class StepOrder (R : State -> State -> Prop) : Prop := {
  step_refl : forall s, R s s;
  step_trans : forall a b c, R a b -> R b c -> R a c
}.

(** [R] holds across steps that touch nothing but the log and the clock. *)
Class Quiet (R : State -> State -> Prop) : Prop := {
  quiet : forall s s', conn s' = conn s -> committed s' = committed s ->
                       calls s' = calls s -> R s s'
}.

(** [R] holds as well across calls to the inference service. *)
Class Deaf (R : State -> State -> Prop) : Prop := {
  deaf : forall s s', conn s' = conn s -> committed s' = committed s -> R s s'
}.

(** A relation on what the connection sees, read as one on states. *)
Definition on_conn (Rdb : DB -> DB -> Prop) : State -> State -> Prop :=
  fun s s' => Rdb (conn s) (conn s').

Class DbOrder (Rdb : DB -> DB -> Prop) : Prop := {
  db_refl : forall db, Rdb db db;
  db_trans : forall a b c, Rdb a b -> Rdb b c -> Rdb a c
}.

(** Nothing was committed. *)
Definition same_commits (s s' : State) : Prop := committed s' = committed s.

(** [Rdb] relates what the connection saw at first to what it sees now and
    to every snapshot committed in between. *)
Definition with_commits (Rdb : DB -> DB -> Prop) (s s' : State) : Prop :=
  Rdb (conn s) (conn s')
  /\ exists new, committed s' = (new ++ committed s)%list
                 /\ Forall (Rdb (conn s)) new.

(** *** Lenses and links *)

(** UNIQUE(user_id, name) on [lenses]. *)
Definition lens_key (l : Lens) : Z * string := (l_user_id l, l_name l).
Definition lenses_unique (db : DB) : Prop := NoDup (map lens_key (lenses db)).

(** UNIQUE(lens_id, drawing_id) on [lens_drawing_links]. *)
Definition link_key (k : Link) : Z * Z := (k_lens_id k, k_drawing_id k).
Definition links_unique (db : DB) : Prop :=
  NoDup (map link_key (lens_drawing_links db)).


Definition find_link (lens_id drawing_id : Z) (db : DB) : option Link :=
  find (fun k => (k_lens_id k =? lens_id) && (k_drawing_id k =? drawing_id))
       (lens_drawing_links db).

Definition link_score (lens_id drawing_id : Z) (db : DB) : option Q :=
  option_map k_relevance_score (find_link lens_id drawing_id db).


Definition count_links (lens_id drawing_id : Z) (db : DB) : nat :=
  List.length
    (filter (fun k => (k_lens_id k =? lens_id) && (k_drawing_id k =? drawing_id))
            (lens_drawing_links db)).

(** Both tables only grow at the end, and keep their keys distinct. *)
Definition grows (db db' : DB) : Prop :=
  (exists extra, lenses db' = (lenses db ++ extra)%list)
  /\ (exists extra, lens_drawing_links db' = (lens_drawing_links db ++ extra)%list)
  /\ (lenses_unique db -> lenses_unique db')
  /\ (links_unique db -> links_unique db').

(** The lenses stay as they are and every new link points to lens [i]. *)
Definition links_to (i : Z) (db db' : DB) : Prop :=
  lenses db' = lenses db
  /\ exists extra, lens_drawing_links db' = (lens_drawing_links db ++ extra)%list
                   /\ Forall (fun k => k_lens_id k = i) extra.






(** *** Runs *)

(** The row of a run: the first one with its id. *)
Definition run_row (analysis_id : Z) (db : DB) : option Analysis :=
  find (fun a => a_id a =? analysis_id) (archive_analyses db).

Definition run_status_of (analysis_id : Z) (db : DB) : option run_status :=
  option_map a_status (run_row analysis_id db).

(** The runs of an owner that are in 'running' status. *)
Definition running_runs (user_id : Z) (db : DB) : list Analysis :=
  filter (fun a => (a_user_id a =? user_id) && is_running a) (archive_analyses db).

(** [analyzed_count] and [total_drawings] of a run. *)
Definition run_counts (analysis_id : Z) (db : DB) : option (Z * Z) :=
  option_map (fun a => (a_analyzed_count a, a_total_drawings a))
             (run_row analysis_id db).

(** A list of values, the latest first, that never decrease over time. *)
Fixpoint descending (l : list Z) : Prop :=
  match l with
  | x :: ((y :: _) as l') => y <= x /\ descending l'
  | _ => True
  end.

(** What a run has committed since the state [s0]: the connection sees the
    counts [(c, t)], the snapshots committed since [s0] carry [counts]
    (latest first), these never decreased from 0 up to [c], and each
    snapshot has its count within its total. *)
Definition history (analysis_id : Z) (s0 : State) (c t : Z) (s : State) : Prop :=
  run_counts analysis_id (conn s) = Some (c, t)
  /\ c <= t
  /\ exists new counts,
       committed s = (new ++ committed s0)%list
       /\ map (run_counts analysis_id) new = map Some counts
       /\ descending (c :: map fst counts ++ [0])
       /\ Forall (fun p => fst p <= snd p) counts.

(** Steps that leave the counts of the run alone. *)
Definition frame (analysis_id : Z) (s0 : State) (s s' : State) : Prop :=
  forall c t, history analysis_id s0 c t s -> history analysis_id s0 c t s'.

(** [m] takes the states of [P] to states of [Q], whether it returns or
    raises. *)
Definition hoare {A : Type} (P : State -> Prop) (m : M A) (Q : State -> Prop) : Prop :=
  forall s, P s -> Q (snd (m s)).

(** *** Drawings *)

(** INTEGER PRIMARY KEY on [drawings]. *)
Definition drawing_ids_unique (db : DB) : Prop := NoDup (map d_id (drawings db)).

(** Every row of [drawings] keeps its place and its id, and the rows whose
    id is not in [ids] are as they were. *)
Definition unchanged_outside (ids : list Z) (db db' : DB) : Prop :=
  Forall2 (fun d d' => d_id d' = d_id d /\ (~ In (d_id d) ids -> d' = d))
          (drawings db) (drawings db').

(** No call was made to the inference service. *)
Definition same_calls (s s' : State) : Prop := calls s' = calls s.

(** The images handed to the inference service by the calls [cs]. *)
Definition images_of (c : Call) : list image_tuple :=
  match c with
  | CallAnalyzeBatch images _ _ => images
  | CallSynthesizeText _ _ => []
  end.

Definition images_sent (cs : list Call) : list image_tuple := flat_map images_of cs.

Definition label_of (t : image_tuple) : string := snd t.

(** The calls of a step, and how many images they may carry at most. *)
Definition sends_at_most (n : nat) (labels : list string) (s s' : State) : Prop :=
  exists new, calls s' = (calls s ++ new)%list
              /\ (List.length (images_sent new) <= n)%nat
              /\ incl (map label_of (images_sent new)) labels.

(** The owner's drawings, and those of them already analyzed. *)
Definition count_owned (user_id : Z) (db : DB) : nat :=
  List.length (filter (fun d => d_user_id d =? user_id) (drawings db)).

Definition count_analyzed (user_id : Z) (db : DB) : nat :=
  List.length (filter (fun d => (d_user_id d =? user_id)
                                && negb (is_null (d_analyzed_at d)))
                      (drawings db)).

(** Nothing changed but the log and the clock. *)
Definition only_log (s s' : State) : Prop :=
  conn s' = conn s /\ committed s' = committed s /\ calls s' = calls s.

(** Every row of [drawings] keeps its place and its id, and a row that was
    marked analyzed stays marked. *)
Definition keeps_marks (db db' : DB) : Prop :=
  Forall2 (fun d d' => d_id d' = d_id d
                       /\ (d_analyzed_at d <> None -> d_analyzed_at d' <> None))
          (drawings db) (drawings db').

(** The rows of [drawings] with an id in [ids] are marked analyzed. *)
Definition marked (ids : list Z) (db : DB) : Prop :=
  forall r, In r (drawings db) -> In (d_id r) ids -> d_analyzed_at r <> None.

(** The response has an entry, not empty, under the drawing's filename. *)
Definition has_entry (filename_to_analysis : list (json * json)) (d : Drawing) : bool :=
  match dict_get filename_to_analysis (JStr (d_filename d)) with
  | Some item => truthy item
  | None => false
  end.

(** Every row of [drawings] keeps its place and its id, and the rows whose
    id is not in [ids] keep their analysis text and JSON. *)
Definition text_kept (ids : list Z) (db db' : DB) : Prop :=
  Forall2 (fun d d' => d_id d' = d_id d
                       /\ (~ In (d_id d) ids ->
                           d_analysis_text d' = d_analysis_text d
                           /\ d_analysis_json d' = d_analysis_json d))
          (drawings db) (drawings db').

(* ------------------------------------------------------------------ *)
(** ** Relations of the further properties *)

(** *** The run table across a run *)

(** The users are as they were; every row of [archive_analyses] keeps its
    place, its id, its owner, its model, its start and its error message,
    and the rows of other runs than [analysis_id] are as they were. *)
Definition touches_run (analysis_id : Z) (db db' : DB) : Prop :=
  users db' = users db
  /\ Forall2 (fun a a' => a_id a' = a_id a
                          /\ a_user_id a' = a_user_id a
                          /\ a_model_used a' = a_model_used a
                          /\ a_started_at a' = a_started_at a
                          /\ a_error_message a' = a_error_message a
                          /\ (a_id a <> analysis_id -> a' = a))
             (archive_analyses db) (archive_analyses db').

(** INTEGER PRIMARY KEY on [archive_analyses]. *)
Definition run_ids_unique (db : DB) : Prop := NoDup (map a_id (archive_analyses db)).

(** *** The drawings across a run *)

(** Every row of [drawings] keeps its place and the columns the scan of the
    dataset filled (id, owner, filename, path, date, extension), and the
    rows whose id is not in [ids] are as they were. *)
Definition analysis_only (ids : list Z) (db db' : DB) : Prop :=
  Forall2 (fun d d' => d_id d' = d_id d
                       /\ d_user_id d' = d_user_id d
                       /\ d_filename d' = d_filename d
                       /\ d_filepath d' = d_filepath d
                       /\ d_drawn_date d' = d_drawn_date d
                       /\ d_file_ext d' = d_file_ext d
                       /\ (~ In (d_id d) ids -> d' = d))
          (drawings db) (drawings db').

(** The same, [ids] being those of the owner's drawings that [db] holds as
    not yet analyzed. *)
Definition rewrites_only (user_id : Z) (db db' : DB) : Prop :=
  analysis_only (map d_id (select_unanalyzed user_id db)) db db'.

(** *** What lens discovery leaves and what it creates *)

Definition discovery_frame (db db' : DB) : Prop :=
  users db' = users db
  /\ drawings db' = drawings db
  /\ archive_analyses db' = archive_analyses db.

(** The ids of the lenses of an owner. *)
Definition lens_ids_of (user_id : Z) (db : DB) : list Z :=
  map l_id (filter (fun l => l_user_id l =? user_id) (lenses db)).

(** Lenses and links grow at the end, by rows made for the owner: a new lens
    carries the owner and the run, a new link has no annotation and points
    to a drawing of [ids] and to a lens of the owner. *)
Definition creates_for (user_id analysis_id : Z) (ids : list Z) (db db' : DB) : Prop :=
  exists new_lenses new_links,
    lenses db' = (lenses db ++ new_lenses)%list
    /\ lens_drawing_links db' = (lens_drawing_links db ++ new_links)%list
    /\ Forall (fun l => l_user_id l = user_id
                        /\ l_archive_analysis_id l = analysis_id) new_lenses
    /\ Forall (fun k => In (k_drawing_id k) ids
                        /\ In (k_lens_id k) (lens_ids_of user_id db')
                        /\ k_annotation k = None) new_links.

(** The same for a step that is handed the id of a lens: it holds when
    that lens is one of the owner's. *)
Definition creates_with (user_id analysis_id : Z) (ids : list Z) (lens_id : Z)
    (db db' : DB) : Prop :=
  In lens_id (lens_ids_of user_id db) -> creates_for user_id analysis_id ids db db'.

(** The call lens discovery makes for the rows it selected. *)
Definition discovery_call (env : Env) (rows : list Drawing) : list Call :=
  match rows with
  | [] => []
  | _ :: _ =>
      [CallSynthesizeText
         (render_lens_discovery env (year_range rows) (List.length rows)
            (summaries_block rows))
         (max_tokens_lens_discovery (cfg env))]
  end.

(** *** Worlds with another group size *)

Definition with_batch_size (n : Z) (env : Env) : Env :=
  mk_env (mk_settings (model_name (settings env)) n
            (max_tokens_per_image (settings env))
            (max_tokens_lens_discovery (settings env))
            (max_tokens_annotation_batch (settings env))
            (relevance_threshold (settings env)))
    (json_loads env) (float_of_str env) (unicode_lower env) (text_of_num env)
    (read_file env)
    (pil_recompress env) (analyze_batch env) (synthesize_text env)
    (prompt_drawing_batch_analysis env) (render_lens_discovery env)
    (render_lens_annotation_batch env).

(** *** What a group of drawings yields *)

(** The media type [load_image] derives from the extension column. *)
Definition media_type_of (env : Env) (d : Drawing) : string :=
  let ext := lower env (match d_file_ext d with
                        | Some e => if String.eqb e EmptyString then "jpeg" else e
                        | None => "jpeg"
                        end) in
  if String.eqb ext "jpg" || String.eqb ext "jpeg" then "image/jpeg"
  else "image/" ++ ext.

(** The image a drawing yields: its file as read when it is within the
    size limit, the output of Pillow as JPEG when it is larger, nothing
    when reading or recompressing raises. *)
Definition loaded (env : Env) (d : Drawing) : option image_tuple :=
  match read_file env (d_filepath d) with
  | Raise _ => None
  | Ok raw =>
      if Z.of_nat (List.length raw) <=? _MAX_IMAGE_BYTES
      then Some (raw, media_type_of env d, d_filename d)
      else match pil_recompress env raw with
           | Ok smaller => Some (smaller, "image/jpeg", d_filename d)
           | Raise _ => None
           end
  end.

Definition loadable (env : Env) (batch : list Drawing) : list image_tuple :=
  flat_map (fun d => match loaded env d with Some t => [t] | None => [] end) batch.

(** *** What annotation generation rewrites *)

(** Users, drawings, runs and lenses are as they were. Every link keeps its
    place, its id, its lens, its drawing and its score; a link that changed
    at all is one of lens [lens_id] to a drawing of [ids], and it now
    carries an annotation and the time it was generated. *)
Definition annotates (lens_id : Z) (ids : list Z) (db db' : DB) : Prop :=
  users db' = users db
  /\ drawings db' = drawings db
  /\ archive_analyses db' = archive_analyses db
  /\ lenses db' = lenses db
  /\ Forall2 (fun k k' => k_id k' = k_id k
                          /\ k_lens_id k' = k_lens_id k
                          /\ k_drawing_id k' = k_drawing_id k
                          /\ k_relevance_score k' = k_relevance_score k
                          /\ (k' = k
                              \/ (k_lens_id k = lens_id
                                  /\ In (k_drawing_id k) ids
                                  /\ k_annotation k' <> None
                                  /\ k_annotation_generated_at k' <> None)))
             (lens_drawing_links db) (lens_drawing_links db').

(** A link the annotation pass does not consider: it belongs to another
    lens, or it has an annotation, or its score is below the threshold. *)
Definition settled (env : Env) (lens_id : Z) (k : Link) : Prop :=
  k_lens_id k <> lens_id
  \/ k_annotation k <> None
  \/ Qle_bool (relevance_threshold (cfg env)) (k_relevance_score k) = false.

(** User 1 has a lens with three links: one annotated, one pending, one
    below the threshold. *)
Definition db_annotating : DB :=
  mk_db [1]
    [drawing_of_1 1 "a.jpg" (Some "a harbour") (Some 0%nat);
     drawing_of_1 2 "b.jpg" (Some "a street") (Some 0%nat);
     drawing_of_1 3 "c.jpg" (Some "a tree") (Some 0%nat)]
    [mk_analysis 1 1 Complete (Some PhaseDone) 3 3 None None 0%nat (Some 0%nat)]
    [mk_lens 1 1 1 "Geographic journey" "places" 0 JNull 0%nat]
    [mk_link 1 1 2 (9 # 10) (Some "seen before") (Some 0%nat);
     mk_link 2 1 1 (7 # 10) None None;
     mk_link 3 1 3 (1 # 10) None None]
    (mk_sequences 1 1 3).

(** User 1 has a lens whose only link is below the threshold. *)
Definition db_low_scores : DB :=
  mk_db [1]
    [drawing_of_1 1 "a.jpg" (Some "a harbour") (Some 0%nat)]
    [mk_analysis 1 1 Complete (Some PhaseDone) 1 1 None None 0%nat (Some 0%nat)]
    [mk_lens 1 1 1 "Geographic journey" "places" 0 JNull 0%nat]
    [mk_link 1 1 1 (1 # 10) None None]
    (mk_sequences 1 1 1).

(** The inference service answers every text request with an annotation
    for a.jpg. *)
Definition annotating_world : Env :=
  world no_such_file (fun _ _ _ _ => service_down string) (fun _ _ _ => Ok doc_a).

(* ------------------------------------------------------------------ *)
(** ** The other handlers of the routers

    These handlers only read: each is a function of the database its
    connection sees. *)

Section Routers.
Variable env : Env.

(** *** [routers/lenses.py] *)

Record LensResponse : Type := mk_lens_response {
  lr_id : Z;
  lr_user_id : Z;
  lr_name : string;
  lr_description : string;
  lr_sort_order : Z;
  lr_created_at : timestamp;
  lr_drawing_count : Z;
  lr_relevant_count : Z
}.

(** A row of [lenses], with the two count columns when the query has them. *)
Definition _row_to_lens (row : Lens) (drawing_count relevant_count : option Z)
  : LensResponse :=
  mk_lens_response (l_id row) (l_user_id row) (l_name row) (l_description row)
    (l_sort_order row) (l_created_at row)
    (match drawing_count with Some n => n | None => 0 end)
    (match relevant_count with Some n => n | None => 0 end).

(** ldl.relevance_score >= ? with the threshold of the settings. *)
Definition is_relevant (k : Link) : bool :=
  Qle_bool (relevance_threshold (cfg env)) (k_relevance_score k).

(** The links of a lens: what LEFT JOIN ... ON ldl.lens_id = l.id pairs
    with it, and what WHERE lens_id = ? selects. *)
Definition links_of (lens_id : Z) (db : DB) : list Link :=
  filter (fun k => k_lens_id k =? lens_id) (lens_drawing_links db).

(** ORDER BY l.sort_order ASC. SQLite fixes no order among rows with the
    same [sort_order]; they are kept here in rowid order. *)
Fixpoint insert_by_sort_order (x : Lens) (l : list Lens) : list Lens :=
  match l with
  | [] => [x]
  | y :: l' => if l_sort_order x <=? l_sort_order y then x :: l
               else y :: insert_by_sort_order x l'
  end.

Definition order_by_sort_order (l : list Lens) : list Lens :=
  fold_right insert_by_sort_order [] l.

(** The handler of GET /lenses. [id] is the primary key, so a group of
    GROUP BY l.id is one lens with its links; COUNT(ldl.id) counts them and
    the SUM counts those at or above the threshold. *)
Definition list_lenses (user_id : Z) (db : DB) : list LensResponse :=
  map (fun l =>
         _row_to_lens l
           (Some (Z.of_nat (List.length (links_of (l_id l) db))))
           (Some (Z.of_nat (List.length (filter is_relevant (links_of (l_id l) db))))))
      (order_by_sort_order (filter (fun l => l_user_id l =? user_id) (lenses db))).

(** The columns of [DrawingWithAnnotation] that the schema of this file
    keeps; [title], [thumbnail_url], [width] and [height] are copied from
    columns it leaves out. *)
Record DrawingWithAnnotation : Type := mk_drawing_with_annotation {
  dwa_id : Z;
  dwa_user_id : Z;
  dwa_filename : string;
  dwa_filepath : string;
  dwa_drawn_date : option string;
  dwa_file_ext : option string;
  dwa_analyzed_at : option timestamp;
  dwa_relevance_score : Q;
  dwa_annotation : option string
}.

Record LensDrawingsResponse : Type := mk_lens_drawings_response {
  ldr_lens : LensResponse;
  ldr_drawings : list DrawingWithAnnotation;
  ldr_annotations_ready : bool;
  ldr_annotation_total : Z;
  ldr_annotation_done : Z
}.

(** ORDER BY d.drawn_date ASC, d.filename ASC on the rows of the join. *)
Fixpoint insert_row_sorted (x : Link * Drawing) (l : list (Link * Drawing))
  : list (Link * Drawing) :=
  match l with
  | [] => [x]
  | y :: l' => if order_leb (snd x) (snd y) then x :: l
               else y :: insert_row_sorted x l'
  end.

Definition order_rows (l : list (Link * Drawing)) : list (Link * Drawing) :=
  fold_right insert_row_sorted [] l.

Definition row_to_drawing_with_annotation (r : Link * Drawing) : DrawingWithAnnotation :=
  mk_drawing_with_annotation
    (d_id (snd r)) (d_user_id (snd r)) (d_filename (snd r)) (d_filepath (snd r))
    (d_drawn_date (snd r)) (d_file_ext (snd r)) (d_analyzed_at (snd r))
    (k_relevance_score (fst r)) (k_annotation (fst r)).

(** The handler of GET /lenses/{lens_id}/drawings. [background_tasks] tells
    whether the handler was given a task queue; the second component of the
    result lists the arguments of the [generate_lens_annotations] tasks it
    adds to it. *)
Definition get_lens_drawings (lens_id user_id : Z) (background_tasks : bool) (db : DB)
  : pyresult (LensDrawingsResponse * list (Z * Z)) :=
  match find (fun l => (l_id l =? lens_id) && (l_user_id l =? user_id)) (lenses db) with
  | None => Raise (mk_exn (HTTPException 404) "Lens not found")
  | Some lens_row =>
      let drawing_count := Z.of_nat (List.length (links_of lens_id db)) in
      let relevant_count :=
        Z.of_nat (List.length (filter is_relevant (links_of lens_id db))) in
      let lens :=
        mk_lens_response (l_id lens_row) (l_user_id lens_row) (l_name lens_row)
          (l_description lens_row) (l_sort_order lens_row) (l_created_at lens_row)
          drawing_count relevant_count in
      let rows := order_rows (filter (above_threshold env lens_id) (join_links db)) in
      let drawings := map row_to_drawing_with_annotation rows in
      let annotation_done :=
        Z.of_nat (List.length
                    (filter (fun d => negb (is_null (dwa_annotation d))) drawings)) in
      let annotations_ready :=
        (annotation_done =? Z.of_nat (List.length drawings))
        && (0 <? Z.of_nat (List.length drawings)) in
      Ok (mk_lens_drawings_response lens drawings annotations_ready
            (Z.of_nat (List.length drawings)) annotation_done,
          if negb annotations_ready && background_tasks
          then [(lens_id, user_id)] else [])
  end.

(** *** [routers/archive.py]: GET /status *)

Record ArchiveStatusResponse : Type := mk_archive_status {
  st_analysis_id : option Z;
  st_status : string;
  st_phase : option string;
  st_total_drawings : Z;
  st_analyzed_count : Z;
  st_has_lenses : bool;
  st_error_message : option string
}.

(** The texts the code stores in [status] and [phase]. *)
Definition status_text (st : run_status) : string :=
  match st with
  | Pending => "pending"
  | Running => "running"
  | Complete => "complete"
  | Failed => "failed"
  end.

Definition phase_text (p : run_phase) : string :=
  match p with
  | BatchAnalysis => "batch_analysis"
  | LensDiscovery => "lens_discovery"
  | PhaseDone => "done"
  end.

(** ... WHERE user_id = ? ORDER BY started_at DESC LIMIT 1. SQLite fixes no
    order among runs started at the same time; the first of them in rowid
    order is taken here. *)
Definition later_run (best : option Analysis) (a : Analysis) : option Analysis :=
  match best with
  | None => Some a
  | Some b => if (a_started_at b <? a_started_at a)%nat then Some a else Some b
  end.

Definition latest_run (user_id : Z) (db : DB) : option Analysis :=
  fold_left later_run
    (filter (fun a => a_user_id a =? user_id) (archive_analyses db)) None.

Definition get_status (user_id : Z) (db : DB) : ArchiveStatusResponse :=
  let analysis := latest_run user_id db in
  let lens_count :=
    Z.of_nat (List.length (filter (fun l => l_user_id l =? user_id) (lenses db))) in
  match analysis with
  | None => mk_archive_status None "not_started" None 0 0 (0 <? lens_count) None
  | Some a =>
      mk_archive_status (Some (a_id a)) (status_text (a_status a))
        (option_map phase_text (a_phase a)) (a_total_drawings a) (a_analyzed_count a)
        (0 <? lens_count) (a_error_message a)
  end.

End Routers.

(** INTEGER PRIMARY KEY on [lenses]. *)
Definition lens_ids_unique (db : DB) : Prop := NoDup (map l_id (lenses db)).

(* ------------------------------------------------------------------ *)
(** ** The prompt registry ([services/ai/prompts/registry.py])

    The three templates, written with the two braces and the replacement
    fields as parameters: the registered template has the braces doubled
    and the fields in braces. A [string] holds the UTF-8 bytes of the text. *)

Definition drawing_batch_analysis_text (ob cb : string) : string :=
  "You are analyzing a personal drawing archive. Each image " ++
  "above is labeled with its filename." ++ newline ++
  newline ++
  "For EACH drawing labeled above, return a JSON object with " ++ "these fields:" ++
  newline ++
  "- filename: exactly as labeled (e.g. " ++ dq ++ "2016-05-06-trees.jpeg" ++ dq ++ ")" ++
  newline ++
  "- description: 2-3 sentences describing subject, setting, " ++
  "mood, and composition" ++ newline ++
  "- visual_attributes: one sentence covering medium " ++
  "(watercolor/pencil/ink/charcoal/digital/etc), palette " ++
  "(warm/cool/muted/vibrant/monochrome), technique " ++
  "(loose/detailed/gestural/precise/hatched), and atmosphere" ++ newline ++
  "- time_period_clues: brief note on visual evidence " ++
  "suggesting when this might have been made (style maturity, " ++
  "subject matter, wear on paper, etc) — or " ++ dq ++ "no clear clues" ++ dq ++
  " if uncertain" ++ newline ++
  newline ++
  "Return ONLY a valid JSON array, no markdown, no explanation:" ++ newline ++
  "[" ++ ob ++ dq ++ "filename" ++ dq ++ ": " ++ dq ++ "..." ++ dq ++ ", " ++ dq ++
  "description" ++ dq ++ ": " ++ dq ++ "..." ++ dq ++ ", " ++ dq ++ "visual_attributes" ++
  dq ++ ": " ++ dq ++ "..." ++ dq ++ ", " ++ dq ++ "time_period_clues" ++ dq ++ ": " ++
  dq ++ "..." ++ dq ++ cb ++ ", ...]".

Definition lens_discovery_text (ob cb year_range total_count all_summaries : string)
  : string :=
  "You are helping someone reflect on their personal drawing " ++ "archive spanning " ++
  year_range ++ "." ++ newline ++
  "They have " ++ total_count ++ " drawings in total." ++ newline ++
  newline ++
  "Here are text descriptions of all their drawings in " ++ "chronological order:" ++
  newline ++
  "---" ++ newline ++
  all_summaries ++ newline ++
  "---" ++ newline ++
  newline ++
  "Your task: identify 3-5 meaningful " ++ dq ++ "lenses" ++ dq ++
  " — narrative frames or observation angles that emerge " ++
  "specifically from THIS person's actual body of work." ++ newline ++
  newline ++
  "A lens is an angle through which one can read the ENTIRE " ++
  "archive chronologically and discover a pattern or story. It " ++
  "is NOT a filter, not a category, not an art technique term." ++ newline ++
  newline ++
  "Good lens examples (specific to a person's work):" ++ newline ++
  "- " ++ dq ++ "Geographic journey — how the places you've visited shape " ++
  "what you choose to draw" ++ dq ++ newline ++
  "- " ++ dq ++ "Presence and absence of people — when human figures appear " ++
  "vs. when scenes are empty" ++ dq ++ newline ++
  "- " ++ dq ++ "Movement from interior to exterior — a shift in the types " ++
  "of spaces drawn over time" ++ dq ++ newline ++
  newline ++
  "Bad examples (too generic): " ++ dq ++ "Color theory" ++ dq ++ ", " ++ dq ++
  "Composition" ++ dq ++ ", " ++ dq ++ "Watercolor technique" ++ dq ++ ", " ++ dq ++
  "Nature" ++ dq ++ newline ++
  newline ++
  "For each lens, provide:" ++ newline ++
  "- name: short evocative title (3-6 words)" ++ newline ++
  "- description: ONE sentence explaining the observation " ++
  "angle this lens provides" ++ newline ++
  "- drawing_relevance: an object mapping EVERY drawing " ++
  "filename to a relevance score (0.0 to 1.0)" ++ newline ++
  "  where 1.0 = this drawing is highly expressive of the " ++
  "lens, 0.0 = essentially unrelated" ++ newline ++
  newline ++
  "Return ONLY valid JSON, no markdown:" ++ newline ++
  ob ++ newline ++
  "  " ++ dq ++ "lenses" ++ dq ++ ": [" ++ newline ++
  "    " ++ ob ++ newline ++
  "      " ++ dq ++ "name" ++ dq ++ ": " ++ dq ++ "..." ++ dq ++ "," ++ newline ++
  "      " ++ dq ++ "description" ++ dq ++ ": " ++ dq ++ "..." ++ dq ++ "," ++ newline ++
  "      " ++ dq ++ "drawing_relevance" ++ dq ++ ": " ++ ob ++ dq ++ "filename1.jpeg" ++
  dq ++ ": 0.9, " ++ dq ++ "filename2.jpg" ++ dq ++ ": 0.3, ..." ++ cb ++ newline ++
  "    " ++ cb ++ newline ++
  "  ]" ++ newline ++
  cb.

Definition lens_annotation_batch_text
    (ob cb lens_name lens_description drawing_entries : string) : string :=
  "Lens: " ++ dq ++ lens_name ++ dq ++ " — " ++ lens_description ++ newline ++
  newline ++
  "For each drawing listed below, write ONE sentence observing " ++
  "it through the lens above." ++ newline ++
  "- Be concrete and specific to what is actually in the " ++ "drawing" ++ newline ++
  "- Frame as a quiet, perceptive observation — not an " ++ "evaluation or judgment" ++
  newline ++
  "- Vary your sentence structure (don't start every sentence " ++ "with " ++ dq ++
  "This drawing..." ++ dq ++ ")" ++ newline ++
  "- Note what is relevant to the lens even if it's through " ++ "contrast or absence" ++
  newline ++
  newline ++
  drawing_entries ++ newline ++
  newline ++
  "Return ONLY a valid JSON array, one object per drawing, in " ++ "the same order:" ++
  newline ++
  "[" ++ ob ++ dq ++ "filename" ++ dq ++ ": " ++ dq ++ "..." ++ dq ++ ", " ++ dq ++
  "annotation" ++ dq ++ ": " ++ dq ++ "..." ++ dq ++ cb ++ ", ...]".

(** A value handed to [render] as a keyword argument. *)
Inductive pyvalue : Type :=
| PStr (s : string)
| PInt (z : Z).

(** [format(value, '')] *)
Definition py_str (v : pyvalue) : string :=
  match v with
  | PStr s => s
  | PInt z => str_of_Z z
  end.

Record PromptTemplate : Type := mk_prompt_template {
  pt_id : string;
  pt_template : string;
  pt_default_values : list (string * pyvalue)
}.

(** [self._templates] after [_load_templates]: the ids are distinct, so
    each [register] adds an entry. *)
Definition _templates : list (string * PromptTemplate) :=
  [("drawing_batch_analysis",
    mk_prompt_template "drawing_batch_analysis"
      (drawing_batch_analysis_text "{{" "}}") []);
   ("lens_discovery",
    mk_prompt_template "lens_discovery"
      (lens_discovery_text "{{" "}}" "{year_range}" "{total_count}" "{all_summaries}")
      [("year_range", PStr "unknown period");
       ("total_count", PInt 0);
       ("all_summaries", PStr EmptyString)]);
   ("lens_annotation_batch",
    mk_prompt_template "lens_annotation_batch"
      (lens_annotation_batch_text "{{" "}}" "{lens_name}" "{lens_description}"
         "{drawing_entries}") [])].

(** Lookup in a dict with string keys. *)
Fixpoint lookup (V : Type) (d : list (string * V)) (key : string) : option V :=
  match d with
  | [] => None
  | (k, v) :: d' => if String.eqb k key then Some v else lookup d' key
  end.

(** What [str.format] does with a template: the text, a KeyError for a
    field that names no argument, a ValueError for a brace out of place.
    [OutsideModel] stands for the fields this model does not follow:
    positional and empty ones, attribute and index lookups, conversions and
    format specs. *)
Inductive formatted : Type :=
| Formatted (text : string)
| KeyError (key : string)
| FormatError (msg : string)
| OutsideModel.

Definition emit (s : string) (rest : formatted) : formatted :=
  match rest with
  | Formatted text => Formatted (s ++ text)
  | other => other
  end.

Definition is_name_start (c : ascii) : bool :=
  let n := nat_of_ascii c in
  (((65 <=? n) && (n <=? 90)) || ((97 <=? n) && (n <=? 122)) || (n =? 95))%nat.

Definition is_name_char (c : ascii) : bool :=
  let n := nat_of_ascii c in
  (is_name_start c || ((48 <=? n) && (n <=? 57)))%nat.

Fixpoint all_name_chars (s : string) : bool :=
  match s with
  | EmptyString => true
  | String c r => is_name_char c && all_name_chars r
  end.

(** A field name that is a plain keyword: an identifier. *)
Definition is_keyword_name (s : string) : bool :=
  match s with
  | EmptyString => false
  | String c r => is_name_start c && all_name_chars r
  end.

(** One pass over the template, left to right. [field] is [None] in
    literal text and holds the name read so far inside a replacement
    field. The value of a field is inserted as it is and not read again. *)
Fixpoint format_from (variables : list (string * pyvalue)) (field : option string)
    (template : string) : formatted :=
  match template with
  | EmptyString =>
      match field with
      | None => Formatted EmptyString
      | Some _ => FormatError "expected '}' before end of string"
      end
  | String c rest =>
      match field with
      | Some name =>
          if Ascii.eqb c "}" then
            if is_keyword_name name then
              match lookup variables name with
              | Some v => emit (py_str v) (format_from variables None rest)
              | None => KeyError name
              end
            else OutsideModel
          else if Ascii.eqb c "{" then OutsideModel
          else format_from variables (Some (name ++ String c EmptyString)) rest
      | None =>
          if Ascii.eqb c "{" then
            match rest with
            | EmptyString => FormatError "Single '{' encountered in format string"
            | String c' rest' =>
                if Ascii.eqb c' "{"
                then emit "{" (format_from variables None rest')
                else format_from variables (Some EmptyString) rest
            end
          else if Ascii.eqb c "}" then
            match rest with
            | String c' rest' =>
                if Ascii.eqb c' "}"
                then emit "}" (format_from variables None rest')
                else FormatError "Single '}' encountered in format string"
            | EmptyString => FormatError "Single '}' encountered in format string"
            end
          else emit (String c EmptyString) (format_from variables None rest)
      end
  end.

(** [template.format] with the variables as keyword arguments. *)
Definition str_format (template : string) (variables : list (string * pyvalue))
  : formatted :=
  format_from variables None template.

(** [variables = dict(defaults); variables.update(kwargs)]: an argument
    given by the caller comes before a default of the same name. *)
Definition merge_variables (defaults kwargs : list (string * pyvalue))
  : list (string * pyvalue) :=
  (kwargs ++ defaults)%list.

(** [PromptRegistry.render]; [None] when the template has a field that is
    outside the model. *)
Definition render (template_id : string) (kwargs : list (string * pyvalue))
  : option (pyresult string) :=
  match lookup _templates template_id with
  | None => Some (Raise (mk_exn ValueError ("Template not found: " ++ template_id)))
  | Some template =>
      let variables := merge_variables (pt_default_values template) kwargs in
      match str_format (pt_template template) variables with
      | Formatted text => Some (Ok text)
      | KeyError key =>
          Some (Raise (mk_exn ValueError
                         ("Missing required variable for template '" ++ template_id
                          ++ "': '" ++ key ++ "'")))
      | FormatError msg => Some (Raise (mk_exn ValueError msg))
      | OutsideModel => None
      end
  end.

(** The keyword arguments of the two calls the analyzer makes with
    arguments. *)
Definition lens_discovery_kwargs (year_range : string) (total_count : nat)
    (all_summaries : string) : list (string * pyvalue) :=
  [("year_range", PStr year_range);
   ("total_count", PInt (Z.of_nat total_count));
   ("all_summaries", PStr all_summaries)].

Definition lens_annotation_kwargs (lens_name lens_description drawing_entries : string)
  : list (string * pyvalue) :=
  [("lens_name", PStr lens_name);
   ("lens_description", PStr lens_description);
   ("drawing_entries", PStr drawing_entries)].

(** *** The run table after a run *)

(** Every row keeps its place, its id and its owner; the rows of other runs
    are as they were, and a row of the run reads 'complete' or 'failed'. *)
Definition run_settled (analysis_id : Z) (db db' : DB) : Prop :=
  users db' = users db
  /\ Forall2 (fun a a' => a_id a' = a_id a
                          /\ a_user_id a' = a_user_id a
                          /\ (a_id a <> analysis_id -> a' = a)
                          /\ (a_id a = analysis_id ->
                              a_status a' = Complete \/ a_status a' = Failed))
             (archive_analyses db) (archive_analyses db').

(** Every replacement field of the template has its name in [names];
    [field] as in [format_from]. *)
Fixpoint fields_within (names : list string) (field : option string)
    (template : string) : bool :=
  match template with
  | EmptyString => true
  | String c rest =>
      match field with
      | Some name =>
          if Ascii.eqb c "}"
          then existsb (String.eqb name) names && fields_within names None rest
          else fields_within names (Some (name ++ String c EmptyString)) rest
      | None =>
          if Ascii.eqb c "{" then
            match rest with
            | EmptyString => true
            | String c' rest' =>
                if Ascii.eqb c' "{" then fields_within names None rest'
                else fields_within names (Some EmptyString) rest
            end
          else if Ascii.eqb c "}" then
            match rest with
            | String c' rest' =>
                if Ascii.eqb c' "}" then fields_within names None rest' else true
            | EmptyString => true
            end
          else fields_within names None rest
      end
  end.

(** The argument of a name, when there is one, as a dict of one entry. *)
Definition entry_of (name : string) (value : option pyvalue)
  : list (string * pyvalue) :=
  match value with
  | Some v => [(name, v)]
  | None => []
  end.

(* ------------------------------------------------------------------ *)
(** ** The response parser *)

Unset Implicit Arguments.

Section ParserFacts.










End ParserFacts.

(** *** Stripping a fence *)

















(** The [except] clauses catch [JSONDecodeError] only: any other exception
    of the decoder goes up to the caller. *)
Lemma parse_json_list_propagates (env : Env) (text : string) (s : State) (e : exn) :
  json_loads env (_strip_markdown_fences text) = Raise e ->
  is_JSONDecodeError e = false ->
  _parse_json_list env text s = (Raise e, s).
Proof.
  intros H He. unfold _parse_json_list, bind, loads_or_pass.
  now rewrite H, He.
Qed.



(* ------------------------------------------------------------------ *)
(** ** The annotation status *)



(** The counts the handler computes always satisfy [0 <= ready <= total]. *)
Lemma get_annotation_status_counts (env : Env) (lens_id user_id : Z) (db : DB) :
  let r := get_annotation_status env lens_id user_id db in
  0 <= as_ready r /\ as_ready r <= as_total r
  /\ as_status r = annotation_status (as_total r) (as_ready r).
Proof.
  cbn. repeat split; [lia|].
  apply inj_le. generalize (join_links db). intros l.
  induction l as [|p l IH]; simpl; [lia|].
  destruct (above_threshold env lens_id p); simpl; [|exact IH].
  destruct (negb (is_null (k_annotation (fst p)))); simpl; lia.
Qed.

(** C10. The result of [get_annotation_status] does not depend on the
    [user_id] it is called with: both counts are taken over the links of
    the lens that reach the threshold, whoever owns the lens. *)
Theorem annotation_status_ignores_owner (env : Env) (lens_id u1 u2 : Z) (db : DB) :
  get_annotation_status env lens_id u1 db = get_annotation_status env lens_id u2 db
  /\ as_total (get_annotation_status env lens_id u1 db)
     = Z.of_nat (List.length (filter (above_threshold env lens_id) (join_links db)))
  /\ as_ready (get_annotation_status env lens_id u1 db)
     = Z.of_nat (List.length
                   (filter (fun p => above_threshold env lens_id p
                                     && negb (is_null (k_annotation (fst p))))
                           (join_links db))).
Proof. repeat split. Qed.

(** The lens of [db_with_lens] belongs to user 1; user 2 reads its status. *)
Example annotation_status_seen_by_another_owner :
  map l_user_id (lenses db_with_lens) = [1]
  /\ get_annotation_status quiet_world 1 2 db_with_lens
     = mk_annotation_status 1 1 0 "pending".
Proof. split; reflexivity. Qed.

(* ------------------------------------------------------------------ *)
(** ** Reasoning about the monad

    For a preorder [R], [steps R] goes through sequencing, loops and
    handlers. *)

Section Steps.

Context {R : State -> State -> Prop} {R_order : StepOrder R}.

Lemma steps_ret (A : Type) (a : A) : steps R (ret a).
Proof. intros s. apply step_refl. Qed.

Lemma steps_raise (A : Type) (e : exn) : steps R (@raise A e).
Proof. intros s. apply step_refl. Qed.

Lemma steps_lift (A : Type) (r : pyresult A) : steps R (lift r).
Proof. intros s. apply step_refl. Qed.

Lemma steps_query (A : Type) (f : DB -> A) : steps R (query f).
Proof. intros s. apply step_refl. Qed.

Lemma steps_now : steps R now.
Proof. intros s. apply step_refl. Qed.

Lemma steps_bind (A B : Type) (m : M A) (f : A -> M B) :
  steps R m -> (forall a, steps R (f a)) -> steps R (bind m f).
Proof.
  intros Hm Hf s. unfold bind. specialize (Hm s).
  destruct (m s) as [[a|e] s1]; simpl in *.
  - eapply step_trans; [exact Hm | apply Hf].
  - exact Hm.
Qed.

Lemma steps_try_except (A : Type) (m : M A) (h : exn -> M A) :
  steps R m -> (forall e, steps R (h e)) -> steps R (try_except m h).
Proof.
  intros Hm Hh s. unfold try_except. specialize (Hm s).
  destruct (m s) as [[a|e] s1]; simpl in *.
  - exact Hm.
  - eapply step_trans; [exact Hm | apply Hh].
Qed.

Lemma steps_attempt (A : Type) (m : M A) : steps R m -> steps R (attempt m).
Proof.
  intros Hm s. unfold attempt. specialize (Hm s).
  destruct (m s) as [r s1]. exact Hm.
Qed.

Lemma steps_for_each_In (X : Type) (body : X -> M unit) (l : list X) :
  (forall x, In x l -> steps R (body x)) -> steps R (for_each body l).
Proof.
  induction l as [|x l IH]; intros H; simpl.
  - apply steps_ret.
  - apply steps_bind; [apply H; now left|].
    intros _. apply IH. intros y Hy. apply H. now right.
Qed.

Lemma steps_for_each (X : Type) (body : X -> M unit) (l : list X) :
  (forall x, steps R (body x)) -> steps R (for_each body l).
Proof. intros H. apply steps_for_each_In. intros x _. apply H. Qed.

Context {R_quiet : Quiet R}.

Lemma steps_print (ev : LogEvent) : steps R (print ev).
Proof. intros s. now apply quiet. Qed.

Lemma steps_sleep : steps R sleep.
Proof. intros s. now apply quiet. Qed.

Context {R_deaf : Deaf R}.

Lemma steps_vision_analyze_batch (env : Env) (images : list image_tuple)
    (prompt : string) (max_tokens : Z) :
  steps R (vision_analyze_batch env images prompt max_tokens).
Proof. intros s. now apply deaf. Qed.

Lemma steps_vision_synthesize_text (env : Env) (text : string) (max_tokens : Z) :
  steps R (vision_synthesize_text env text max_tokens).
Proof. intros s. now apply deaf. Qed.

End Steps.

(** One step of a proof that follows the shape of the code. *)
Ltac step :=
  match goal with
  | |- steps _ (bind _ _) => apply steps_bind; [| intros ?]
  | |- steps _ (ret _) => apply steps_ret
  | |- steps _ (raise _) => apply steps_raise
  | |- steps _ (lift _) => apply steps_lift
  | |- steps _ (query _) => apply steps_query
  | |- steps _ now => apply steps_now
  | |- steps _ (print _) => apply steps_print
  | |- steps _ sleep => apply steps_sleep
  | |- steps _ (vision_analyze_batch _ _ _ _) => apply steps_vision_analyze_batch
  | |- steps _ (vision_synthesize_text _ _ _) => apply steps_vision_synthesize_text
  | |- steps _ (attempt _) => apply steps_attempt
  | |- steps _ (try_except _ _) => apply steps_try_except; [| intros ?]
  | |- steps _ (match ?x with _ => _ end) => destruct x
  end.

Ltac steps := repeat step.

Section QuietSteps.

Context {R : State -> State -> Prop} {R_order : StepOrder R} {R_quiet : Quiet R}.
Variable env : Env.

Lemma steps_loads_or_pass (keep : json -> bool) (text : string) :
  steps R (loads_or_pass env keep text).
Proof. unfold loads_or_pass. steps. Qed.

Lemma steps_parse_json_list (text : string) : steps R (_parse_json_list env text).
Proof.
  unfold _parse_json_list. step; [apply steps_loads_or_pass|]. step; [steps|].
  step; [|steps]. step; [apply steps_loads_or_pass | steps].
Qed.

Lemma steps_parse_json_dict (text : string) : steps R (_parse_json_dict env text).
Proof.
  unfold _parse_json_dict. step; [apply steps_loads_or_pass|]. step; [steps|].
  step; [|steps]. step; [apply steps_loads_or_pass | steps].
Qed.

Lemma steps_prepare_image_bytes (raw : bytes) (media_type : string) :
  steps R (_prepare_image_bytes env raw media_type).
Proof. unfold _prepare_image_bytes. steps. Qed.

Lemma steps_load_image (d : Drawing) : steps R (load_image env d).
Proof.
  unfold load_image. step; [steps|]. step; [|steps].
  apply steps_prepare_image_bytes.
Qed.

Lemma steps_load_images (batch : list Drawing) (acc : list image_tuple) :
  steps R (load_images env batch acc).
Proof.
  revert acc. induction batch as [|d rest IH]; intros acc; simpl.
  - steps.
  - step; [step; apply steps_load_image|].
    destruct a; [apply IH|]. step; [steps | apply IH].
Qed.

End QuietSteps.

(* ------------------------------------------------------------------ *)
(** ** Relations on the connection *)

Section OnConn.

Context {Rdb : DB -> DB -> Prop} {Rdb_order : DbOrder Rdb}.

#[export] Instance on_conn_order : StepOrder (on_conn Rdb).
Proof.
  split; unfold on_conn.
  - intros s. apply db_refl.
  - intros a b c. apply db_trans.
Qed.

#[export] Instance on_conn_quiet : Quiet (on_conn Rdb).
Proof. split. unfold on_conn. intros s s' -> _ _. apply db_refl. Qed.

#[export] Instance on_conn_deaf : Deaf (on_conn Rdb).
Proof. split. unfold on_conn. intros s s' -> _. apply db_refl. Qed.

Lemma steps_commit : steps (on_conn Rdb) commit.
Proof. intros s. unfold on_conn. apply db_refl. Qed.

Lemma steps_exec (f : DB -> DB) :
  (forall db, Rdb db (f db)) -> steps (on_conn Rdb) (exec f).
Proof. intros H s. unfold on_conn. apply H. Qed.

(** What follows a query may use what the query saw. *)
Lemma steps_query_bind (A B : Type) (f : DB -> A) (k : A -> M B) :
  (forall s, Rdb (conn s) (conn (snd (k (f (conn s)) s)))) ->
  steps (on_conn Rdb) (bind (query f) k).
Proof. intros H s. unfold on_conn. apply H. Qed.

End OnConn.

Ltac step_conn :=
  match goal with
  | |- steps _ commit => apply steps_commit
  | |- steps _ (_parse_json_list _ _) => apply steps_parse_json_list
  | |- steps _ (_parse_json_dict _ _) => apply steps_parse_json_dict
  | |- steps _ (load_images _ _ _) => apply steps_load_images
  | _ => step
  end.

Ltac walk := repeat step_conn.

(* ------------------------------------------------------------------ *)
(** ** Lenses and links only grow *)

Lemma NoDup_snoc (A : Type) (l : list A) (x : A) :
  NoDup l -> ~ In x l -> NoDup (l ++ [x]).
Proof.
  intros Hl Hx. apply NoDup_app; [assumption | repeat constructor; intros [] |].
  intros a Ha [<-|[]]. contradiction.
Qed.

#[export] Instance grows_order : DbOrder grows.
Proof.
  split.
  - intros db. repeat split; try (exists []; now rewrite app_nil_r); auto.
  - intros a b c (la & ka & ua & va) (lb & kb & ub & vb).
    destruct la as [x Hx], ka as [y Hy], lb as [x' Hx'], kb as [y' Hy'].
    repeat split; auto.
    + exists (x ++ x')%list. now rewrite Hx', Hx, app_assoc.
    + exists (y ++ y')%list. now rewrite Hy', Hy, app_assoc.
Qed.

Lemma grows_same (db db' : DB) :
  lenses db' = lenses db -> lens_drawing_links db' = lens_drawing_links db ->
  grows db db'.
Proof.
  intros Hl Hk. unfold grows, lenses_unique, links_unique. rewrite Hl, Hk.
  repeat split; try (exists []; now rewrite app_nil_r); auto.
Qed.

Lemma lens_conflict_false (user_id : Z) (name : string) (db : DB) :
  lens_conflict user_id name db = false ->
  ~ In (user_id, name) (map lens_key (lenses db)).
Proof.
  unfold lens_conflict. intros H Hin.
  apply in_map_iff in Hin as (l & Hkey & Hl).
  assert (existsb (fun l => (l_user_id l =? user_id)
                            && String.eqb (l_name l) name) (lenses db) = true) as E.
  { apply existsb_exists. exists l. split; [assumption|].
    unfold lens_key in Hkey. injection Hkey as -> ->.
    now rewrite Z.eqb_refl, String.eqb_refl. }
  congruence.
Qed.

Lemma link_conflict_false (lens_id drawing_id : Z) (db : DB) :
  link_conflict lens_id drawing_id db = false ->
  ~ In (lens_id, drawing_id) (map link_key (lens_drawing_links db)).
Proof.
  unfold link_conflict. intros H Hin.
  apply in_map_iff in Hin as (k & Hkey & Hk).
  assert (existsb (fun k => (k_lens_id k =? lens_id)
                            && (k_drawing_id k =? drawing_id))
                  (lens_drawing_links db) = true) as E.
  { apply existsb_exists. exists k. split; [assumption|].
    unfold link_key in Hkey. injection Hkey as -> ->.
    now rewrite !Z.eqb_refl. }
  congruence.
Qed.

Ltac step_db :=
  match goal with
  | |- steps _ (exec _) => apply steps_exec; intros db
  | |- steps _ (update_analysis _ _) => unfold update_analysis
  | _ => step_conn
  end.

Ltac walk_db := repeat step_db.

Section Grows.

Variable env : Env.

Lemma grows_update_analysis (id : Z) (f : Analysis -> Analysis) :
  steps (on_conn grows) (update_analysis id f).
Proof. walk_db. now apply grows_same. Qed.

Lemma grows_store_drawing (m : list (json * json)) (d : Drawing) :
  steps (on_conn grows) (store_drawing env m d).
Proof.
  unfold store_drawing, update_drawing_analysis, update_drawing_attempted.
  walk_db; now apply grows_same.
Qed.

Lemma grows_phase1_batch (analysis_id : Z) (drawings : list Drawing)
    (size : Z) (prompt : string) (start : nat) :
  steps (on_conn grows) (phase1_batch env analysis_id drawings size prompt start).
Proof.
  unfold phase1_batch. walk_db; try now apply grows_same.
  apply steps_for_each. intros d. apply grows_store_drawing.
Qed.

Lemma grows_phase1 (user_id analysis_id : Z) :
  steps (on_conn grows) (_phase1_batch_analysis env user_id analysis_id).
Proof.
  unfold _phase1_batch_analysis. walk_db.
  apply steps_for_each. intros b. apply grows_phase1_batch.
Qed.

Lemma grows_insert_or_ignore_lens (user_id analysis_id : Z) (name description : json)
    (sort_order : Z) (raw : json) :
  steps (on_conn grows)
    (insert_or_ignore_lens env user_id analysis_id name description sort_order raw).
Proof.
  unfold insert_or_ignore_lens. do 3 (step_db; [walk_db|]).
  apply steps_query_bind. intros s.
  destruct a as [n|]; [destruct a0 as [d|]|]; try (now apply grows_same).
  destruct (lens_conflict user_id n (conn s)) eqn:Ec; [now apply grows_same|].
  destruct (existsb (Z.eqb user_id) (users (conn s))
            && existsb (fun a => a_id a =? analysis_id) (archive_analyses (conn s)));
    [|apply db_refl].
  cbn. unfold grows, lenses_unique, links_unique. cbn.
  repeat split; try (exists []; now rewrite app_nil_r); auto.
  - eexists. reflexivity.
  - intros Hu. rewrite map_app. cbn. apply NoDup_snoc; [assumption|].
    now apply lens_conflict_false.
Qed.

Lemma grows_select_lens_id (user_id : Z) (name : json) :
  steps (on_conn grows) (select_lens_id env user_id name).
Proof. unfold select_lens_id. walk_db. Qed.

Lemma grows_insert_or_ignore_link (lens_id drawing_id : Z) (score : Q) :
  steps (on_conn grows) (insert_or_ignore_link lens_id drawing_id score).
Proof.
  unfold insert_or_ignore_link. walk_db.
  destruct (link_conflict lens_id drawing_id db) eqn:Ec; [now apply grows_same|].
  unfold grows, lenses_unique, links_unique. cbn.
  repeat split; try (exists []; now rewrite app_nil_r); auto.
  - eexists. reflexivity.
  - intros Hu. rewrite map_app. cbn. apply NoDup_snoc; [assumption|].
    now apply link_conflict_false.
Qed.

Lemma grows_store_relevance (m : list (json * Z)) (lens_id : Z) (entry : string * json) :
  steps (on_conn grows) (store_relevance env m lens_id entry).
Proof.
  unfold store_relevance. walk_db. apply grows_insert_or_ignore_link.
Qed.

Lemma grows_store_lens (user_id analysis_id : Z) (m : list (json * Z))
    (entry : nat * json) :
  steps (on_conn grows) (store_lens env user_id analysis_id m entry).
Proof.
  unfold store_lens. do 3 (step_db; [walk_db|]).
  step_db; [apply grows_insert_or_ignore_lens|].
  step_db; [apply grows_select_lens_id|].
  step_db; [walk_db|].
  step_db; [|walk_db].
  apply steps_for_each. intros e. apply grows_store_relevance.
Qed.

Lemma grows_phase2 (user_id analysis_id : Z) :
  steps (on_conn grows) (_phase2_lens_discovery env user_id analysis_id).
Proof.
  unfold _phase2_lens_discovery. walk_db.
  apply steps_for_each. intros e. apply grows_store_lens.
Qed.

Lemma grows_pipeline_start (user_id analysis_id : Z) :
  steps (on_conn grows) (pipeline_start user_id analysis_id).
Proof. unfold pipeline_start. walk_db. now apply grows_same. Qed.

Lemma grows_run_full_pipeline (user_id analysis_id : Z) :
  steps (on_conn grows) (run_full_pipeline env user_id analysis_id).
Proof.
  unfold run_full_pipeline, pipeline_body. step_db.
  - step_db; [apply grows_pipeline_start|].
    step_db; [apply grows_phase1|].
    step_db; [apply grows_update_analysis|].
    step_db; [walk_db|].
    step_db; [apply grows_phase2|].
    walk_db. now apply grows_same.
  - walk_db. now apply grows_same.
Qed.

End Grows.

(** *** Looking rows up in a table that grew *)

Lemma find_app_some (A : Type) (f : A -> bool) (l extra : list A) (x : A) :
  find f l = Some x -> find f (l ++ extra) = Some x.
Proof.
  induction l as [|a l IH]; simpl; [discriminate|].
  destruct (f a); [trivial | exact IH].
Qed.

Lemma find_some_count (A : Type) (f : A -> bool) (l : list A) (x : A) :
  find f l = Some x -> (1 <= List.length (filter f l))%nat.
Proof.
  induction l as [|a l IH]; simpl; [discriminate|].
  destruct (f a); simpl; [lia | exact IH].
Qed.

Lemma unique_key_count (A K : Type) (key : A -> K) (k0 : K) (f : A -> bool)
    (l : list A) :
  (forall a, f a = true -> key a = k0) ->
  NoDup (map key l) -> (List.length (filter f l) <= 1)%nat.
Proof.
  intros Hf. induction l as [|a l IH]; simpl; intros Hn; [lia|].
  apply NoDup_cons_iff in Hn as [Hnotin Hn]. specialize (IH Hn).
  destruct (f a) eqn:Ea; [|lia]. simpl.
  assert (filter f l = []) as ->; [|simpl; lia].
  destruct (filter f l) as [|b r] eqn:Eb; [reflexivity|].
  exfalso. apply Hnotin.
  assert (In b (filter f l)) as Hb by (rewrite Eb; now left).
  apply filter_In in Hb as [Hb Hfb].
  rewrite (Hf a Ea), <- (Hf b Hfb). now apply in_map.
Qed.


Lemma link_test_key (lens_id drawing_id : Z) (k : Link) :
  (k_lens_id k =? lens_id) && (k_drawing_id k =? drawing_id) = true ->
  link_key k = (lens_id, drawing_id).
Proof.
  intros H. apply andb_prop in H as [Hl Hd].
  apply Z.eqb_eq in Hl. apply Z.eqb_eq in Hd. unfold link_key. congruence.
Qed.

(** In a table that only grew, a link that was there keeps its score and
    stays the only row of its pair. *)
Lemma grows_keeps_link (db db' : DB) (lens_id drawing_id : Z) (score : Q) :
  grows db db' -> links_unique db ->
  link_score lens_id drawing_id db = Some score ->
  link_score lens_id drawing_id db' = Some score
  /\ links_unique db'
  /\ count_links lens_id drawing_id db' = 1%nat.
Proof.
  intros (_ & [extra Hk] & _ & Hu) Hn Hs. specialize (Hu Hn).
  unfold link_score, find_link in *.
  destruct (find _ (lens_drawing_links db)) as [k|] eqn:Ef; [|discriminate].
  assert (find (fun k => (k_lens_id k =? lens_id) && (k_drawing_id k =? drawing_id))
               (lens_drawing_links db') = Some k) as Ef'.
  { rewrite Hk. now apply find_app_some. }
  rewrite Ef'. repeat split; try assumption.
  unfold count_links. apply Nat.le_antisymm.
  - apply (unique_key_count _ _ link_key (lens_id, drawing_id)); [|exact Hu].
    intros a. apply link_test_key.
  - exact (find_some_count _ _ _ _ Ef').
Qed.


(** C5. Once a link row exists for a (lens, drawing) pair, a discovery pass
    leaves its relevance score as it was, whatever score the pass proposes
    for the pair, and the pair still has exactly one row; the same holds
    over a whole run of the pipeline. *)
Theorem link_score_first_write_wins (env : Env) (user_id analysis_id : Z)
    (lens_id drawing_id : Z) (score : Q) (s : State) :
  links_unique (conn s) ->
  link_score lens_id drawing_id (conn s) = Some score ->
  (let s' := snd (_phase2_lens_discovery env user_id analysis_id s) in
   link_score lens_id drawing_id (conn s') = Some score
   /\ links_unique (conn s')
   /\ count_links lens_id drawing_id (conn s') = 1%nat)
  /\
  (let s' := snd (run_full_pipeline env user_id analysis_id s) in
   link_score lens_id drawing_id (conn s') = Some score
   /\ links_unique (conn s')
   /\ count_links lens_id drawing_id (conn s') = 1%nat).
Proof.
  intros Hu Hs. split; cbv zeta.
  - apply (grows_keeps_link (conn s)); try assumption.
    apply (grows_phase2 env user_id analysis_id s).
  - apply (grows_keeps_link (conn s)); try assumption.
    apply (grows_run_full_pipeline env user_id analysis_id s).
Qed.

Lemma link_score_first_write_wins_witness :
  let s' := snd (run_full_pipeline rediscovery_world 1 2 (fresh_state db_with_lens)) in
  link_score 1 1 (conn s') = Some (7 # 10)
  /\ links_unique (conn s')
  /\ count_links 1 1 (conn s') = 1%nat.
Proof.
  apply (link_score_first_write_wins rediscovery_world 1 2 1 1 (7 # 10)
           (fresh_state db_with_lens)).
  - repeat constructor. intros [].
  - reflexivity.
Defined.

(* ------------------------------------------------------------------ *)
(** ** A descriptor that names an existing lens *)

#[export] Instance links_to_order (i : Z) : DbOrder (links_to i).
Proof.
  split.
  - intros db. split; [reflexivity|]. exists []. now rewrite app_nil_r.
  - intros a b c [La (x & Hx & Fx)] [Lb (y & Hy & Fy)]. split; [congruence|].
    exists (x ++ y)%list. split.
    + now rewrite Hy, Hx, app_assoc.
    + apply Forall_app. now split.
Qed.


Lemma find_app_none (A : Type) (f : A -> bool) (l extra : list A) :
  find f l = None -> find f (l ++ extra) = find f extra.
Proof.
  induction l as [|a l IH]; simpl; [reflexivity|].
  destruct (f a); [discriminate | exact IH].
Qed.




Section LinksTo.

Variable env : Env.




















End LinksTo.



(* ------------------------------------------------------------------ *)
(** ** Phase 1 leaves analyzed drawings alone *)

Lemma insert_sorted_perm (x : Drawing) (l : list Drawing) :
  Permutation (insert_sorted x l) (x :: l).
Proof.
  induction l as [|y l IH]; simpl; [reflexivity|].
  destruct (order_leb x y); [reflexivity|].
  rewrite IH. apply perm_swap.
Qed.

Lemma order_by_perm (l : list Drawing) : Permutation (order_by_date_filename l) l.
Proof.
  induction l as [|x l IH]; simpl; [reflexivity|].
  unfold order_by_date_filename in *. simpl.
  rewrite insert_sorted_perm. now constructor.
Qed.

Lemma In_list_slice (A : Type) (l : list A) (start : nat) (size : Z) (x : A) :
  In x (list_slice l start size) -> In x l.
Proof.
  unfold list_slice. intros H.
  rewrite <- (firstn_skipn start l). apply in_or_app. right.
  rewrite <- (firstn_skipn (Z.to_nat size) (skipn start l)).
  apply in_or_app. now left.
Qed.

#[export] Instance unchanged_outside_order (ids : list Z) :
  DbOrder (unchanged_outside ids).
Proof.
  split; unfold unchanged_outside.
  - intros db. induction (drawings db); constructor; auto.
  - intros a b c. generalize (drawings a) (drawings b) (drawings c).
    clear a b c. intros la lb lc Hab. revert lc.
    induction Hab as [|x y la lb [Hid Hxy] Hab IH]; intros lc Hbc;
      inversion Hbc as [|y' z lb' lc' [Hid' Hyz] Hbc']; subst; constructor.
    + split; [congruence|]. intros Hn. rewrite Hyz, Hxy; congruence.
    + now apply IH.
Qed.

Lemma unchanged_update_drawing (ids : list Z) (id : Z) (f : Drawing -> Drawing)
    (db : DB) :
  In id ids -> (forall d, d_id (f d) = d_id d) ->
  unchanged_outside ids db
    (with_drawings db (update_where d_id id f (drawings db))).
Proof.
  intros Hin Hf. unfold unchanged_outside. cbn.
  induction (drawings db) as [|d l IH]; simpl; constructor; [|exact IH].
  destruct (Z.eqb_spec (d_id d) id) as [E|E].
  - split; [apply Hf|]. intros Hn. exfalso. apply Hn. now rewrite E.
  - now split.
Qed.

Lemma unchanged_same_drawings (ids : list Z) (db db' : DB) :
  drawings db' = drawings db -> unchanged_outside ids db db'.
Proof.
  intros H. pose proof (db_refl (Rdb := unchanged_outside ids) db) as Hr.
  unfold unchanged_outside in *. now rewrite H.
Qed.

Section Unchanged.

Variable env : Env.
Variable ids : list Z.

Lemma unchanged_store_drawing (m : list (json * json)) (d : Drawing) :
  In (d_id d) ids ->
  steps (on_conn (unchanged_outside ids)) (store_drawing env m d).
Proof.
  intros Hd. unfold store_drawing, update_drawing_analysis, update_drawing_attempted.
  walk_db; now apply unchanged_update_drawing.
Qed.

Lemma unchanged_phase1_batch (analysis_id : Z) (drawings : list Drawing)
    (size : Z) (prompt : string) (start : nat) :
  (forall d, In d drawings -> In (d_id d) ids) ->
  steps (on_conn (unchanged_outside ids))
        (phase1_batch env analysis_id drawings size prompt start).
Proof.
  intros Hids. unfold phase1_batch. walk_db; try now apply unchanged_same_drawings.
  apply steps_for_each_In. intros d Hd. apply unchanged_store_drawing.
  apply Hids. now apply In_list_slice in Hd.
Qed.

End Unchanged.

Lemma unchanged_phase1 (env : Env) (user_id analysis_id : Z) (s : State) :
  unchanged_outside (map d_id (select_unanalyzed user_id (conn s))) (conn s)
    (conn (snd (_phase1_batch_analysis env user_id analysis_id s))).
Proof.
  unfold _phase1_batch_analysis.
  set (ids := map d_id (select_unanalyzed user_id (conn s))).
  unfold bind at 1, query at 1.
  assert (forall d, In d (select_unanalyzed user_id (conn s)) -> In (d_id d) ids)
    as Hids by (intros d Hd; now apply in_map).
  destruct (select_unanalyzed user_id (conn s)) as [|d0 rest] eqn:E;
    [apply db_refl|].
  enough (steps (on_conn (unchanged_outside ids))
            (starts <- lift (py_range0 (List.length (d0 :: rest)) (batch_size (cfg env))) ;;
             for_each (phase1_batch env analysis_id (d0 :: rest) (batch_size (cfg env))
                         (prompt_drawing_batch_analysis env)) starts)) as H
    by exact (H s).
  walk_db. apply steps_for_each. intros b. now apply unchanged_phase1_batch.
Qed.

Lemma select_unanalyzed_In (user_id : Z) (db : DB) (d : Drawing) :
  In d (select_unanalyzed user_id db) <->
  In d (drawings db) /\ d_user_id d = user_id /\ d_analyzed_at d = None.
Proof.
  unfold select_unanalyzed. split.
  - intros H. apply (Permutation_in _ (order_by_perm _)) in H.
    apply filter_In in H as [Hin Ht]. apply andb_prop in Ht as [Hu Hn].
    apply Z.eqb_eq in Hu. destruct (d_analyzed_at d); [discriminate|]. auto.
  - intros (Hin & Hu & Hn).
    apply (Permutation_in _ (Permutation_sym (order_by_perm _))).
    apply filter_In. split; [assumption|].
    rewrite Hn, Hu, Z.eqb_refl. reflexivity.
Qed.

Lemma unique_id_eq (db : DB) (d d' : Drawing) :
  drawing_ids_unique db -> In d (drawings db) -> In d' (drawings db) ->
  d_id d = d_id d' -> d = d'.
Proof.
  unfold drawing_ids_unique. induction (drawings db) as [|x l IH]; simpl;
    intros Hn Hd Hd' E; [contradiction|].
  apply NoDup_cons_iff in Hn as [Hx Hn].
  destruct Hd as [<-|Hd], Hd' as [<-|Hd']; auto.
  - exfalso. apply Hx. rewrite E. now apply in_map.
  - exfalso. apply Hx. rewrite <- E. now apply in_map.
Qed.

Lemma unchanged_outside_In (ids : list Z) (db db' : DB) (d : Drawing) :
  unchanged_outside ids db db' -> In d (drawings db) -> ~ In (d_id d) ids ->
  In d (drawings db').
Proof.
  unfold unchanged_outside. induction 1 as [|x y l l' [_ Hxy] _ IH]; simpl;
    intros Hin Hn; [contradiction|].
  destruct Hin as [->|Hin]; [left; now apply Hxy | right; now apply IH].
Qed.

Lemma count_split (user_id : Z) (db : DB) :
  (List.length (select_unanalyzed user_id db) + count_analyzed user_id db
   = count_owned user_id db)%nat.
Proof.
  unfold select_unanalyzed, count_analyzed, count_owned.
  rewrite (Permutation_length (order_by_perm _)).
  induction (drawings db) as [|d l IH]; simpl; [reflexivity|].
  destruct (d_user_id d =? user_id); simpl; [|exact IH].
  destruct (d_analyzed_at d); simpl; lia.
Qed.

(* ------------------------------------------------------------------ *)
(** ** The images phase 1 sends *)

#[export] Instance same_calls_order : StepOrder same_calls.
Proof. split; unfold same_calls; [reflexivity | congruence]. Qed.

#[export] Instance same_calls_quiet : Quiet same_calls.
Proof. split. unfold same_calls. auto. Qed.

#[export] Instance only_log_order : StepOrder only_log.
Proof.
  split; unfold only_log.
  - auto.
  - intros a b c (-> & -> & ->) (-> & -> & ->). auto.
Qed.

#[export] Instance only_log_quiet : Quiet only_log.
Proof. split. unfold only_log. auto. Qed.

Lemma same_calls_exec (f : DB -> DB) : steps same_calls (exec f).
Proof. intros s. reflexivity. Qed.

Lemma same_calls_commit : steps same_calls commit.
Proof. intros s. reflexivity. Qed.

Ltac step_calls :=
  match goal with
  | |- steps _ (exec _) => apply same_calls_exec
  | |- steps _ commit => apply same_calls_commit
  | |- steps _ (update_analysis _ _) => unfold update_analysis
  | |- steps _ (_parse_json_list _ _) => apply steps_parse_json_list
  | |- steps _ (_parse_json_dict _ _) => apply steps_parse_json_dict
  | _ => step
  end.

Ltac walk_calls := repeat step_calls.

Section Sends.

Variable env : Env.

Lemma same_calls_store_drawing (m : list (json * json)) (d : Drawing) :
  steps same_calls (store_drawing env m d).
Proof.
  unfold store_drawing, update_drawing_analysis, update_drawing_attempted.
  walk_calls.
Qed.

Lemma load_image_label (d : Drawing) (s : State) (t : image_tuple) :
  fst (load_image env d s) = Ok t -> label_of t = d_filename d.
Proof.
  unfold load_image, bind, lift, ret.
  destruct (read_file env (d_filepath d)) as [image_bytes|e]; [|discriminate].
  destruct (_prepare_image_bytes _ _ _ s) as [[p|e] s1]; [|discriminate].
  simpl. intros H. injection H as <-. reflexivity.
Qed.

(** Loading never raises: what cannot be loaded is left out. *)
Lemma load_images_spec (batch : list Drawing) (acc : list image_tuple) (s : State) :
  exists images s',
    load_images env batch acc s = (Ok images, s')
    /\ only_log s s'
    /\ (List.length images <= List.length acc + List.length batch)%nat
    /\ (List.length acc <= List.length images)%nat
    /\ incl (map label_of images) (map label_of acc ++ map d_filename batch).
Proof.
  revert acc s. induction batch as [|d rest IH]; intros acc s; simpl.
  - exists acc, s.
    refine (conj eq_refl (conj _ (conj _ (conj _ _)))); try lia.
    + apply step_refl.
    + rewrite app_nil_r. apply incl_refl.
  - unfold bind at 1, attempt.
    pose proof (steps_load_image (R := only_log) env d s) as Hq.
    pose proof (load_image_label d s) as Hl.
    destruct (load_image env d s) as [[t|e] s1]; simpl in Hq, Hl.
    + destruct (IH (acc ++ [t])%list s1) as (images & s' & E & Hs & Hlen & Hge & Hinc).
      exists images, s'. rewrite E. rewrite length_app in Hlen, Hge. simpl in *.
      refine (conj eq_refl (conj _ (conj _ (conj _ _)))); try lia.
      * eapply step_trans; eassumption.
      * intros x Hx. apply Hinc in Hx. rewrite map_app in Hx. simpl in Hx.
        rewrite (Hl t eq_refl) in Hx.
        rewrite !in_app_iff in *. simpl in *. tauto.
    + unfold bind at 1, print at 1.
      destruct (IH acc (mk_state (conn s1) (committed s1)
                          (log s1 ++ [LogCouldNotLoad (d_filepath d) e])
                          (calls s1) (clock s1)))
        as (images & s' & E & Hs & Hlen & Hge & Hinc).
      exists images, s'. rewrite E.
      refine (conj eq_refl (conj _ (conj _ (conj _ _)))); try lia.
      * eapply step_trans; [exact Hq|].
        eapply step_trans; [|exact Hs]. now apply quiet.
      * intros x Hx. apply Hinc in Hx.
        rewrite !in_app_iff in *. simpl in *. tauto.
Qed.

Lemma images_sent_app (a b : list Call) :
  images_sent (a ++ b) = (images_sent a ++ images_sent b)%list.
Proof. unfold images_sent. apply flat_map_app. Qed.

Lemma sends_same_calls (L : list string) (s s' : State) :
  same_calls s s' -> sends_at_most 0 L s s'.
Proof.
  intros H. exists []. rewrite app_nil_r. repeat split; auto.
  intros x [].
Qed.

Lemma sends_weaken (n n' : nat) (L : list string) (s s' : State) :
  (n <= n')%nat -> sends_at_most n L s s' -> sends_at_most n' L s s'.
Proof. intros Hn (new & E & Hlen & Hinc). exists new. repeat split; auto. lia. Qed.

Lemma sends_trans (n1 n2 : nat) (L : list string) (s s1 s2 : State) :
  sends_at_most n1 L s s1 -> sends_at_most n2 L s1 s2 ->
  sends_at_most (n1 + n2) L s s2.
Proof.
  intros (a & Ea & La & Ia) (b & Eb & Lb & Ib). exists (a ++ b)%list.
  rewrite Eb, Ea, app_assoc, images_sent_app, length_app, map_app.
  repeat split; [lia|]. now apply incl_app.
Qed.

Lemma sends_for_each (X : Type) (body : X -> M unit) (w : X -> nat)
    (L : list string) (l : list X) (s : State) :
  (forall x s, sends_at_most (w x) L s (snd (body x s))) ->
  sends_at_most (list_sum (map w l)) L s (snd (for_each body l s)).
Proof.
  intros Hb. revert s. induction l as [|x l IH]; intros s; simpl.
  - apply sends_same_calls. reflexivity.
  - unfold bind. specialize (Hb x s).
    destruct (body x s) as [[[]|e] s1]; simpl in Hb.
    + eapply sends_trans; [exact Hb | apply IH].
    + eapply sends_weaken; [|exact Hb]. lia.
Qed.

Lemma phase1_batch_sends (analysis_id : Z) (drawings : list Drawing) (size : Z)
    (prompt : string) (start : nat) (L : list string) (s : State) :
  incl (map d_filename drawings) L ->
  sends_at_most (List.length (list_slice drawings start size)) L s
    (snd (phase1_batch env analysis_id drawings size prompt start s)).
Proof.
  intros HL. unfold phase1_batch.
  destruct (load_images_spec (list_slice drawings start size) [] s)
    as (images & s1 & E & (Hc & Hm & Hk) & Hlen & _ & Hinc).
  unfold bind at 1. rewrite E. simpl in Hlen, Hinc.
  assert (incl (map label_of images) L) as HiL.
  { intros x Hx. apply HL. apply Hinc in Hx. apply in_map_iff in Hx as (d & <- & Hd).
    apply in_map. now apply In_list_slice in Hd. }
  destruct images as [|t ts].
  - eapply sends_weaken; [apply Nat.le_0_l|]. now apply sends_same_calls.
  - unfold bind at 1, attempt, vision_analyze_batch. cbn [fst snd record_call].
    set (c := CallAnalyzeBatch (t :: ts) prompt _).
    set (s2 := mk_state (conn s1) (committed s1) (log s1) (calls s1 ++ [c]) _).
    assert (sends_at_most (List.length (list_slice drawings start size)) L s s2) as H2.
    { exists [c]. subst s2. cbn [calls]. rewrite Hk. split; [reflexivity|].
      unfold images_sent. cbn [flat_map images_of c]. rewrite app_nil_r.
      split; assumption. }
    destruct (analyze_batch env (calls s1) (t :: ts) prompt _) as [raw|e].
    + match goal with
      | |- sends_at_most _ _ _ (snd (?k s2)) =>
          assert (steps same_calls k) as Hk2
      end.
      { walk_calls. apply steps_for_each. intros d. apply same_calls_store_drawing. }
      replace (List.length (list_slice drawings start size))
        with (List.length (list_slice drawings start size) + 0)%nat by lia.
      eapply sends_trans; [exact H2|]. apply sends_same_calls. apply Hk2.
    + exact H2.
Qed.

Lemma range_slices_bound (A : Type) (l : list A) (size : Z) (fuel start : nat) :
  0 < size ->
  (list_sum (map (fun b => List.length (list_slice l b size))
                 (range_up fuel start (List.length l) (Z.to_nat size)))
   <= List.length l - start)%nat.
Proof.
  intros Hs. revert start. induction fuel as [|f IH]; intros start; simpl; [lia|].
  destruct (Nat.ltb_spec start (List.length l)) as [Hlt|Hge]; simpl; [|lia].
  specialize (IH (start + Z.to_nat size)%nat).
  unfold list_slice at 1. rewrite length_firstn, length_skipn. lia.
Qed.

Lemma phase1_sends (user_id analysis_id : Z) (s : State) :
  sends_at_most (List.length (select_unanalyzed user_id (conn s)))
    (map d_filename (select_unanalyzed user_id (conn s))) s
    (snd (_phase1_batch_analysis env user_id analysis_id s)).
Proof.
  unfold _phase1_batch_analysis. unfold bind at 1, query at 1.
  set (L := map d_filename (select_unanalyzed user_id (conn s))).
  assert (incl (map d_filename (select_unanalyzed user_id (conn s))) L) as HL
    by apply incl_refl.
  destruct (select_unanalyzed user_id (conn s)) as [|d0 rest].
  - apply sends_same_calls. reflexivity.
  - unfold bind, lift, py_range0.
    destruct (Z.eqb_spec (batch_size (cfg env)) 0) as [E0|E0];
      [apply sends_weaken with (n := 0%nat); [lia|]; now apply sends_same_calls|].
    destruct (Z.ltb_spec (batch_size (cfg env)) 0) as [En|En];
      [apply sends_weaken with (n := 0%nat); [lia|]; now apply sends_same_calls|].
    eapply sends_weaken;
      [|apply sends_for_each
          with (w := fun b => List.length (list_slice (d0 :: rest) b
                                             (batch_size (cfg env))));
        intros b s0; now apply phase1_batch_sends].
    etransitivity; [apply range_slices_bound; lia|]. lia.
Qed.

End Sends.

(** C2. A drawing whose [analyzed_at] is set when phase 1 starts is not
    among the drawings phase 1 selects, and its row is the same afterwards;
    only rows of selected drawings are rewritten. Of the owner's n drawings,
    k of them analyzed, phase 1 selects n - k, and the calls it makes carry
    at most n - k images, all of them of selected drawings. *)
Theorem phase1_skips_analyzed (env : Env) (user_id analysis_id : Z) (s : State) :
  drawing_ids_unique (conn s) ->
  let selected := select_unanalyzed user_id (conn s) in
  let s' := snd (_phase1_batch_analysis env user_id analysis_id s) in
  (forall d, In d (drawings (conn s)) -> d_analyzed_at d <> None ->
             ~ In d selected /\ In d (drawings (conn s')))
  /\ unchanged_outside (map d_id selected) (conn s) (conn s')
  /\ (List.length selected + count_analyzed user_id (conn s)
      = count_owned user_id (conn s))%nat
  /\ sends_at_most (count_owned user_id (conn s) - count_analyzed user_id (conn s))
       (map d_filename selected) s s'.
Proof.
  intros Hu selected s'.
  pose proof (unchanged_phase1 env user_id analysis_id s) as Hun.
  pose proof (count_split user_id (conn s)) as Hc.
  fold selected in Hun, Hc. fold s' in Hun.
  refine (conj _ (conj Hun (conj Hc _))).
  - intros d Hd Ha.
    assert (~ In d selected) as Hns.
    { intros Hin. apply select_unanalyzed_In in Hin as (_ & _ & Hn). contradiction. }
    split; [exact Hns|].
    apply (unchanged_outside_In _ _ _ _ Hun Hd).
    intros Hid. apply in_map_iff in Hid as (d2 & Hid & Hd2). apply Hns.
    assert (In d2 (drawings (conn s))) as Hd2'
      by (apply select_unanalyzed_In in Hd2; tauto).
    now rewrite <- (unique_id_eq _ _ _ Hu Hd2' Hd Hid).
  - replace (count_owned user_id (conn s) - count_analyzed user_id (conn s))%nat
      with (List.length selected) by lia.
    apply phase1_sends.
Qed.

Lemma phase1_skips_analyzed_witness :
  let s := fresh_state db_half_analyzed in
  let s' := snd (_phase1_batch_analysis analysis_world 1 1 s) in
  In (drawing_of_1 1 "z.jpg" (Some "an old sketch") (Some 0%nat)) (drawings (conn s'))
  /\ sends_at_most 1 ["a.jpg"] s s'.
Proof.
  intros s s'.
  destruct (phase1_skips_analyzed analysis_world 1 1 s) as (H1 & _ & _ & H4).
  - repeat constructor; simpl; intuition discriminate.
  - split.
    + apply (H1 (drawing_of_1 1 "z.jpg" (Some "an old sketch") (Some 0%nat))).
      * now left.
      * discriminate.
    + exact H4.
Defined.

(* ------------------------------------------------------------------ *)
(** ** Failing calls to the inference service *)

Section Failures.

Variable env : Env.

(** Phase 1: the failing group is reported and skipped. *)
Lemma phase1_batch_call_failed (analysis_id : Z) (drawings : list Drawing)
    (size : Z) (prompt : string) (start : nat) (s s1 : State)
    (images : list image_tuple) (e : exn) :
  load_images env (list_slice drawings start size) [] s = (Ok images, s1) ->
  images <> [] ->
  analyze_batch env (calls s1) images prompt
    (Z.of_nat (List.length images) * max_tokens_per_image (cfg env) + 500) = Raise e ->
  phase1_batch env analysis_id drawings size prompt start s
  = (Ok tt,
     mk_state (conn s) (committed s) (log s1 ++ [LogPhase1CallFailed start e])
       (calls s ++ [CallAnalyzeBatch images prompt
                      (Z.of_nat (List.length images)
                       * max_tokens_per_image (cfg env) + 500)])
       (S (clock s1))).
Proof.
  intros Hl Hne He.
  destruct (load_images_spec env (list_slice drawings start size) [] s)
    as (images' & s1' & E & (Hc & Hm & Hk) & _).
  rewrite Hl in E. injection E as <- <-.
  unfold phase1_batch, bind at 1. rewrite Hl.
  destruct images as [|t ts]; [contradiction|].
  unfold bind at 1, attempt, vision_analyze_batch. rewrite He.
  cbn. now rewrite Hc, Hm, Hk.
Qed.

(** Phase 3: the failing batch is reported and skipped. *)
Lemma annotate_batch_call_failed (lens : Lens) (batch : list Drawing) (s : State)
    (e : exn) :
  synthesize_text env (calls s)
    (render_lens_annotation_batch env (l_name lens) (l_description lens)
       (String.concat newline (map drawing_entry batch)))
    (max_tokens_annotation_batch (cfg env)) = Raise e ->
  _annotate_batch env lens batch s
  = (Ok tt,
     mk_state (conn s) (committed s) (log s ++ [LogPhase3CallFailed e])
       (calls s ++ [CallSynthesizeText
                      (render_lens_annotation_batch env (l_name lens)
                         (l_description lens)
                         (String.concat newline (map drawing_entry batch)))
                      (max_tokens_annotation_batch (cfg env))])
       (S (clock s))).
Proof.
  intros He. unfold _annotate_batch, bind, attempt, vision_synthesize_text.
  rewrite He. reflexivity.
Qed.

(** Phase 2: the failure is raised again. *)
Lemma phase2_call_failed (user_id analysis_id : Z) (s : State) (e : exn) :
  select_analyzed user_id (conn s) <> [] ->
  synthesize_text env (calls s)
    (render_lens_discovery env (year_range (select_analyzed user_id (conn s)))
       (List.length (select_analyzed user_id (conn s)))
       (summaries_block (select_analyzed user_id (conn s))))
    (max_tokens_lens_discovery (cfg env)) = Raise e ->
  _phase2_lens_discovery env user_id analysis_id s
  = (Raise (mk_exn RuntimeError ("Lens discovery API call failed: " ++ exn_msg e)),
     snd (record_call
            (CallSynthesizeText
               (render_lens_discovery env
                  (year_range (select_analyzed user_id (conn s)))
                  (List.length (select_analyzed user_id (conn s)))
                  (summaries_block (select_analyzed user_id (conn s))))
               (max_tokens_lens_discovery (cfg env))) s)).
Proof.
  intros Hne He. unfold _phase2_lens_discovery, bind at 1, query at 1.
  destruct (select_analyzed user_id (conn s)) as [|r rows]; [contradiction|].
  unfold bind at 1, try_except, vision_synthesize_text. rewrite He.
  reflexivity.
Qed.

Lemma run_row_update (analysis_id : Z) (f : Analysis -> Analysis) (db : DB)
    (a : Analysis) :
  (forall x, a_id (f x) = a_id x) ->
  run_row analysis_id db = Some a ->
  run_row analysis_id
    (with_analyses db (update_where a_id analysis_id f (archive_analyses db)))
  = Some (f a).
Proof.
  intros Hf. unfold run_row. cbn.
  induction (archive_analyses db) as [|x l IH]; simpl; [discriminate|].
  destruct (Z.eqb_spec (a_id x) analysis_id) as [E|E].
  - intros H. injection H as <-. now rewrite Hf, E, Z.eqb_refl.
  - apply Z.eqb_neq in E. rewrite E. exact IH.
Qed.

(** The run boundary: whatever escapes the phases marks the run failed. *)
Lemma pipeline_failure_recorded (user_id analysis_id : Z) (s s1 : State)
    (a : Analysis) (e : exn) :
  pipeline_body env user_id analysis_id s = (Raise e, s1) ->
  run_row analysis_id (conn s1) = Some a ->
  fst (run_full_pipeline env user_id analysis_id s) = Ok tt
  /\ run_row analysis_id (conn (snd (run_full_pipeline env user_id analysis_id s)))
     = Some (set_run_failed (first_chars 500 (exn_msg e)) a).
Proof.
  intros Hb Ha. unfold run_full_pipeline, try_except. rewrite Hb.
  split; [reflexivity|]. cbn. now apply run_row_update.
Qed.

End Failures.

(** C3, as amended. A call to the inference service that raises in phase 1
    is reported and its group skipped: the group's turn returns normally,
    writes and commits nothing, and the loop goes on with the next group;
    the same holds for a batch of phase 3. In phase 2 the failure is raised
    again as a [RuntimeError], and an exception that leaves the phases
    marks the run [failed] with the first 500 characters of its message. *)
Theorem inference_failure_handling (env : Env) :
  (forall analysis_id drawings size prompt start s s1 images e rest,
     load_images env (list_slice drawings start size) [] s = (Ok images, s1) ->
     images <> [] ->
     analyze_batch env (calls s1) images prompt
       (Z.of_nat (List.length images) * max_tokens_per_image (cfg env) + 500)
     = Raise e ->
     let s' := snd (phase1_batch env analysis_id drawings size prompt start s) in
     fst (phase1_batch env analysis_id drawings size prompt start s) = Ok tt
     /\ conn s' = conn s /\ committed s' = committed s
     /\ log s' = (log s1 ++ [LogPhase1CallFailed start e])%list
     /\ for_each (phase1_batch env analysis_id drawings size prompt) (start :: rest) s
        = for_each (phase1_batch env analysis_id drawings size prompt) rest s')
  /\
  (forall lens batch s e,
     synthesize_text env (calls s)
       (render_lens_annotation_batch env (l_name lens) (l_description lens)
          (String.concat newline (map drawing_entry batch)))
       (max_tokens_annotation_batch (cfg env)) = Raise e ->
     let s' := snd (_annotate_batch env lens batch s) in
     fst (_annotate_batch env lens batch s) = Ok tt
     /\ conn s' = conn s /\ committed s' = committed s
     /\ log s' = (log s ++ [LogPhase3CallFailed e])%list)
  /\
  (forall user_id analysis_id s e,
     select_analyzed user_id (conn s) <> [] ->
     synthesize_text env (calls s)
       (render_lens_discovery env (year_range (select_analyzed user_id (conn s)))
          (List.length (select_analyzed user_id (conn s)))
          (summaries_block (select_analyzed user_id (conn s))))
       (max_tokens_lens_discovery (cfg env)) = Raise e ->
     fst (_phase2_lens_discovery env user_id analysis_id s)
     = Raise (mk_exn RuntimeError ("Lens discovery API call failed: " ++ exn_msg e)))
  /\
  (forall user_id analysis_id s s1 a e,
     pipeline_body env user_id analysis_id s = (Raise e, s1) ->
     run_row analysis_id (conn s1) = Some a ->
     run_row analysis_id (conn (snd (run_full_pipeline env user_id analysis_id s)))
     = Some (set_run_failed (first_chars 500 (exn_msg e)) a)).
Proof.
  refine (conj _ (conj _ (conj _ _))).
  - intros analysis_id drawings size prompt start s s1 images e rest Hl Hne He s'.
    pose proof (phase1_batch_call_failed env analysis_id drawings size prompt start
                  s s1 images e Hl Hne He) as H.
    subst s'. cbn [for_each]. unfold bind at 1. rewrite H. repeat split.
  - intros lens batch s e He s'.
    pose proof (annotate_batch_call_failed env lens batch s e He) as H.
    subst s'. rewrite H. repeat split.
  - intros user_id analysis_id s e Hne He.
    now rewrite (phase2_call_failed env user_id analysis_id s e Hne He).
  - intros user_id analysis_id s s1 a e Hb Ha.
    apply (pipeline_failure_recorded env user_id analysis_id s s1 a e Hb Ha).
Qed.

(** The claim as first stated fails in phase 2: user 1 has analyzed
    drawings, the discovery call raises, and run 2 ends [failed]. *)
Lemma inference_failure_fails_run :
  let s' := snd (run_full_pipeline quiet_world 1 2 (fresh_state db_with_lens)) in
  run_status_of 2 (conn s') = Some Failed
  /\ option_map a_error_message (run_row 2 (conn s'))
     = Some (Some "Lens discovery API call failed: overloaded")
  /\ calls s' = [CallSynthesizeText
                   (render_lens_discovery quiet_world
                      (year_range (select_analyzed 1 db_with_lens)) 2
                      (summaries_block (select_analyzed 1 db_with_lens)))
                   8000]
  /\ log s' = [LogPipelineFailed
                 (mk_exn RuntimeError "Lens discovery API call failed: overloaded")].
Proof. vm_compute. repeat split. Qed.

Lemma inference_failure_handling_witness :
  (let s := fresh_state db_half_analyzed in
   let turn := phase1_batch flaky_world 1 (select_unanalyzed 1 (conn s)) 8
                 "analyze these drawings" 0 s in
   fst turn = Ok tt /\ conn (snd turn) = conn s /\ committed (snd turn) = committed s
   /\ log (snd turn) = [LogPhase1CallFailed 0 (mk_exn OtherError "overloaded")])
  /\
  run_row 2 (conn (snd (run_full_pipeline quiet_world 1 2 (fresh_state db_with_lens))))
  = Some (set_run_failed "Lens discovery API call failed: overloaded"
            (mk_analysis 2 1 Running (Some LensDiscovery) 2 0 None
               (Some "claude-opus-4-6") 0%nat None)).
Proof.
  split.
  - destruct (proj1 (inference_failure_handling flaky_world) 1
                (select_unanalyzed 1 db_half_analyzed) 8 "analyze these drawings"
                0%nat (fresh_state db_half_analyzed) (fresh_state db_half_analyzed)
                [([], "image/jpeg", "a.jpg")] (mk_exn OtherError "overloaded") [])
      as (H1 & H2 & H3 & H4 & _).
    + reflexivity.
    + discriminate.
    + reflexivity.
    + cbv zeta. repeat split; assumption.
  - apply (proj2 (proj2 (proj2 (inference_failure_handling quiet_world))) 1 2
             (fresh_state db_with_lens)
             (snd (pipeline_body quiet_world 1 2 (fresh_state db_with_lens)))
             (mk_analysis 2 1 Running (Some LensDiscovery) 2 0 None
                (Some "claude-opus-4-6") 0%nat None)
             (mk_exn RuntimeError "Lens discovery API call failed: overloaded")).
    + reflexivity.
    + reflexivity.
Defined.

(* ------------------------------------------------------------------ *)
(** ** A stored group is marked analyzed *)

Lemma bind_ok (A B : Type) (m : M A) (f : A -> M B) (s s' : State) (b : B) :
  bind m f s = (Ok b, s') ->
  exists a s1, m s = (Ok a, s1) /\ f a s1 = (Ok b, s').
Proof.
  unfold bind. destruct (m s) as [[a|e] s1]; [|discriminate].
  intros H. now exists a, s1.
Qed.

#[export] Instance keeps_marks_order : DbOrder keeps_marks.
Proof.
  split; unfold keeps_marks.
  - intros db. induction (drawings db); constructor; auto.
  - intros a b c. generalize (drawings a) (drawings b) (drawings c).
    clear a b c. intros la lb lc Hab. revert lc.
    induction Hab as [|x y la lb [Hid Hxy] Hab IH]; intros lc Hbc;
      inversion Hbc as [|y' z lb' lc' [Hid' Hyz] Hbc']; subst; constructor.
    + split; [congruence | auto].
    + now apply IH.
Qed.

Lemma keeps_marks_same (db db' : DB) :
  drawings db' = drawings db -> keeps_marks db db'.
Proof.
  intros H. pose proof (db_refl (Rdb := keeps_marks) db) as Hr.
  unfold keeps_marks in *. now rewrite H.
Qed.

Lemma keeps_marks_update (id : Z) (f : Drawing -> Drawing) (db : DB) :
  (forall d, d_id (f d) = d_id d /\ d_analyzed_at (f d) <> None) ->
  keeps_marks db (with_drawings db (update_where d_id id f (drawings db))).
Proof.
  intros Hf. unfold keeps_marks. cbn.
  induction (drawings db) as [|d l IH]; simpl; constructor; [|exact IH].
  destruct (d_id d =? id); [|now split].
  destruct (Hf d) as [Hi Ha]. now split.
Qed.

Lemma keeps_marks_ids (db db' : DB) :
  keeps_marks db db' -> map d_id (drawings db') = map d_id (drawings db).
Proof.
  unfold keeps_marks. induction 1 as [|x y l l' [Hid _] _ IH]; simpl; congruence.
Qed.

Lemma keeps_marks_marked (ids : list Z) (db db' : DB) :
  keeps_marks db db' -> marked ids db -> marked ids db'.
Proof.
  unfold keeps_marks, marked. induction 1 as [|x y l l' [Hid Hm] _ IH]; simpl;
    intros H r Hr Hin; [contradiction|].
  destruct Hr as [<-|Hr].
  - apply Hm. apply H; [now left | now rewrite <- Hid].
  - apply IH; auto.
Qed.

Lemma update_where_marked (id : Z) (f : Drawing -> Drawing) (db : DB) :
  (forall d, d_id (f d) = d_id d /\ d_analyzed_at (f d) <> None) ->
  marked [id] (with_drawings db (update_where d_id id f (drawings db))).
Proof.
  intros Hf r Hr [E|[]]. cbn in Hr. unfold update_where in Hr.
  apply in_map_iff in Hr as (x & Hx & _). subst r.
  destruct (Z.eqb_spec (d_id x) id) as [Ex|Ex].
  - apply Hf.
  - congruence.
Qed.

Section Marks.

Variable env : Env.

Lemma keeps_store_drawing (m : list (json * json)) (d : Drawing) :
  steps (on_conn keeps_marks) (store_drawing env m d).
Proof.
  unfold store_drawing, update_drawing_analysis, update_drawing_attempted.
  walk_db; apply keeps_marks_update; intros x; split; (reflexivity || discriminate).
Qed.

Lemma keeps_phase1_batch (analysis_id : Z) (drawings : list Drawing)
    (size : Z) (prompt : string) (start : nat) :
  steps (on_conn keeps_marks)
        (phase1_batch env analysis_id drawings size prompt start).
Proof.
  unfold phase1_batch. walk_db; try now apply keeps_marks_same.
  apply steps_for_each. intros d. apply keeps_store_drawing.
Qed.

Lemma store_drawing_marks (m : list (json * json)) (d : Drawing) (s s' : State) :
  store_drawing env m d s = (Ok tt, s') -> marked [d_id d] (conn s').
Proof.
  unfold store_drawing, update_drawing_analysis, update_drawing_attempted.
  intros H.
  assert (forall t, marked [d_id d]
            (with_drawings (conn s)
               (update_where d_id (d_id d) (set_analyzed_at t) (drawings (conn s)))))
    as Hmark by (intros t; apply update_where_marked; intros x; split;
                 (reflexivity || discriminate)).
  destruct (dict_get m (JStr (d_filename d))) as [item|];
    [destruct (truthy item)|].
  - apply bind_ok in H as (text & s1 & H1 & H).
    unfold lift in H1. injection H1 as H1 <-.
    apply bind_ok in H as (bound & s2 & H2 & H).
    unfold lift in H2. injection H2 as H2 <-.
    unfold bind, now, exec in H. injection H as <-. cbn.
    apply update_where_marked. intros x. split; (reflexivity || discriminate).
  - unfold bind, now, exec in H. injection H as <-. apply Hmark.
  - unfold bind, now, exec in H. injection H as <-. apply Hmark.
Qed.

Lemma for_each_store_marks (m : list (json * json)) (batch : list Drawing)
    (s s' : State) :
  for_each (store_drawing env m) batch s = (Ok tt, s') ->
  marked (map d_id batch) (conn s').
Proof.
  revert s. induction batch as [|d rest IH]; intros s H; simpl in *.
  - intros r _ [].
  - apply bind_ok in H as ([] & s1 & H1 & H).
    pose proof (store_drawing_marks m d s s1 H1) as Hd.
    pose proof (steps_for_each (R := on_conn keeps_marks) _
                  (store_drawing env m) rest (keeps_store_drawing m) s1) as Hk.
    rewrite H in Hk. unfold on_conn in Hk. cbn in Hk.
    pose proof (keeps_marks_marked _ _ _ Hk Hd) as Hd'.
    specialize (IH s1 H).
    intros r Hr [E|Hin]; [apply Hd'; [assumption | now left] | now apply IH].
Qed.

Lemma phase1_batch_marks (analysis_id : Z) (drawings : list Drawing) (size : Z)
    (prompt : string) (start : nat) (s s1 s' : State) (images : list image_tuple)
    (raw : string) :
  load_images env (list_slice drawings start size) [] s = (Ok images, s1) ->
  images <> [] ->
  analyze_batch env (calls s1) images prompt
    (Z.of_nat (List.length images) * max_tokens_per_image (cfg env) + 500) = Ok raw ->
  phase1_batch env analysis_id drawings size prompt start s = (Ok tt, s') ->
  marked (map d_id (list_slice drawings start size)) (conn s').
Proof.
  intros Hl Hne Hc H. unfold phase1_batch in H.
  apply bind_ok in H as (images' & s1' & Hl' & H).
  rewrite Hl in Hl'. injection Hl' as <- <-.
  destruct images as [|t ts]; [contradiction|].
  apply bind_ok in H as (r & s2 & Hr & H).
  unfold attempt, vision_analyze_batch in Hr. rewrite Hc in Hr.
  injection Hr as <- <-.
  apply bind_ok in H as (analyses & s3 & _ & H).
  apply bind_ok in H as (items & s4 & _ & H).
  apply bind_ok in H as (m & s5 & _ & H).
  apply bind_ok in H as ([] & s6 & Hstore & H).
  apply for_each_store_marks in Hstore.
  eapply keeps_marks_marked; [|exact Hstore].
  match type of H with
  | ?k s6 = _ =>
      assert (steps (on_conn keeps_marks) k) as Hk
        by (walk_db; now apply keeps_marks_same);
      specialize (Hk s6); rewrite H in Hk; exact Hk
  end.
Qed.

End Marks.

#[export] Instance text_kept_order (ids : list Z) : DbOrder (text_kept ids).
Proof.
  split; unfold text_kept.
  - intros db. induction (drawings db); constructor; auto.
  - intros a b c. generalize (drawings a) (drawings b) (drawings c).
    clear a b c. intros la lb lc Hab. revert lc.
    induction Hab as [|x y la lb [Hid Hxy] Hab IH]; intros lc Hbc;
      inversion Hbc as [|y' z lb' lc' [Hid' Hyz] Hbc']; subst; constructor.
    + split; [congruence|]. intros Hn.
      destruct (Hxy Hn) as [E1 E2].
      destruct Hyz as [E3 E4]; [now rewrite Hid|]. split; congruence.
    + now apply IH.
Qed.

Lemma text_kept_same (ids : list Z) (db db' : DB) :
  drawings db' = drawings db -> text_kept ids db db'.
Proof.
  intros H. pose proof (db_refl (Rdb := text_kept ids) db) as Hr.
  unfold text_kept in *. now rewrite H.
Qed.

Lemma text_kept_update (ids : list Z) (id : Z) (f : Drawing -> Drawing) (db : DB) :
  (forall d, d_id (f d) = d_id d) ->
  In id ids \/ (forall d, d_analysis_text (f d) = d_analysis_text d
                          /\ d_analysis_json (f d) = d_analysis_json d) ->
  text_kept ids db (with_drawings db (update_where d_id id f (drawings db))).
Proof.
  intros Hid Hf. unfold text_kept. cbn.
  induction (drawings db) as [|d l IH]; simpl; constructor; [|exact IH].
  destruct (Z.eqb_spec (d_id d) id) as [E|E]; [|now split].
  split; [apply Hid|]. intros Hn. destruct Hf as [Hin|Hf]; [|apply Hf].
  exfalso. apply Hn. now rewrite E.
Qed.

Section TextKept.

Variable env : Env.

Lemma text_kept_store_drawing (ids : list Z) (m : list (json * json)) (d : Drawing) :
  (has_entry m d = true -> In (d_id d) ids) ->
  steps (on_conn (text_kept ids)) (store_drawing env m d).
Proof.
  unfold has_entry, store_drawing, update_drawing_analysis, update_drawing_attempted.
  intros Hd. destruct (dict_get m (JStr (d_filename d))) as [item|];
    [destruct (truthy item)|]; walk_db; apply text_kept_update;
    try (intros x; reflexivity); auto.
Qed.

(** What the parser returns does not depend on the state it runs in. *)
Lemma parse_json_list_value (text : string) (s s0 : State) :
  fst (_parse_json_list env text s) = fst (_parse_json_list env text s0).
Proof.
  unfold _parse_json_list, bind, loads_or_pass, ret, raise, print.
  destruct (json_loads env (_strip_markdown_fences text)) as [v|e];
    [destruct (is_list v) | destruct (is_JSONDecodeError e)]; try reflexivity;
    (destruct (re_search_delimited "[" "]" (_strip_markdown_fences text)) as [sub|];
     try reflexivity;
     destruct (json_loads env sub) as [w|e2]; try reflexivity;
     destruct (is_JSONDecodeError e2); reflexivity).
Qed.

#[export] Instance eq_db_order : DbOrder (@eq DB).
Proof. split; congruence. Qed.

(** Phase 1 writes analysis text only for the drawings of the group that
    the response has an entry for. *)
Lemma phase1_batch_text (analysis_id : Z) (drawings : list Drawing) (size : Z)
    (prompt : string) (start : nat) (s s1 s' : State) (images : list image_tuple)
    (raw : string) :
  load_images env (list_slice drawings start size) [] s = (Ok images, s1) ->
  images <> [] ->
  analyze_batch env (calls s1) images prompt
    (Z.of_nat (List.length images) * max_tokens_per_image (cfg env) + 500) = Ok raw ->
  phase1_batch env analysis_id drawings size prompt start s = (Ok tt, s') ->
  exists analyses items m,
    (forall s0, fst (_parse_json_list env raw s0) = Ok analyses)
    /\ json_iter analyses = Ok items
    /\ filename_map items [] = Ok m
    /\ text_kept (map d_id (filter (has_entry m) (list_slice drawings start size)))
         (conn s) (conn s').
Proof.
  intros Hl Hne Hc H. unfold phase1_batch in H.
  apply bind_ok in H as (images' & s1' & Hl' & H).
  rewrite Hl in Hl'. injection Hl' as <- <-.
  destruct (load_images_spec env (list_slice drawings start size) [] s)
    as (images' & s1' & E & (Hconn & _) & _).
  rewrite Hl in E. injection E as <- <-.
  destruct images as [|t ts]; [contradiction|].
  apply bind_ok in H as (r & s2 & Hr & H).
  unfold attempt, vision_analyze_batch in Hr. rewrite Hc in Hr.
  injection Hr as <- <-.
  apply bind_ok in H as (analyses & s3 & Hp & H).
  apply bind_ok in H as (items & s4 & Hi & H).
  unfold lift in Hi. injection Hi as Hi <-.
  apply bind_ok in H as (m & s5 & Hm & H).
  unfold lift in Hm. injection Hm as Hm <-.
  exists analyses, items, m.
  pose proof (steps_parse_json_list (R := on_conn eq) env raw) as Hq.
  refine (conj _ (conj Hi (conj Hm _))).
  - intros s0.
    match type of Hp with
    | _parse_json_list _ _ ?sx = _ => rewrite (parse_json_list_value raw s0 sx)
    end.
    now rewrite Hp.
  - match type of Hp with
    | _parse_json_list _ _ ?sx = _ => specialize (Hq sx)
    end.
    rewrite Hp in Hq. unfold on_conn in Hq. cbn in Hq.
    rewrite <- Hconn, Hq.
    match type of H with
    | ?k s3 = _ =>
        assert (steps (on_conn (text_kept
                  (map d_id (filter (has_entry m)
                                    (list_slice drawings start size))))) k) as Hk
    end.
    { step_db; [|walk_db; now apply text_kept_same].
      apply steps_for_each_In. intros d Hd. apply text_kept_store_drawing.
      intros He. apply in_map. apply filter_In. now split. }
    specialize (Hk s3). rewrite H in Hk. exact Hk.
Qed.

End TextKept.

(** C9, as amended. In phase 1, when at least one image of a group loads,
    the group's inference call succeeds and storing the response raises no
    error, every drawing of the group has [analyzed_at] set afterwards,
    those whose file could not be read included; none of them is selected by
    a later phase 1; and only the drawings the response has an entry for
    get their analysis text written, so that a drawing without an entry is
    marked analyzed with the text it had. *)
Theorem group_marked_analyzed (env : Env) (analysis_id : Z)
    (selected : list Drawing) (size : Z) (prompt : string) (start : nat)
    (s s1 : State) (images : list image_tuple) (raw : string) :
  load_images env (list_slice selected start size) [] s = (Ok images, s1) ->
  images <> [] ->
  analyze_batch env (calls s1) images prompt
    (Z.of_nat (List.length images) * max_tokens_per_image (cfg env) + 500) = Ok raw ->
  fst (phase1_batch env analysis_id selected size prompt start s) = Ok tt ->
  let batch := list_slice selected start size in
  let s' := snd (phase1_batch env analysis_id selected size prompt start s) in
  map d_id (drawings (conn s')) = map d_id (drawings (conn s))
  /\ marked (map d_id batch) (conn s')
  /\ (forall user_id r, In r (select_unanalyzed user_id (conn s')) ->
                        ~ In (d_id r) (map d_id batch))
  /\ exists analyses items m,
       (forall s0, fst (_parse_json_list env raw s0) = Ok analyses)
       /\ json_iter analyses = Ok items
       /\ filename_map items [] = Ok m
       /\ text_kept (map d_id (filter (has_entry m) batch)) (conn s) (conn s').
Proof.
  intros Hl Hne Hc Hok batch s'.
  assert (phase1_batch env analysis_id selected size prompt start s = (Ok tt, s'))
    as H by (subst s'; rewrite <- Hok; apply surjective_pairing).
  pose proof (phase1_batch_marks env analysis_id selected size prompt start
                s s1 s' images raw Hl Hne Hc H) as Hm.
  refine (conj _ (conj Hm (conj _ _))).
  - apply keeps_marks_ids.
    apply (keeps_phase1_batch env analysis_id selected size prompt start s).
  - intros user_id r Hr Hin.
    apply select_unanalyzed_In in Hr as (Hr & _ & Hn).
    now apply (Hm r Hr Hin).
  - apply (phase1_batch_text env analysis_id selected size prompt start
             s s1 s' images raw Hl Hne Hc H).
Qed.

(** The claim as first stated fails when storing the response raises: a.jpg
    loads, the call returns the array [[1]], whose element has no [get], the
    run ends [failed] and neither drawing of the group is marked. *)
Lemma group_left_unmarked :
  let s := fresh_state db_two_new in
  let group := list_slice (select_unanalyzed 1 (conn s)) 0 8 in
  let s' := snd (run_full_pipeline odd_world 1 1 s) in
  map d_filename group = ["a.jpg"; "b.jpg"]
  /\ fst (load_images odd_world group [] s) = Ok [([], "image/jpeg", "a.jpg")]
  /\ analyze_batch odd_world [] [([], "image/jpeg", "a.jpg")]
       "analyze these drawings" 1100 = Ok "[1]"
  /\ map d_analyzed_at (drawings (conn s')) = [None; None]
  /\ run_status_of 1 (conn s') = Some Failed.
Proof. vm_compute. repeat split. Qed.

Lemma group_marked_analyzed_witness :
  let s := fresh_state db_two_new in
  let s' := snd (phase1_batch partial_world 1 (select_unanalyzed 1 (conn s)) 8
                   "analyze these drawings" 0 s) in
  marked [1; 2] (conn s')
  /\ map d_analysis_text (drawings (conn s')) = [Some EmptyString; None].
Proof.
  intros s s'.
  destruct (group_marked_analyzed partial_world 1 (select_unanalyzed 1 (conn s)) 8
              "analyze these drawings" 0%nat s
              (snd (load_images partial_world
                      (list_slice (select_unanalyzed 1 (conn s)) 0 8) [] s))
              [([], "image/jpeg", "a.jpg")] doc_a)
    as (_ & Hm & _).
  - reflexivity.
  - discriminate.
  - reflexivity.
  - reflexivity.
  - split; [exact Hm | reflexivity].
Defined.

(* ------------------------------------------------------------------ *)
(** ** Triggering a run *)

Lemma state_eta (s : State) :
  mk_state (conn s) (committed s) (log s) (calls s) (clock s) = s.
Proof. now destruct s. Qed.

(** While a run of the owner is 'running', the trigger answers 409 and
    creates nothing. *)
Lemma trigger_rejected_while_running (env : Env) (user_id : Z) (s : State)
    (r : Analysis) :
  find (fun a => (a_user_id a =? user_id) && is_running a)
       (archive_analyses (conn s)) = Some r ->
  trigger_analysis env user_id s
  = (Raise (mk_exn (HTTPException 409)
              ("Analysis already running (id=" ++ str_of_Z (a_id r) ++ ")")), s).
Proof.
  intros H. unfold trigger_analysis, bind at 1, get_db, bind at 1, query at 1.
  rewrite H. unfold raise. now rewrite state_eta.
Qed.

(** Otherwise it inserts a 'pending' run and commits. *)
Lemma trigger_creates_pending_run (env : Env) (user_id : Z) (s : State) :
  find (fun a => (a_user_id a =? user_id) && is_running a)
       (archive_analyses (conn s)) = None ->
  existsb (Z.eqb user_id) (users (conn s)) = true ->
  let id := next_analysis_id (conn s) in
  let db' := with_analyses (take_analysis_id (conn s))
               (archive_analyses (conn s) ++
                [mk_analysis id user_id Pending None 0 0 None
                   (Some (model_name (cfg env))) (clock s) None]) in
  trigger_analysis env user_id s
  = (Ok (mk_trigger_response id "started"),
     mk_state db' (db' :: committed s) (log s) (calls s) (clock s)).
Proof.
  intros H Hu. unfold trigger_analysis, bind at 1, get_db, bind at 1, query at 1.
  rewrite H. unfold insert_analysis, bind, query, now, exec, ret. rewrite Hu.
  reflexivity.
Qed.

(** Whenever no run of the owner is 'running', two triggers in a row both
    succeed: the run the first one creates is 'pending'. *)
Lemma double_trigger_both_succeed (env : Env) (user_id : Z) (s : State) :
  find (fun a => (a_user_id a =? user_id) && is_running a)
       (archive_analyses (conn s)) = None ->
  existsb (Z.eqb user_id) (users (conn s)) = true ->
  exists id1 id2,
    fst (trigger_analysis env user_id s) = Ok (mk_trigger_response id1 "started")
    /\ fst (trigger_analysis env user_id (snd (trigger_analysis env user_id s)))
       = Ok (mk_trigger_response id2 "started").
Proof.
  intros Hr Hu. pose proof (trigger_creates_pending_run env user_id s Hr Hu) as H1.
  cbv zeta in H1. rewrite H1. cbn [fst snd].
  eexists. eexists. split; [reflexivity|].
  rewrite trigger_creates_pending_run; [reflexivity | |exact Hu].
  cbn. rewrite (find_app_none _ _ _ _ Hr). cbn.
  now rewrite andb_false_r.
Qed.

(** C1. Two triggers in a row for user 1, the second one handled before the
    background task of the first has marked its run 'running': both
    succeed, none is answered 409, and once the two background tasks have
    executed their first statements the owner has two runs in 'running'
    status, both committed. *)
Theorem double_trigger_two_running :
  let s0 := fresh_state db_no_runs in
  let first := trigger_analysis quiet_world 1 s0 in
  let second := trigger_analysis quiet_world 1 (snd first) in
  let s3 := snd (pipeline_start 1 1 (snd second)) in
  let s4 := snd (pipeline_start 1 2 s3) in
  fst first = Ok (mk_trigger_response 1 "started")
  /\ fst second = Ok (mk_trigger_response 2 "started")
  /\ map a_id (running_runs 1 (conn s4)) = [1; 2]
  /\ hd_error (committed s4) = Some (conn s4).
Proof. vm_compute. repeat split. Qed.

(* ------------------------------------------------------------------ *)
(** ** The committed values of [analyzed_count] *)

Lemma run_counts_same (analysis_id : Z) (db db' : DB) :
  archive_analyses db' = archive_analyses db ->
  run_counts analysis_id db' = run_counts analysis_id db.
Proof. intros H. unfold run_counts, run_row. now rewrite H. Qed.

Lemma run_counts_update (analysis_id id : Z) (f : Analysis -> Analysis) (db : DB) :
  (forall x, a_id (f x) = a_id x /\ a_analyzed_count (f x) = a_analyzed_count x
             /\ a_total_drawings (f x) = a_total_drawings x) ->
  run_counts analysis_id
    (with_analyses db (update_where a_id id f (archive_analyses db)))
  = run_counts analysis_id db.
Proof.
  intros Hf. unfold run_counts, run_row. cbn.
  induction (archive_analyses db) as [|x l IH]; simpl; [reflexivity|].
  destruct (Hf x) as (Hi & Hc & Ht).
  destruct (a_id x =? id); [rewrite Hi|];
    (destruct (a_id x =? analysis_id); [simpl; congruence | exact IH]).
Qed.

Lemma run_counts_set (analysis_id : Z) (f : Analysis -> Analysis) (db : DB)
    (c t c' t' : Z) :
  (forall x, a_id (f x) = a_id x) ->
  (forall x, a_analyzed_count x = c -> a_total_drawings x = t ->
             a_analyzed_count (f x) = c' /\ a_total_drawings (f x) = t') ->
  run_counts analysis_id db = Some (c, t) ->
  run_counts analysis_id
    (with_analyses db (update_where a_id analysis_id f (archive_analyses db)))
  = Some (c', t').
Proof.
  intros Hid Hf. unfold run_counts. intros H.
  destruct (run_row analysis_id db) as [a|] eqn:E; [|discriminate].
  rewrite (run_row_update analysis_id f db a Hid E). simpl in *.
  injection H as Hc Ht. destruct (Hf a Hc Ht) as [-> ->]. reflexivity.
Qed.

Lemma descending_raise (c v : Z) (l : list Z) :
  descending (c :: l) -> c <= v -> descending (v :: l).
Proof. destruct l as [|y l]; simpl; [trivial|]. intros [H1 H2] H. split; [lia|assumption]. Qed.

Section History.

Variable env : Env.
Variable analysis_id : Z.
Variable s0 : State.

#[export] Instance frame_order : StepOrder (frame analysis_id s0).
Proof. split; unfold frame; auto. Qed.

#[export] Instance frame_deaf : Deaf (frame analysis_id s0).
Proof.
  split. unfold frame, history. intros s s' Hc Hm c t. now rewrite Hc, Hm.
Qed.

#[export] Instance frame_quiet : Quiet (frame analysis_id s0).
Proof. split. intros s s' Hc Hm _. now apply deaf. Qed.

Lemma frame_exec (f : DB -> DB) :
  (forall db, run_counts analysis_id (f db) = run_counts analysis_id db) ->
  steps (frame analysis_id s0) (exec f).
Proof.
  intros Hf s c t (Hr & Hct & H). split; [|split; assumption].
  cbn. now rewrite Hf.
Qed.

Lemma frame_commit : steps (frame analysis_id s0) commit.
Proof.
  intros s c t (Hr & Hct & new & counts & Hm & Hn & Hd & Hf).
  split; [exact Hr|]. split; [exact Hct|].
  exists (conn s :: new), ((c, t) :: counts). cbn. rewrite Hm, Hr, Hn.
  repeat split; auto. lia.
Qed.

End History.

Ltac step_frame :=
  match goal with
  | |- steps _ (exec _) => apply frame_exec; intros db
  | |- steps _ commit => apply frame_commit
  | |- steps _ (update_analysis _ _) => unfold update_analysis
  | |- steps _ (_parse_json_list _ _) => apply steps_parse_json_list
  | |- steps _ (_parse_json_dict _ _) => apply steps_parse_json_dict
  | |- steps _ (load_images _ _ _) => apply steps_load_images
  | _ => step
  end.

Ltac walk_frame := repeat step_frame.

Section HistoryWalk.

Variable env : Env.
Variable analysis_id : Z.
Variable s0 : State.

Lemma frame_store_drawing (m : list (json * json)) (d : Drawing) :
  steps (frame analysis_id s0) (store_drawing env m d).
Proof.
  unfold store_drawing, update_drawing_analysis, update_drawing_attempted.
  walk_frame; now apply run_counts_same.
Qed.

Lemma frame_store_lens (user_id run_id : Z) (m : list (json * Z)) (entry : nat * json) :
  steps (frame analysis_id s0) (store_lens env user_id run_id m entry).
Proof.
  unfold store_lens, insert_or_ignore_lens, select_lens_id.
  walk_frame; try now apply run_counts_same.
  apply steps_for_each. intros e.
  unfold store_relevance, insert_or_ignore_link. walk_frame.
  destruct (link_conflict _ _ db); [reflexivity | now apply run_counts_same].
Qed.

Lemma frame_phase2 (user_id run_id : Z) :
  steps (frame analysis_id s0) (_phase2_lens_discovery env user_id run_id).
Proof.
  unfold _phase2_lens_discovery. walk_frame.
  apply steps_for_each. intros e. apply frame_store_lens.
Qed.

Lemma frame_update_status (f : Analysis -> Analysis) :
  (forall x, a_id (f x) = a_id x /\ a_analyzed_count (f x) = a_analyzed_count x
             /\ a_total_drawings (f x) = a_total_drawings x) ->
  steps (frame analysis_id s0) (update_analysis analysis_id f).
Proof. intros Hf. walk_frame. now apply run_counts_update. Qed.

End HistoryWalk.

Section HistoryHoare.

Variable env : Env.
Variable analysis_id : Z.
Variable s0 : State.

Lemma hoare_frame_bind (A B : Type) (m : M A) (f : A -> M B) (c t : Z)
    (Q : State -> Prop) :
  steps (frame analysis_id s0) m ->
  (forall s, history analysis_id s0 c t s -> Q s) ->
  (forall a, hoare (history analysis_id s0 c t) (f a) Q) ->
  hoare (history analysis_id s0 c t) (bind m f) Q.
Proof.
  intros Hm Hw Hf s Hs. unfold bind. specialize (Hm s c t Hs).
  destruct (m s) as [[a|e] s1]; simpl in Hm; [now apply Hf | now apply Hw].
Qed.

Lemma hoare_frame (A : Type) (m : M A) (c t : Z) :
  steps (frame analysis_id s0) m ->
  hoare (history analysis_id s0 c t) m (history analysis_id s0 c t).
Proof. intros Hm s Hs. now apply Hm. Qed.

(** Raising the count within its total keeps the history in order. *)
Lemma history_set_count (c t v : Z) (s : State) :
  history analysis_id s0 c t s -> c <= v -> v <= t ->
  history analysis_id s0 v t
    (snd (update_analysis analysis_id (set_analyzed_count v) s)).
Proof.
  intros (Hr & Hct & new & counts & Hm & Hn & Hd & Hf) Hcv Hvt.
  split; [|split; [exact Hvt|]].
  - cbn. apply (run_counts_set analysis_id (set_analyzed_count v) (conn s) c t);
      [reflexivity | intros x _ Ht; now split | exact Hr].
  - exists new, counts. cbn. repeat split; auto.
    now apply descending_raise with (c := c).
Qed.

Lemma phase1_batch_history (selected : list Drawing) (size : Z) (prompt : string)
    (start : nat) (t : Z) (s : State) :
  0 < size -> Z.of_nat (List.length selected) <= t ->
  (exists c, history analysis_id s0 c t s /\ c <= Z.of_nat start
             /\ c <= Z.of_nat (List.length selected)) ->
  exists c, history analysis_id s0 c t
              (snd (phase1_batch env analysis_id selected size prompt start s))
            /\ c <= Z.of_nat (start + Z.to_nat size)
            /\ c <= Z.of_nat (List.length selected).
Proof.
  intros Hsize Hn (c & Hs & Hcb & Hcn).
  set (Q := fun s' => exists c', history analysis_id s0 c' t s'
                                 /\ c' <= Z.of_nat (start + Z.to_nat size)
                                 /\ c' <= Z.of_nat (List.length selected)).
  assert (forall s', history analysis_id s0 c t s' -> Q s') as Hw.
  { intros s' H. exists c. split; [exact H | split; lia]. }
  enough (hoare (history analysis_id s0 c t)
            (phase1_batch env analysis_id selected size prompt start) Q) as H
    by exact (H s Hs).
  unfold phase1_batch.
  apply hoare_frame_bind; [walk_frame | exact Hw |]. intros images.
  destruct images as [|i images]; [intros s' H; now apply Hw|].
  apply hoare_frame_bind; [walk_frame | exact Hw |]. intros r.
  destruct r as [raw|e];
    [|intros s' H; apply Hw; now apply (steps_print (R := frame analysis_id s0))].
  apply hoare_frame_bind; [walk_frame | exact Hw |]. intros analyses.
  apply hoare_frame_bind; [walk_frame | exact Hw |]. intros items.
  apply hoare_frame_bind; [walk_frame | exact Hw |]. intros m.
  apply hoare_frame_bind;
    [apply steps_for_each; intros d; apply frame_store_drawing | exact Hw |].
  intros _ s' H. unfold bind at 1.
  set (v := Z.min (Z.of_nat start + size) (Z.of_nat (List.length selected))).
  pose proof (history_set_count c t v s' H) as Hv.
  destruct (update_analysis analysis_id (set_analyzed_count v) s')
    as [[[]|e] s1] eqn:E; [|discriminate].
  simpl in Hv.
  match goal with
  | |- Q (snd (?k s1)) =>
      assert (steps (frame analysis_id s0) k) as Hk by walk_frame
  end.
  exists v. split; [apply Hk; apply Hv; subst v; lia|].
  subst v. lia.
Qed.

(** A loop over [range_up] with an invariant that follows the index. *)
Lemma for_each_range_inv (P : nat -> State -> Prop) (body : nat -> M unit)
    (step stop fuel start : nat) (s : State) :
  (forall b s, P b s -> P (b + step)%nat (snd (body b s))) ->
  P start s ->
  exists b, P b (snd (for_each body (range_up fuel start stop step) s)).
Proof.
  intros Hb. revert start s. induction fuel as [|f IH]; intros start s Hs; simpl.
  - now exists start.
  - destruct (start <? stop)%nat; [|now exists start].
    simpl. unfold bind. specialize (Hb start s Hs).
    destruct (body start s) as [[[]|e] s1]; simpl in Hb.
    + now apply IH with (start := (start + step)%nat).
    + now exists (start + step)%nat.
Qed.

Lemma selected_le_count (user_id : Z) (db : DB) :
  Z.of_nat (List.length (select_unanalyzed user_id db)) <= count_drawings user_id db.
Proof.
  unfold select_unanalyzed, count_drawings.
  rewrite (Permutation_length (order_by_perm _)). apply inj_le.
  induction (drawings db) as [|d l IH]; simpl; [lia|].
  destruct (d_user_id d =? user_id); simpl; [|exact IH].
  destruct (is_null (d_analyzed_at d)); simpl; lia.
Qed.

Lemma phase1_history (user_id : Z) (t : Z) (s : State) :
  history analysis_id s0 0 t s ->
  Z.of_nat (List.length (select_unanalyzed user_id (conn s))) <= t ->
  exists c, history analysis_id s0 c t
              (snd (_phase1_batch_analysis env user_id analysis_id s)).
Proof.
  intros Hs Hn. unfold _phase1_batch_analysis, bind at 1, query at 1.
  destruct (select_unanalyzed user_id (conn s)) as [|d0 rest] eqn:E;
    [now exists 0|].
  unfold bind, lift, py_range0.
  destruct (Z.eqb_spec (batch_size (cfg env)) 0) as [E0|E0]; [now exists 0|].
  destruct (Z.ltb_spec (batch_size (cfg env)) 0) as [En|En]; [now exists 0|].
  destruct (for_each_range_inv
              (fun b s' => exists c, history analysis_id s0 c t s'
                                     /\ c <= Z.of_nat b
                                     /\ c <= Z.of_nat (List.length (d0 :: rest)))
              (phase1_batch env analysis_id (d0 :: rest) (batch_size (cfg env))
                 (prompt_drawing_batch_analysis env))
              (Z.to_nat (batch_size (cfg env))) (List.length (d0 :: rest))
              (List.length (d0 :: rest)) 0%nat s) as (b & c & Hc & _).
  - intros b s' H. apply phase1_batch_history; auto. lia.
  - exists 0. split; [exact Hs | split; lia].
  - now exists c.
Qed.

Lemma pipeline_start_history (user_id : Z) (t : Z) (s : State) :
  history analysis_id s0 0 t s ->
  pipeline_start user_id analysis_id s
  = (Ok tt, snd (pipeline_start user_id analysis_id s))
  /\ history analysis_id s0 0 (count_drawings user_id (conn s))
       (snd (pipeline_start user_id analysis_id s))
  /\ drawings (conn (snd (pipeline_start user_id analysis_id s))) = drawings (conn s).
Proof.
  intros (Hr & Hct & new & counts & Hm & Hn & Hd & Hf).
  split; [reflexivity|]. split; [|reflexivity].
  apply (frame_commit analysis_id s0).
  split; [|split].
  - cbn. apply (run_counts_set analysis_id
                  (set_run_started (count_drawings user_id (conn s))) (conn s) 0 t);
      [reflexivity | intros x Hc _; now split | exact Hr].
  - unfold count_drawings. lia.
  - exists new, counts. cbn. repeat split; auto.
Qed.

Lemma pipeline_body_history (user_id : Z) (t : Z) (s : State) :
  history analysis_id s0 0 t s ->
  exists c t', history analysis_id s0 c t'
                 (snd (pipeline_body env user_id analysis_id s)).
Proof.
  intros Hs. unfold pipeline_body, bind at 1.
  destruct (pipeline_start_history user_id t s Hs) as (E & H1 & Hd).
  rewrite E. set (s1 := snd (pipeline_start user_id analysis_id s)) in *.
  assert (Z.of_nat (List.length (select_unanalyzed user_id (conn s1)))
          <= count_drawings user_id (conn s)) as Hn.
  { unfold select_unanalyzed. rewrite Hd. apply selected_le_count. }
  destruct (phase1_history user_id _ s1 H1 Hn) as (c & H2).
  exists c, (count_drawings user_id (conn s)).
  unfold bind at 1.
  destruct (_phase1_batch_analysis env user_id analysis_id s1) as [[[]|e] s2];
    simpl in H2; [|exact H2].
  match goal with
  | |- history _ _ _ _ (snd (?k s2)) =>
      assert (steps (frame analysis_id s0) k) as Hk
  end.
  { step_frame; [apply frame_update_status; intros x; repeat split|].
    step_frame; [walk_frame|].
    step_frame; [apply frame_phase2|].
    step_frame; [walk_frame|].
    step_frame; [apply frame_update_status; intros x; repeat split | walk_frame]. }
  now apply Hk.
Qed.

Lemma run_full_pipeline_history (user_id : Z) (t : Z) (s : State) :
  history analysis_id s0 0 t s ->
  exists c t', history analysis_id s0 c t'
                 (snd (run_full_pipeline env user_id analysis_id s)).
Proof.
  intros Hs. destruct (pipeline_body_history user_id t s Hs) as (c & t' & H).
  exists c, t'. unfold run_full_pipeline, try_except.
  destruct (pipeline_body env user_id analysis_id s) as [[[]|e] s1];
    simpl in H; [exact H|].
  match goal with
  | |- history _ _ _ _ (snd (?k s1)) =>
      assert (steps (frame analysis_id s0) k) as Hk
  end.
  { step_frame; [walk_frame|].
    step_frame; [apply frame_update_status; intros x; repeat split | walk_frame]. }
  now apply Hk.
Qed.

End HistoryHoare.

(** C4. Over a run that starts with [analyzed_count] at 0, as the trigger
    creates it, the values of [analyzed_count] the run commits never
    decrease, and each committed snapshot has [analyzed_count] at most
    [total_drawings]. *)
Theorem analyzed_count_monotone (env : Env) (user_id analysis_id : Z)
    (a : Analysis) (s : State) :
  run_row analysis_id (conn s) = Some a ->
  a_analyzed_count a = 0 ->
  0 <= a_total_drawings a ->
  let s' := snd (run_full_pipeline env user_id analysis_id s) in
  exists new counts,
    committed s' = (new ++ committed s)%list
    /\ map (run_counts analysis_id) new = map Some counts
    /\ descending (map fst counts ++ [0])
    /\ Forall (fun p => fst p <= snd p) counts.
Proof.
  intros Ha Hc Ht s'.
  assert (history analysis_id s 0 (a_total_drawings a) s) as H0.
  { split; [|split; [exact Ht|]].
    - unfold run_counts. rewrite Ha. simpl. now rewrite Hc.
    - exists [], []. simpl. repeat split; auto. lia. }
  destruct (run_full_pipeline_history env analysis_id s user_id _ s H0)
    as (c & t' & _ & _ & new & counts & Hm & Hn & Hd & Hf).
  exists new, counts. repeat split; auto.
  destruct (map fst counts ++ [0])%list; [exact I | apply Hd].
Qed.

Lemma analyzed_count_monotone_witness :
  let s' := snd (run_full_pipeline analysis_world 1 1 (fresh_state db_two_new)) in
  exists new counts,
    committed s' = (new ++ [db_two_new])%list
    /\ map (run_counts 1) new = map Some counts
    /\ descending (map fst counts ++ [0])
    /\ Forall (fun p => fst p <= snd p) counts.
Proof.
  apply (analyzed_count_monotone analysis_world 1 1 (pending_run 1)
           (fresh_state db_two_new)).
  - reflexivity.
  - reflexivity.
  - discriminate.
Defined.

(** What that run commits, the latest first: the count goes from 0 to 2. *)
Example committed_counts_of_a_run :
  map (run_counts 1)
      (committed (snd (run_full_pipeline analysis_world 1 1 (fresh_state db_two_new))))
  = [Some (2, 2); Some (2, 2); Some (2, 2); Some (0, 2); Some (0, 0)].
Proof. vm_compute. reflexivity. Qed.

(* ------------------------------------------------------------------ *)
(** * Further properties of the code

    ** The trigger ([routers/archive.py]) *)

Lemma next_id_above (seq : Z) (ids : list Z) (i : Z) :
  In i ids -> i < next_id seq ids.
Proof.
  unfold next_id. induction ids as [|x l IH]; cbn [fold_right In]; [contradiction|].
  intros [->|H]; [lia|]. specialize (IH H). lia.
Qed.

Lemma next_id_fresh (seq : Z) (ids : list Z) : ~ In (next_id seq ids) ids.
Proof. intros H. apply (next_id_above seq) in H. lia. Qed.

Lemma find_none_all (A : Type) (f : A -> bool) (l : list A) :
  find f l = None -> forall x, In x l -> f x = false.
Proof. intros H x Hx. exact (find_none f l H x Hx). Qed.

(** X1. While a run of the owner is in 'running' status the trigger is
    answered 409, the message names the first such run, and the state is
    what it was: no run row is created and nothing is committed. *)
Theorem trigger_conflict_changes_nothing (env : Env) (user_id : Z) (s : State)
    (r : Analysis) :
  In r (running_runs user_id (conn s)) ->
  exists first,
    hd_error (running_runs user_id (conn s)) = Some first
    /\ trigger_analysis env user_id s
       = (Raise (mk_exn (HTTPException 409)
                   ("Analysis already running (id=" ++ str_of_Z (a_id first) ++ ")")),
          s).
Proof.
  unfold running_runs. intros Hr.
  destruct (find (fun a => (a_user_id a =? user_id) && is_running a)
                 (archive_analyses (conn s))) as [first|] eqn:E.
  - exists first. split.
    + clear Hr. induction (archive_analyses (conn s)) as [|x l IH];
        simpl in *; [discriminate|].
      destruct ((a_user_id x =? user_id) && is_running x); [exact E | now apply IH].
    + now apply trigger_rejected_while_running.
  - apply filter_In in Hr as [Hin Ht].
    rewrite (find_none_all _ _ _ E r Hin) in Ht. discriminate.
Qed.

Lemma trigger_conflict_changes_nothing_witness :
  let s := snd (pipeline_start 1 1 (fresh_state db_half_analyzed)) in
  exists first,
    hd_error (running_runs 1 (conn s)) = Some first
    /\ trigger_analysis quiet_world 1 s
       = (Raise (mk_exn (HTTPException 409)
                   ("Analysis already running (id=" ++ str_of_Z (a_id first) ++ ")")),
          s).
Proof.
  intros s.
  apply (trigger_conflict_changes_nothing quiet_world 1 s
           (set_run_started 2 (pending_run 1))).
  vm_compute. left. reflexivity.
Defined.

(** X2. A trigger for a user id that is not in [users], while none of that
    id's runs is 'running', raises the integrity error of the foreign key
    and leaves the state as it was. *)
Theorem trigger_unknown_user_rolls_back (env : Env) (user_id : Z) (s : State) :
  running_runs user_id (conn s) = [] ->
  ~ In user_id (users (conn s)) ->
  trigger_analysis env user_id s
  = (Raise (mk_exn IntegrityError "FOREIGN KEY constraint failed"), s).
Proof.
  unfold running_runs. intros Hr Hu.
  assert (find (fun a => (a_user_id a =? user_id) && is_running a)
               (archive_analyses (conn s)) = None) as Hf.
  { induction (archive_analyses (conn s)) as [|x l IH]; simpl in *; [reflexivity|].
    destruct ((a_user_id x =? user_id) && is_running x); [discriminate | now apply IH]. }
  assert (existsb (Z.eqb user_id) (users (conn s)) = false) as He.
  { destruct (existsb (Z.eqb user_id) (users (conn s))) eqn:E; [|reflexivity].
    apply existsb_exists in E as (u & Hin & Hq). apply Z.eqb_eq in Hq. now subst. }
  unfold trigger_analysis, bind at 1, get_db, bind at 1, query at 1.
  rewrite Hf. unfold insert_analysis, bind, query, now, raise. rewrite He.
  cbn. now rewrite state_eta.
Qed.

Lemma trigger_unknown_user_rolls_back_witness :
  trigger_analysis quiet_world 7 (fresh_state db_no_runs)
  = (Raise (mk_exn IntegrityError "FOREIGN KEY constraint failed"),
     fresh_state db_no_runs).
Proof.
  apply (trigger_unknown_user_rolls_back quiet_world 7 (fresh_state db_no_runs)).
  - reflexivity.
  - simpl. intros [H|[]]. discriminate.
Defined.

Lemma running_none_find (user_id : Z) (db : DB) :
  running_runs user_id db = [] ->
  find (fun a => (a_user_id a =? user_id) && is_running a) (archive_analyses db) = None.
Proof.
  unfold running_runs.
  induction (archive_analyses db) as [|x l IH]; simpl; [reflexivity|].
  destruct ((a_user_id x =? user_id) && is_running x); [discriminate | exact IH].
Qed.

Lemma run_row_app_old (id : Z) (db : DB) (extra : list Analysis) :
  In id (map a_id (archive_analyses db)) ->
  run_row id (with_analyses db (archive_analyses db ++ extra)) = run_row id db.
Proof.
  unfold run_row. cbn. induction (archive_analyses db) as [|x l IH]; simpl;
    [contradiction|].
  intros [E|H].
  - now rewrite E, Z.eqb_refl.
  - destruct (a_id x =? id); [reflexivity | now apply IH].
Qed.

Lemma run_row_app_new (db : DB) (a : Analysis) :
  ~ In (a_id a) (map a_id (archive_analyses db)) ->
  run_row (a_id a) (with_analyses db (archive_analyses db ++ [a])) = Some a.
Proof.
  unfold run_row. cbn. induction (archive_analyses db) as [|x l IH]; simpl.
  - intros _. now rewrite Z.eqb_refl.
  - intros H. destruct (Z.eqb_spec (a_id x) (a_id a)) as [E|E]; [tauto|].
    apply IH. tauto.
Qed.

(** X3. Otherwise the trigger succeeds: it answers with an id that no run
    had, appends one 'pending' row of the owner under that id with counts
    0, no phase and no error, commits it, leaves every other run row and
    every other table (users, drawings, lenses, links) as they were, and
    keeps run ids distinct. *)
Theorem trigger_appends_fresh_pending_run (env : Env) (user_id : Z) (s : State) :
  running_runs user_id (conn s) = [] ->
  In user_id (users (conn s)) ->
  exists id a,
    let s' := snd (trigger_analysis env user_id s) in
    fst (trigger_analysis env user_id s) = Ok (mk_trigger_response id "started")
    /\ ~ In id (map a_id (archive_analyses (conn s)))
    /\ archive_analyses (conn s') = (archive_analyses (conn s) ++ [a])%list
    /\ a = mk_analysis id user_id Pending None 0 0 None
             (Some (model_name (cfg env))) (clock s) None
    /\ run_row id (conn s') = Some a
    /\ (forall other, In other (map a_id (archive_analyses (conn s))) ->
                      run_row other (conn s') = run_row other (conn s))
    /\ (run_ids_unique (conn s) -> run_ids_unique (conn s'))
    /\ users (conn s') = users (conn s)
    /\ drawings (conn s') = drawings (conn s)
    /\ lenses (conn s') = lenses (conn s)
    /\ lens_drawing_links (conn s') = lens_drawing_links (conn s)
    /\ hd_error (committed s') = Some (conn s').
Proof.
  intros Hr Hu. apply running_none_find in Hr.
  assert (existsb (Z.eqb user_id) (users (conn s)) = true) as He.
  { apply existsb_exists. exists user_id. split; [exact Hu | apply Z.eqb_refl]. }
  pose proof (trigger_creates_pending_run env user_id s Hr He) as H.
  cbv zeta in H.
  pose proof (next_id_fresh (seq_archive_analyses (sqlite_sequence (conn s)))
                (map a_id (archive_analyses (conn s)))) as Hfresh.
  eexists. eexists. cbv zeta. rewrite H. cbn [fst snd conn committed].
  split; [reflexivity|]. split; [exact Hfresh|]. split; [reflexivity|].
  split; [reflexivity|]. split; [|split; [|split]].
  - now apply (run_row_app_new (take_analysis_id (conn s))
                 (mk_analysis _ user_id Pending None 0 0 None _ _ None)).
  - intros other Ho.
    exact (run_row_app_old other (take_analysis_id (conn s)) _ Ho).
  - unfold run_ids_unique. cbn. intros Hn. rewrite map_app. cbn.
    now apply NoDup_snoc.
  - cbn. repeat split.
Qed.

Lemma trigger_appends_fresh_pending_run_witness :
  exists id a,
    let s' := snd (trigger_analysis quiet_world 1 (fresh_state db_half_analyzed)) in
    fst (trigger_analysis quiet_world 1 (fresh_state db_half_analyzed))
    = Ok (mk_trigger_response id "started")
    /\ id = 2
    /\ archive_analyses (conn s') = [pending_run 1; a]
    /\ run_ids_unique (conn s').
Proof.
  destruct (trigger_appends_fresh_pending_run quiet_world 1
              (fresh_state db_half_analyzed))
    as (id & a & H1 & _ & H3 & _ & _ & _ & H7 & _).
  - reflexivity.
  - simpl. now left.
  - exists id, a. cbv zeta in *. split; [exact H1|]. split.
    + rewrite (trigger_creates_pending_run quiet_world 1 (fresh_state db_half_analyzed))
        in H1 by reflexivity.
      cbn in H1. now injection H1 as <-.
    + split; [exact H3|]. apply H7. repeat constructor. simpl. tauto.
Defined.

(* ------------------------------------------------------------------ *)
(** ** The run table across a run *)

Lemma Forall2_diag (A : Type) (R : A -> A -> Prop) (l : list A) :
  (forall x, R x x) -> Forall2 R l l.
Proof. intros H. induction l; constructor; auto. Qed.

Lemma Forall2_chain (A : Type) (R : A -> A -> Prop) (l1 l2 l3 : list A) :
  (forall x y z, R x y -> R y z -> R x z) ->
  Forall2 R l1 l2 -> Forall2 R l2 l3 -> Forall2 R l1 l3.
Proof.
  intros Ht H12. revert l3.
  induction H12 as [|x y l1 l2 Hxy _ IH]; intros l3 H23;
    inversion H23; subst; constructor; eauto.
Qed.

#[export] Instance touches_run_order (analysis_id : Z) :
  DbOrder (touches_run analysis_id).
Proof.
  split; unfold touches_run.
  - intros db. split; [reflexivity|]. apply Forall2_diag. intros x. tauto.
  - intros a b c [Hu1 H1] [Hu2 H2]. split; [congruence|].
    eapply Forall2_chain; [|exact H1|exact H2].
    intros x y z (I1 & U1 & M1 & S1 & E1 & K1) (I2 & U2 & M2 & S2 & E2 & K2).
    repeat split; try congruence.
    intros Hn. assert (y = x) as -> by auto. auto.
Qed.

Lemma touches_same (analysis_id : Z) (db db' : DB) :
  users db' = users db -> archive_analyses db' = archive_analyses db ->
  touches_run analysis_id db db'.
Proof.
  intros Hu Ha. pose proof (db_refl (Rdb := touches_run analysis_id) db) as Hr.
  unfold touches_run in *. now rewrite Hu, Ha.
Qed.

Lemma touches_update (analysis_id : Z) (f : Analysis -> Analysis) (db : DB) :
  (forall a, a_id (f a) = a_id a /\ a_user_id (f a) = a_user_id a
             /\ a_model_used (f a) = a_model_used a
             /\ a_started_at (f a) = a_started_at a
             /\ a_error_message (f a) = a_error_message a) ->
  touches_run analysis_id db
    (with_analyses db (update_where a_id analysis_id f (archive_analyses db))).
Proof.
  intros Hf. split; [reflexivity|]. cbn.
  induction (archive_analyses db) as [|x l IH]; simpl; constructor; [|exact IH].
  destruct (Z.eqb_spec (a_id x) analysis_id) as [E|E].
  - destruct (Hf x) as (H1 & H2 & H3 & H4 & H5). repeat split; auto. tauto.
  - tauto.
Qed.

Ltac close_touch :=
  first [ now apply touches_same
        | apply touches_update; intros; cbn; tauto ].

Section TouchesRun.

Variable env : Env.
Variable analysis_id : Z.

Lemma touches_store_drawing (m : list (json * json)) (d : Drawing) :
  steps (on_conn (touches_run analysis_id)) (store_drawing env m d).
Proof.
  unfold store_drawing, update_drawing_analysis, update_drawing_attempted.
  walk_db; close_touch.
Qed.

Lemma touches_phase1_batch (selected : list Drawing) (size : Z) (prompt : string)
    (start : nat) :
  steps (on_conn (touches_run analysis_id))
        (phase1_batch env analysis_id selected size prompt start).
Proof.
  unfold phase1_batch. walk_db; try close_touch.
  apply steps_for_each. intros d. apply touches_store_drawing.
Qed.

Lemma touches_phase1 (user_id : Z) :
  steps (on_conn (touches_run analysis_id))
        (_phase1_batch_analysis env user_id analysis_id).
Proof.
  unfold _phase1_batch_analysis. walk_db.
  apply steps_for_each. intros b. apply touches_phase1_batch.
Qed.

Lemma touches_store_relevance (m : list (json * Z)) (lens_id : Z)
    (entry : string * json) :
  steps (on_conn (touches_run analysis_id)) (store_relevance env m lens_id entry).
Proof.
  unfold store_relevance, insert_or_ignore_link. walk_db.
  destruct (link_conflict _ _ _); close_touch.
Qed.

Lemma touches_store_lens (user_id run_id : Z) (m : list (json * Z))
    (entry : nat * json) :
  steps (on_conn (touches_run analysis_id)) (store_lens env user_id run_id m entry).
Proof.
  unfold store_lens, insert_or_ignore_lens, select_lens_id.
  walk_db; try close_touch.
  apply steps_for_each. intros e. apply touches_store_relevance.
Qed.

Lemma touches_phase2 (user_id run_id : Z) :
  steps (on_conn (touches_run analysis_id))
        (_phase2_lens_discovery env user_id run_id).
Proof.
  unfold _phase2_lens_discovery. walk_db.
  apply steps_for_each. intros e. apply touches_store_lens.
Qed.

Lemma touches_pipeline_start (user_id : Z) :
  steps (on_conn (touches_run analysis_id)) (pipeline_start user_id analysis_id).
Proof. unfold pipeline_start. walk_db. close_touch. Qed.

Lemma touches_pipeline_body (user_id : Z) :
  steps (on_conn (touches_run analysis_id)) (pipeline_body env user_id analysis_id).
Proof.
  unfold pipeline_body.
  step_db; [apply touches_pipeline_start|].
  step_db; [apply touches_phase1|].
  step_db; [walk_db; close_touch|].
  step_db; [walk_db|].
  step_db; [apply touches_phase2|].
  walk_db. close_touch.
Qed.

End TouchesRun.

Lemma touches_run_row (analysis_id : Z) (db db' : DB) (a : Analysis) :
  touches_run analysis_id db db' ->
  run_row analysis_id db = Some a ->
  exists a', run_row analysis_id db' = Some a'
             /\ a_user_id a' = a_user_id a
             /\ a_model_used a' = a_model_used a
             /\ a_started_at a' = a_started_at a
             /\ a_error_message a' = a_error_message a.
Proof.
  unfold touches_run, run_row. intros [_ H].
  induction H as [|x y l l' (I & U & M & S & E & _) _ IH]; simpl; [discriminate|].
  rewrite I. destruct (a_id x =? analysis_id).
  - intros Hx. injection Hx as <-. exists y. auto.
  - exact IH.
Qed.

Lemma touches_run_other (analysis_id other : Z) (db db' : DB) :
  touches_run analysis_id db db' -> other <> analysis_id ->
  run_row other db' = run_row other db.
Proof.
  unfold touches_run, run_row. intros [_ H] Hn.
  induction H as [|x y l l' (I & _ & _ & _ & _ & K) _ IH]; simpl; [reflexivity|].
  rewrite I. destruct (Z.eqb_spec (a_id x) other) as [E|E].
  - rewrite K; [reflexivity | congruence].
  - exact IH.
Qed.

Lemma run_row_update_other (analysis_id other : Z) (f : Analysis -> Analysis)
    (db : DB) :
  (forall x, a_id (f x) = a_id x) -> other <> analysis_id ->
  run_row other
    (with_analyses db (update_where a_id analysis_id f (archive_analyses db)))
  = run_row other db.
Proof.
  intros Hf Hn. unfold run_row. cbn.
  induction (archive_analyses db) as [|x l IH]; simpl; [reflexivity|].
  destruct (Z.eqb_spec (a_id x) analysis_id) as [E|E].
  - rewrite Hf. destruct (Z.eqb_spec (a_id x) other) as [E'|E']; [congruence|].
    exact IH.
  - destruct (a_id x =? other); [reflexivity | exact IH].
Qed.

Lemma py_len_first_chars (n : nat) (s : string) :
  (py_len (first_chars n s) <= n)%nat.
Proof.
  revert n. induction s as [|c r IH]; intros n; cbn [first_chars]; [cbn; lia|].
  destruct (is_continuation_byte c) eqn:E.
  - cbn [py_len]. rewrite E. apply IH.
  - destruct n as [|n]; [cbn; lia|]. cbn [py_len]. rewrite E.
    specialize (IH n). lia.
Qed.

(** What the [try] block leaves when it returns: the state before its last
    two statements, which mark the run complete and commit. *)
Lemma pipeline_body_returned (env : Env) (user_id analysis_id : Z) (s s' : State) :
  pipeline_body env user_id analysis_id s = (Ok tt, s') ->
  exists s5,
    touches_run analysis_id (conn s) (conn s5)
    /\ s' = snd (commit (snd (update_analysis analysis_id
                                (set_run_complete (clock s5)) s5))).
Proof.
  unfold pipeline_body. intros H.
  apply bind_ok in H as (u1 & s1 & H1 & H).
  apply bind_ok in H as (u2 & s2 & H2 & H).
  apply bind_ok in H as (u3 & s3 & H3 & H).
  apply bind_ok in H as (u4 & s4 & H4 & H).
  apply bind_ok in H as (u5 & s5 & H5 & H).
  exists s5. split.
  - pose proof (touches_pipeline_start analysis_id user_id s) as T1.
    pose proof (touches_phase1 env analysis_id user_id s1) as T2.
    pose proof (touches_phase2 env analysis_id user_id analysis_id s4) as T5.
    rewrite H1 in T1. rewrite H2 in T2. rewrite H5 in T5.
    unfold on_conn in *. cbn [snd] in *.
    assert (touches_run analysis_id (conn s2) (conn s4)) as T34.
    { unfold update_analysis, exec in H3. injection H3 as _ <-.
      unfold commit in H4. injection H4 as _ <-. cbn. close_touch. }
    eapply db_trans; [exact T1|]. eapply db_trans; [exact T2|].
    eapply db_trans; [exact T34 | exact T5].
  - unfold bind, now, update_analysis, exec, commit in H. cbn in H.
    injection H as <-. reflexivity.
Qed.

Lemma conn_after_update (analysis_id : Z) (f : Analysis -> Analysis) (s : State) :
  conn (snd (commit (snd (update_analysis analysis_id f s))))
  = with_analyses (conn s) (update_where a_id analysis_id f (archive_analyses (conn s))).
Proof. reflexivity. Qed.

Lemma conn_after_failure (analysis_id : Z) (e : exn) (f : Analysis -> Analysis)
    (s : State) :
  conn (snd ((print (LogPipelineFailed e) ;; update_analysis analysis_id f ;; commit) s))
  = with_analyses (conn s) (update_where a_id analysis_id f (archive_analyses (conn s))).
Proof. reflexivity. Qed.

(** X4. A run whose row exists always returns, whatever the phases do, and
    ends with everything committed. Its row then reads 'complete', phase
    'done', with a completion time and its error message as before, when
    the phases returned; and 'failed', with the message of the exception
    cut to 500 characters, when they raised. The row keeps its owner, model
    and start, and the rows of other runs are as they were. *)
Theorem run_ends_committed_and_terminal (env : Env) (user_id analysis_id : Z)
    (s : State) (a : Analysis) :
  run_row analysis_id (conn s) = Some a ->
  let s' := snd (run_full_pipeline env user_id analysis_id s) in
  fst (run_full_pipeline env user_id analysis_id s) = Ok tt
  /\ hd_error (committed s') = Some (conn s')
  /\ (forall other, other <> analysis_id ->
                    run_row other (conn s') = run_row other (conn s))
  /\ exists a',
       run_row analysis_id (conn s') = Some a'
       /\ a_user_id a' = a_user_id a
       /\ a_model_used a' = a_model_used a
       /\ a_started_at a' = a_started_at a
       /\ match fst (pipeline_body env user_id analysis_id s) with
          | Ok _ => a_status a' = Complete
                    /\ a_phase a' = Some PhaseDone
                    /\ a_completed_at a' <> None
                    /\ a_error_message a' = a_error_message a
          | Raise e => a_status a' = Failed
                       /\ a_error_message a' = Some (first_chars 500 (exn_msg e))
                       /\ (py_len (first_chars 500 (exn_msg e)) <= 500)%nat
          end.
Proof.
  intros Ha. cbv zeta. unfold run_full_pipeline, try_except.
  destruct (pipeline_body env user_id analysis_id s) as [[[]|e] s1] eqn:Hb.
  - apply pipeline_body_returned in Hb as (s5 & T & ->).
    destruct (touches_run_row _ _ _ _ T Ha) as (a5 & R5 & U & M & S & E).
    cbn [fst snd]. rewrite conn_after_update.
    split; [reflexivity|]. split; [reflexivity|]. split.
    + intros other Hn. rewrite run_row_update_other by (intros; reflexivity || assumption).
      now apply (touches_run_other analysis_id).
    + exists (set_run_complete (clock s5) a5).
      rewrite (run_row_update _ _ _ a5) by (intros; reflexivity || assumption).
      cbn. repeat split; try assumption. discriminate.
  - pose proof (touches_pipeline_body env analysis_id user_id s) as T.
    rewrite Hb in T. unfold on_conn in T. cbn [snd] in T.
    destruct (touches_run_row _ _ _ _ T Ha) as (a1 & R1 & U & M & S & E).
    cbn [fst snd]. rewrite conn_after_failure.
    split; [reflexivity|]. split; [reflexivity|]. split.
    + intros other Hn. rewrite run_row_update_other by (intros; reflexivity || assumption).
      now apply (touches_run_other analysis_id).
    + exists (set_run_failed (first_chars 500 (exn_msg e)) a1).
      rewrite (run_row_update _ _ _ a1) by (intros; reflexivity || assumption).
      cbn. repeat split; try assumption. apply py_len_first_chars.
Qed.

Lemma run_ends_committed_and_terminal_witness :
  let s' := snd (run_full_pipeline rediscovery_world 1 2 (fresh_state db_with_lens)) in
  hd_error (committed s') = Some (conn s')
  /\ exists a', run_row 2 (conn s') = Some a' /\ a_status a' = Complete.
Proof.
  destruct (run_ends_committed_and_terminal rediscovery_world 1 2
              (fresh_state db_with_lens) (pending_run 2))
    as (_ & H2 & _ & a' & H4 & _ & _ & _ & H5).
  - reflexivity.
  - split; [exact H2|]. exists a'. split; [exact H4|].
    assert (fst (pipeline_body rediscovery_world 1 2 (fresh_state db_with_lens))
            = Ok tt) as E by (vm_compute; reflexivity).
    rewrite E in H5. apply H5.
Defined.

(* ------------------------------------------------------------------ *)
(** ** What lens discovery leaves and what it creates *)

#[export] Instance discovery_frame_order : DbOrder discovery_frame.
Proof.
  split; unfold discovery_frame.
  - auto.
  - intros a b c (-> & -> & ->) (-> & -> & ->). auto.
Qed.

Ltac close_frame :=
  match goal with
  | |- discovery_frame _ (if ?c then _ else _) => destruct c
  | _ => idtac
  end;
  first [ apply db_refl | unfold discovery_frame; cbn; tauto ].

Section DiscoveryFrame.

Variable env : Env.

Lemma frame_store_relevance (m : list (json * Z)) (lens_id : Z)
    (entry : string * json) :
  steps (on_conn discovery_frame) (store_relevance env m lens_id entry).
Proof. unfold store_relevance, insert_or_ignore_link. walk_db. close_frame. Qed.

Lemma discovery_frame_store_lens (user_id run_id : Z) (m : list (json * Z))
    (entry : nat * json) :
  steps (on_conn discovery_frame) (store_lens env user_id run_id m entry).
Proof.
  unfold store_lens, insert_or_ignore_lens, select_lens_id.
  walk_db; try close_frame.
  apply steps_for_each. intros e. apply frame_store_relevance.
Qed.

Lemma discovery_frame_phase2 (user_id run_id : Z) :
  steps (on_conn discovery_frame) (_phase2_lens_discovery env user_id run_id).
Proof.
  unfold _phase2_lens_discovery. walk_db.
  apply steps_for_each. intros e. apply discovery_frame_store_lens.
Qed.

Lemma same_calls_store_lens (user_id run_id : Z) (m : list (json * Z))
    (entry : nat * json) :
  steps same_calls (store_lens env user_id run_id m entry).
Proof.
  unfold store_lens, insert_or_ignore_lens, select_lens_id.
  walk_calls.
  apply steps_for_each. intros e.
  unfold store_relevance, insert_or_ignore_link. walk_calls.
Qed.

(** What follows the call in phase 2 makes no further call. *)
Lemma same_calls_after_discovery (user_id run_id : Z) (rows : list Drawing)
    (raw_response : string) :
  steps same_calls
    (result <- _parse_json_dict env raw_response ;;
     lenses_data <- lift (json_get result "lenses" (JArr [])) ;;
     if negb (truthy lenses_data)
     then print (LogPhase2NoLenses (first_chars 500 raw_response))
     else
       let filename_to_id := filename_to_id_map rows in
       items <- lift (json_iter lenses_data) ;;
       for_each (store_lens env user_id run_id filename_to_id) (enumerate items)).
Proof.
  walk_calls. cbv zeta. walk_calls.
  apply steps_for_each. intros e. apply same_calls_store_lens.
Qed.

End DiscoveryFrame.

(** X5. Lens discovery writes to [lenses] and [lens_drawing_links] only:
    users, drawings and runs are as they were, whether it returns or
    raises. It calls the inference service once, with the prompt rendered
    from the owner's drawings that have an analysis text, and not at all
    when the owner has none; in that case it returns and neither writes nor
    commits anything. *)
Theorem discovery_leaves_drawings_and_runs (env : Env) (user_id analysis_id : Z)
    (s : State) :
  let rows := select_analyzed user_id (conn s) in
  let s' := snd (_phase2_lens_discovery env user_id analysis_id s) in
  discovery_frame (conn s) (conn s')
  /\ calls s' = (calls s ++ discovery_call env rows)%list
  /\ (rows = [] ->
      fst (_phase2_lens_discovery env user_id analysis_id s) = Ok tt
      /\ conn s' = conn s /\ committed s' = committed s).
Proof.
  cbv zeta. split; [apply (discovery_frame_phase2 env user_id analysis_id s)|].
  remember (_phase2_lens_discovery env user_id analysis_id s) as out eqn:Hout.
  unfold _phase2_lens_discovery, bind at 1, query at 1 in Hout.
  destruct (select_analyzed user_id (conn s)) as [|r rows] eqn:E; subst out.
  - cbn. rewrite app_nil_r. auto.
  - split; [|discriminate].
    unfold bind at 1, try_except, vision_synthesize_text.
    destruct (synthesize_text env (calls s) _ _) as [raw|e]; [|reflexivity].
    pose proof (same_calls_after_discovery env user_id analysis_id (r :: rows) raw
                  (snd (record_call
                          (CallSynthesizeText
                             (render_lens_discovery env (year_range (r :: rows))
                                (List.length (r :: rows)) (summaries_block (r :: rows)))
                             (max_tokens_lens_discovery (cfg env))) s))) as H.
    unfold same_calls in H. exact H.
Qed.

Lemma lens_ids_of_app (user_id : Z) (db db' : DB) (extra : list Lens) (i : Z) :
  lenses db' = (lenses db ++ extra)%list ->
  In i (lens_ids_of user_id db) -> In i (lens_ids_of user_id db').
Proof.
  unfold lens_ids_of. intros -> H. rewrite filter_app, map_app.
  apply in_or_app. now left.
Qed.

#[export] Instance creates_for_order (user_id analysis_id : Z) (ids : list Z) :
  DbOrder (creates_for user_id analysis_id ids).
Proof.
  split; unfold creates_for.
  - intros db. exists [], []. rewrite !app_nil_r. auto.
  - intros a b c (L1 & K1 & HL1 & HK1 & FL1 & FK1) (L2 & K2 & HL2 & HK2 & FL2 & FK2).
    exists (L1 ++ L2)%list, (K1 ++ K2)%list.
    rewrite HL2, HL1, HK2, HK1, !app_assoc.
    split; [reflexivity|]. split; [reflexivity|].
    split; [apply Forall_app; now split|].
    apply Forall_app. split; [|exact FK2].
    revert FK1. apply Forall_impl. intros k (Hd & Hl & Hn).
    split; [exact Hd|]. split; [|exact Hn].
    now apply (lens_ids_of_app user_id b c L2).
Qed.

Lemma creates_for_lenses (user_id analysis_id : Z) (ids : list Z) (db db' : DB)
    (i : Z) :
  creates_for user_id analysis_id ids db db' ->
  In i (lens_ids_of user_id db) -> In i (lens_ids_of user_id db').
Proof. intros (L & K & HL & _). now apply lens_ids_of_app with (extra := L). Qed.

#[export] Instance creates_with_order (user_id analysis_id : Z) (ids : list Z)
    (lens_id : Z) : DbOrder (creates_with user_id analysis_id ids lens_id).
Proof.
  split; unfold creates_with.
  - intros db _. apply db_refl.
  - intros a b c Hab Hbc Hin. specialize (Hab Hin).
    eapply db_trans; [exact Hab|]. apply Hbc.
    now apply (creates_for_lenses _ _ _ _ _ _ Hab).
Qed.

Lemma dict_set_Forall (V : Type) (P : V -> Prop) (d : list (json * V)) (k : json)
    (v : V) :
  P v -> Forall (fun kv => P (snd kv)) d ->
  Forall (fun kv => P (snd kv)) (dict_set d k v).
Proof.
  intros Hv. induction d as [|[k0 v0] d IH]; simpl; intros Hd.
  - now constructor.
  - inversion Hd as [|x l Hx Hl]; subst.
    destruct (key_eqb k0 k); constructor; auto.
Qed.

Lemma dict_get_Forall (V : Type) (P : V -> Prop) (d : list (json * V)) (k : json)
    (v : V) :
  Forall (fun kv => P (snd kv)) d -> dict_get d k = Some v -> P v.
Proof.
  induction d as [|[k0 v0] d IH]; simpl; intros Hd; [discriminate|].
  inversion Hd as [|x l Hx Hl]; subst.
  destruct (key_eqb k0 k); [|now apply IH].
  intros H. now injection H as <-.
Qed.

Lemma filename_to_id_map_ids (rows : list Drawing) (k : json) (id : Z) :
  dict_get (filename_to_id_map rows) k = Some id -> In id (map d_id rows).
Proof.
  apply (dict_get_Forall _ (fun v => In v (map d_id rows))).
  unfold filename_to_id_map.
  assert (forall l acc,
            (forall r, In r l -> In (d_id r) (map d_id rows)) ->
            Forall (fun kv : json * Z => In (snd kv) (map d_id rows)) acc ->
            Forall (fun kv : json * Z => In (snd kv) (map d_id rows))
              (fold_left (fun acc r => dict_set acc (JStr (d_filename r)) (d_id r))
                         l acc)) as H.
  { induction l as [|r l IH]; simpl; intros acc Hl Hacc; [exact Hacc|].
    apply IH; [intros; apply Hl; now right|].
    apply (dict_set_Forall _ (fun v => In v (map d_id rows)));
      [apply Hl; now left | exact Hacc]. }
  apply H; [intros r Hr; now apply in_map | constructor].
Qed.

Lemma creates_same (user_id analysis_id : Z) (ids : list Z) (db db' : DB) :
  lenses db' = lenses db -> lens_drawing_links db' = lens_drawing_links db ->
  creates_for user_id analysis_id ids db db'.
Proof.
  intros Hl Hk. exists [], []. rewrite !app_nil_r. repeat split; auto.
Qed.

Section CreatesFor.

Variable env : Env.
Variable user_id analysis_id : Z.
Variable ids : list Z.

Lemma creates_insert_or_ignore_lens (name description : json) (sort_order : Z)
    (raw : json) :
  steps (on_conn (creates_for user_id analysis_id ids))
    (insert_or_ignore_lens env user_id analysis_id name description sort_order raw).
Proof.
  unfold insert_or_ignore_lens. walk_db; try (now apply creates_same).
  match goal with
  | |- creates_for _ _ _ _ (with_lenses _ (_ ++ ?new)%list) => exists new, []
  end.
  cbn. rewrite app_nil_r. repeat split; repeat constructor.
Qed.

Lemma creates_insert_or_ignore_link (lens_id drawing_id : Z) (score : Q) :
  In drawing_id ids ->
  steps (on_conn (creates_with user_id analysis_id ids lens_id))
        (insert_or_ignore_link lens_id drawing_id score).
Proof.
  intros Hd. unfold insert_or_ignore_link. walk_db. intros Hl.
  destruct (link_conflict lens_id drawing_id db); [now apply creates_same|].
  exists [], [mk_link (next_link_id db) lens_id drawing_id score None None].
  cbn. rewrite app_nil_r. repeat split; repeat constructor; assumption.
Qed.

Lemma creates_store_relevance (m : list (json * Z)) (lens_id : Z)
    (entry : string * json) :
  (forall k id, dict_get m k = Some id -> In id ids) ->
  steps (on_conn (creates_with user_id analysis_id ids lens_id))
        (store_relevance env m lens_id entry).
Proof.
  intros Hm. unfold store_relevance.
  destruct (dict_get m (JStr (fst entry))) as [drawing_id|] eqn:E; [|walk_db].
  step_db; [walk_db|]. apply creates_insert_or_ignore_link. now apply (Hm _ _ E).
Qed.

(** What follows the lookup of the lens id may rely on the id being that of
    a lens of the owner. *)
Lemma creates_after_select (name : json) (k : Z -> M unit) :
  (forall lens_id, steps (on_conn (creates_with user_id analysis_id ids lens_id))
                         (k lens_id)) ->
  steps (on_conn (creates_for user_id analysis_id ids))
        (bind (select_lens_id env user_id name) k).
Proof.
  intros Hk s. unfold on_conn, bind, select_lens_id, bind, lift, query.
  destruct (bind_text env 2 name) as [[n|]|e]; try apply db_refl.
  destruct (find _ (lenses (conn s))) as [l|] eqn:E; [|apply db_refl].
  apply (Hk (l_id l) s). apply find_some in E as [Hin Ht].
  apply andb_prop in Ht as [Hu _].
  unfold lens_ids_of. apply in_map. apply filter_In. now split.
Qed.

Lemma creates_store_lens (m : list (json * Z)) (entry : nat * json) :
  (forall k id, dict_get m k = Some id -> In id ids) ->
  steps (on_conn (creates_for user_id analysis_id ids))
        (store_lens env user_id analysis_id m entry).
Proof.
  intros Hm. unfold store_lens. do 3 (step_db; [walk_db|]).
  step_db; [apply creates_insert_or_ignore_lens|].
  apply creates_after_select. intros lens_id.
  step_db; [walk_db|]. step_db; [|walk_db].
  apply steps_for_each. intros e. now apply creates_store_relevance.
Qed.

End CreatesFor.

(** X6. Whatever lens discovery adds is made for the owner of the run: the
    two tables grow at the end and no row is removed or rewritten; a new
    lens carries the owner's id and the id of the run; a new link has no
    annotation, points to one of the owner's drawings that had an analysis
    text when the phase started, and to a lens of the owner. *)
Theorem discovery_creates_only_for_owner (env : Env) (user_id analysis_id : Z)
    (s : State) :
  creates_for user_id analysis_id (map d_id (select_analyzed user_id (conn s)))
    (conn s) (conn (snd (_phase2_lens_discovery env user_id analysis_id s))).
Proof.
  unfold _phase2_lens_discovery, bind at 1, query at 1.
  set (ids := map d_id (select_analyzed user_id (conn s))).
  assert (forall k id, dict_get (filename_to_id_map (select_analyzed user_id (conn s))) k
                       = Some id -> In id ids) as Hm
    by (intros k id; apply filename_to_id_map_ids).
  destruct (select_analyzed user_id (conn s)) as [|r rows]; [apply db_refl|].
  match goal with
  | |- creates_for _ _ _ _ (conn (snd (?k s))) =>
      enough (steps (on_conn (creates_for user_id analysis_id ids)) k) as H
        by exact (H s)
  end.
  walk_db. cbv zeta. walk_db.
  apply steps_for_each. intros e. now apply creates_store_lens.
Qed.

(* ------------------------------------------------------------------ *)
(** ** The drawings across a run *)

#[export] Instance analysis_only_order (ids : list Z) : DbOrder (analysis_only ids).
Proof.
  split; unfold analysis_only.
  - intros db. apply Forall2_diag. intros x. tauto.
  - intros a b c H1 H2. eapply Forall2_chain; [|exact H1|exact H2].
    intros x y z (I1 & U1 & F1 & P1 & D1 & E1 & K1) (I2 & U2 & F2 & P2 & D2 & E2 & K2).
    repeat split; try congruence.
    intros Hn. assert (y = x) as -> by auto. auto.
Qed.

Lemma analysis_only_incl (ids ids' : list Z) (db db' : DB) :
  incl ids ids' -> analysis_only ids db db' -> analysis_only ids' db db'.
Proof.
  unfold analysis_only. intros Hi H.
  induction H as [|x y l l' (I & U & F & P & D & E & K) _ IH]; constructor;
    [|exact IH].
  repeat split; auto.
Qed.

Lemma analysis_only_same (ids : list Z) (db db' : DB) :
  drawings db' = drawings db -> analysis_only ids db db'.
Proof.
  intros H. pose proof (db_refl (Rdb := analysis_only ids) db) as Hr.
  unfold analysis_only in *. now rewrite H.
Qed.

Lemma analysis_only_update (ids : list Z) (id : Z) (f : Drawing -> Drawing) (db : DB) :
  In id ids ->
  (forall d, d_id (f d) = d_id d /\ d_user_id (f d) = d_user_id d
             /\ d_filename (f d) = d_filename d /\ d_filepath (f d) = d_filepath d
             /\ d_drawn_date (f d) = d_drawn_date d
             /\ d_file_ext (f d) = d_file_ext d) ->
  analysis_only ids db (with_drawings db (update_where d_id id f (drawings db))).
Proof.
  intros Hin Hf. unfold analysis_only. cbn.
  induction (drawings db) as [|d l IH]; simpl; constructor; [|exact IH].
  destruct (Z.eqb_spec (d_id d) id) as [E|E].
  - destruct (Hf d) as (H1 & H2 & H3 & H4 & H5 & H6). repeat split; auto.
    intros Hn. exfalso. apply Hn. now rewrite E.
  - tauto.
Qed.

Lemma Forall2_In_r (A : Type) (R : A -> A -> Prop) (l l' : list A) (y : A) :
  Forall2 R l l' -> In y l' -> exists x, In x l /\ R x y.
Proof.
  induction 1 as [|a b l l' Hab _ IH]; simpl; [contradiction|].
  intros [<-|H].
  - exists a. auto.
  - destruct (IH H) as (x & Hx & Hr). exists x. auto.
Qed.

Lemma Forall2_weaken_In (A : Type) (R R' : A -> A -> Prop) (l l' : list A) :
  (forall x y, In x l -> R x y -> R' x y) -> Forall2 R l l' -> Forall2 R' l l'.
Proof.
  intros Hw H. induction H as [|a b l l' Hab _ IH]; constructor.
  - apply Hw; [now left | exact Hab].
  - apply IH. intros x y Hx. apply Hw. now right.
Qed.

(** A drawing that is unanalyzed after such a step was unanalyzed before. *)
Lemma rewrites_only_selection (user_id : Z) (db db' : DB) :
  rewrites_only user_id db db' ->
  incl (map d_id (select_unanalyzed user_id db'))
       (map d_id (select_unanalyzed user_id db)).
Proof.
  unfold rewrites_only, analysis_only. intros H i Hi.
  apply in_map_iff in Hi as (d' & <- & Hd').
  apply select_unanalyzed_In in Hd' as (Hin & Hu & Hn).
  destruct (Forall2_In_r _ _ _ _ _ H Hin) as (d & Hd & I & _ & _ & _ & _ & _ & K).
  destruct (in_dec Z.eq_dec (d_id d) (map d_id (select_unanalyzed user_id db)))
    as [Hy|Hy]; [now rewrite I|].
  specialize (K Hy). subst d'. apply in_map. apply select_unanalyzed_In. auto.
Qed.

#[export] Instance rewrites_only_order (user_id : Z) : DbOrder (rewrites_only user_id).
Proof.
  split.
  - intros db. unfold rewrites_only. apply db_refl.
  - intros a b c Hab Hbc. unfold rewrites_only in *.
    eapply db_trans; [exact Hab|].
    eapply analysis_only_incl; [|exact Hbc].
    now apply rewrites_only_selection.
Qed.

Lemma rewrites_only_same (user_id : Z) (db db' : DB) :
  drawings db' = drawings db -> rewrites_only user_id db db'.
Proof. apply analysis_only_same. Qed.

Ltac close_analysis :=
  first [ now apply analysis_only_same
        | apply analysis_only_update; [assumption | intros; cbn; tauto] ].

Section AnalysisOnly.

Variable env : Env.
Variable ids : list Z.

Lemma analysis_only_store_drawing (m : list (json * json)) (d : Drawing) :
  In (d_id d) ids ->
  steps (on_conn (analysis_only ids)) (store_drawing env m d).
Proof.
  intros Hd. unfold store_drawing, update_drawing_analysis, update_drawing_attempted.
  walk_db; close_analysis.
Qed.

Lemma analysis_only_phase1_batch (analysis_id : Z) (selected : list Drawing)
    (size : Z) (prompt : string) (start : nat) :
  (forall d, In d selected -> In (d_id d) ids) ->
  steps (on_conn (analysis_only ids))
        (phase1_batch env analysis_id selected size prompt start).
Proof.
  intros Hids. unfold phase1_batch. walk_db; try now apply analysis_only_same.
  apply steps_for_each_In. intros d Hd. apply analysis_only_store_drawing.
  apply Hids. now apply In_list_slice in Hd.
Qed.

End AnalysisOnly.

Section RewritesOnly.

Variable env : Env.
Variable user_id : Z.

Lemma rewrites_only_phase1 (analysis_id : Z) :
  steps (on_conn (rewrites_only user_id))
        (_phase1_batch_analysis env user_id analysis_id).
Proof.
  unfold _phase1_batch_analysis. apply steps_query_bind. intros s.
  unfold rewrites_only.
  set (ids := map d_id (select_unanalyzed user_id (conn s))).
  assert (forall d, In d (select_unanalyzed user_id (conn s)) -> In (d_id d) ids)
    as Hids by (intros d Hd; now apply in_map).
  destruct (select_unanalyzed user_id (conn s)) as [|d0 rest]; [apply db_refl|].
  match goal with
  | |- analysis_only _ _ (conn (snd (?k s))) =>
      enough (steps (on_conn (analysis_only ids)) k) as H by exact (H s)
  end.
  walk_db. apply steps_for_each. intros b. now apply analysis_only_phase1_batch.
Qed.

Lemma steps_weaken (A : Type) (R1 R2 : DB -> DB -> Prop) (m : M A) :
  (forall db db', R1 db db' -> R2 db db') ->
  steps (on_conn R1) m -> steps (on_conn R2) m.
Proof. intros Hw H s. apply Hw. apply H. Qed.

Lemma rewrites_only_run (analysis_id : Z) :
  steps (on_conn (rewrites_only user_id))
        (run_full_pipeline env user_id analysis_id).
Proof.
  unfold run_full_pipeline, pipeline_body, pipeline_start.
  step_db.
  - step_db; [walk_db; now apply rewrites_only_same|].
    step_db; [apply rewrites_only_phase1|].
    step_db; [walk_db; now apply rewrites_only_same|].
    step_db; [walk_db|].
    step_db.
    + apply (steps_weaken _ discovery_frame); [|apply discovery_frame_phase2].
      intros db db' (_ & H & _). now apply rewrites_only_same.
    + walk_db. now apply rewrites_only_same.
  - walk_db. now apply rewrites_only_same.
Qed.

End RewritesOnly.

(** X7. A whole run, whether it completes or fails, creates and deletes no
    drawing and rewrites no drawing's id, owner, filename, path, date or
    extension. A row it changes at all carries the id of a drawing of the
    owner that was not yet analyzed when the run started; so, ids being
    distinct, the drawings of other owners and the drawings analyzed
    earlier are afterwards exactly as they were. *)
Theorem run_rewrites_only_unanalyzed_of_owner (env : Env) (user_id analysis_id : Z)
    (s : State) :
  let s' := snd (run_full_pipeline env user_id analysis_id s) in
  rewrites_only user_id (conn s) (conn s')
  /\ (drawing_ids_unique (conn s) ->
      Forall2 (fun d d' => d_user_id d <> user_id \/ d_analyzed_at d <> None -> d' = d)
              (drawings (conn s)) (drawings (conn s'))).
Proof.
  cbv zeta. pose proof (rewrites_only_run env user_id analysis_id s) as H.
  unfold on_conn in H. split; [exact H|]. intros Hu.
  unfold rewrites_only, analysis_only in H. revert H.
  apply Forall2_weaken_In. intros d d' Hd (_ & _ & _ & _ & _ & _ & K) Hor.
  apply K. intros Hid. apply in_map_iff in Hid as (d2 & Hid & Hd2).
  apply select_unanalyzed_In in Hd2 as (Hin2 & Hu2 & Hn2).
  rewrite (unique_id_eq _ _ _ Hu Hin2 Hd Hid) in Hu2, Hn2. tauto.
Qed.

Lemma run_rewrites_only_unanalyzed_of_owner_witness :
  let s := fresh_state db_half_analyzed in
  let s' := snd (run_full_pipeline analysis_world 1 1 s) in
  Forall2 (fun d d' => d_user_id d <> 1 \/ d_analyzed_at d <> None -> d' = d)
          (drawings (conn s)) (drawings (conn s')).
Proof.
  intros s s'.
  apply (run_rewrites_only_unanalyzed_of_owner analysis_world 1 1 s).
  repeat constructor; simpl; intuition discriminate.
Defined.

(* ------------------------------------------------------------------ *)
(** ** Groups of a batched loop *)

Lemma range_up_below (fuel start stop step : nat) (b : nat) :
  In b (range_up fuel start stop step) -> (b < stop)%nat.
Proof.
  revert start. induction fuel as [|f IH]; intros start; simpl; [contradiction|].
  destruct (Nat.ltb_spec start stop) as [H|H]; [|contradiction].
  intros [<-|Hin]; [exact H | now apply (IH _ Hin)].
Qed.

Lemma range_up_slices (A : Type) (l : list A) (step fuel start : nat) :
  (0 < step)%nat -> (List.length l - start <= fuel)%nat ->
  List.concat (map (fun b => firstn step (skipn b l))
              (range_up fuel start (List.length l) step))
  = skipn start l.
Proof.
  intros Hs. revert start. induction fuel as [|f IH]; intros start Hf; simpl.
  - symmetry. apply skipn_all2. lia.
  - destruct (Nat.ltb_spec start (List.length l)) as [H|H].
    + simpl. rewrite IH by lia.
      rewrite Nat.add_comm, <- skipn_skipn. apply firstn_skipn.
    + symmetry. apply skipn_all2. lia.
Qed.

(** X8. The groups of a batched loop, for a positive group size: the
    starts [range(0, len(l), size)] cut the list into consecutive slices
    [l[start : start + size]] that put together give the list back, so
    every element is in exactly one group and the order is kept; no group
    is empty and none has more than [size] elements. *)
Theorem batches_partition_selection (A : Type) (l : list A) (size : Z) :
  0 < size ->
  exists starts,
    py_range0 (List.length l) size = Ok starts
    /\ List.concat (map (fun b => list_slice l b size) starts) = l
    /\ Forall (fun b => list_slice l b size <> []
                        /\ (List.length (list_slice l b size) <= Z.to_nat size)%nat)
              starts.
Proof.
  intros Hs. unfold py_range0.
  destruct (Z.eqb_spec size 0) as [E|_]; [lia|].
  destruct (Z.ltb_spec size 0) as [E|_]; [lia|].
  eexists. split; [reflexivity|]. unfold list_slice. split.
  - now rewrite range_up_slices by lia.
  - apply Forall_forall. intros b Hb. apply range_up_below in Hb. split.
    + destruct (skipn b l) as [|x r] eqn:E.
      * apply (f_equal (@List.length A)) in E. rewrite length_skipn in E.
        simpl in E. lia.
      * destruct (Z.to_nat size) eqn:Ez; [lia | discriminate].
    + rewrite length_firstn. lia.
Qed.

Lemma batches_partition_selection_witness :
  exists starts,
    py_range0 3 2 = Ok starts
    /\ List.concat (map (fun b => list_slice ["a"; "b"; "c"] b 2) starts) = ["a"; "b"; "c"].
Proof.
  destruct (batches_partition_selection string ["a"; "b"; "c"] 2) as (starts & H1 & H2 & _).
  - lia.
  - exists starts. split; [exact H1 | exact H2].
Defined.

Lemma select_unanalyzed_same (user_id : Z) (db db' : DB) :
  drawings db' = drawings db ->
  select_unanalyzed user_id db' = select_unanalyzed user_id db.
Proof. unfold select_unanalyzed. now intros ->. Qed.

(** X9. A group size that is not positive. With [batch_size] at 0 and a
    drawing of the owner still to analyze, [range] raises: the run is
    marked 'failed' with the message of that ValueError, no drawing is
    touched and the inference service is not called. With a negative
    [batch_size] phase 1 returns at once and leaves the state as it was, so
    the drawings stay unanalyzed while the run goes on. *)
Theorem nonpositive_batch_size (env : Env) (user_id analysis_id : Z) (s : State)
    (a : Analysis) :
  run_row analysis_id (conn s) = Some a ->
  select_unanalyzed user_id (conn s) <> [] ->
  (batch_size (cfg env) = 0 ->
   let s' := snd (run_full_pipeline env user_id analysis_id s) in
   fst (run_full_pipeline env user_id analysis_id s) = Ok tt
   /\ option_map a_status (run_row analysis_id (conn s')) = Some Failed
   /\ option_map a_error_message (run_row analysis_id (conn s'))
      = Some (Some "range() arg 3 must not be zero")
   /\ drawings (conn s') = drawings (conn s)
   /\ calls s' = calls s)
  /\ (batch_size (cfg env) < 0 ->
      _phase1_batch_analysis env user_id analysis_id s = (Ok tt, s)).
Proof.
  intros Ha Hsel. split.
  - intros Hz. cbv zeta.
    set (s1 := snd (pipeline_start user_id analysis_id s)).
    assert (pipeline_body env user_id analysis_id s
            = (Raise (mk_exn ValueError "range() arg 3 must not be zero"), s1)) as Hb.
    { unfold pipeline_body, bind at 1.
      change (pipeline_start user_id analysis_id s) with (Ok tt, s1).
      unfold bind at 1, _phase1_batch_analysis, bind at 1, query at 1.
      assert (select_unanalyzed user_id (conn s1) = select_unanalyzed user_id (conn s))
        as -> by (apply select_unanalyzed_same; reflexivity).
      destruct (select_unanalyzed user_id (conn s)) as [|d rest]; [contradiction|].
      unfold bind, lift, py_range0. rewrite Hz. reflexivity. }
    assert (run_row analysis_id (conn s1)
            = Some (set_run_started (count_drawings user_id (conn s)) a)) as H1.
    { subst s1.
      change (conn (snd (pipeline_start user_id analysis_id s)))
        with (with_analyses (conn s)
                (update_where a_id analysis_id
                   (set_run_started (count_drawings user_id (conn s)))
                   (archive_analyses (conn s)))).
      apply run_row_update; [reflexivity | exact Ha]. }
    destruct (pipeline_failure_recorded env user_id analysis_id s s1 _ _ Hb H1)
      as [Hok Hrow].
    split; [exact Hok|]. rewrite Hrow. cbn [option_map].
    split; [reflexivity|]. split; [reflexivity|].
    unfold run_full_pipeline, try_except. rewrite Hb. split; reflexivity.
  - intros Hn. unfold _phase1_batch_analysis, bind at 1, query at 1.
    destruct (select_unanalyzed user_id (conn s)) as [|d rest]; [contradiction|].
    unfold bind, lift, py_range0.
    destruct (Z.eqb_spec (batch_size (cfg env)) 0) as [E|_]; [lia|].
    destruct (Z.ltb_spec (batch_size (cfg env)) 0) as [_|E]; [reflexivity | lia].
Qed.

Lemma nonpositive_batch_size_witness :
  let s := fresh_state db_half_analyzed in
  option_map a_status
    (run_row 1 (conn (snd (run_full_pipeline (with_batch_size 0 analysis_world) 1 1 s))))
  = Some Failed
  /\ _phase1_batch_analysis (with_batch_size (-3) analysis_world) 1 1 s = (Ok tt, s).
Proof.
  intros s. split.
  - apply (nonpositive_batch_size (with_batch_size 0 analysis_world) 1 1 s
             (pending_run 1)); [reflexivity | discriminate | reflexivity].
  - apply (nonpositive_batch_size (with_batch_size (-3) analysis_world) 1 1 s
             (pending_run 1)); [reflexivity | discriminate | reflexivity].
Defined.

(* ------------------------------------------------------------------ *)
(** ** Loading the images of a group *)

Lemma load_image_loaded (env : Env) (d : Drawing) (s : State) :
  match fst (load_image env d s) with
  | Ok t => loaded env d = Some t
  | Raise _ => loaded env d = None
  end.
Proof.
  unfold load_image, loaded, bind, lift, _prepare_image_bytes.
  fold (media_type_of env d).
  destruct (read_file env (d_filepath d)) as [raw|e]; [|reflexivity].
  destruct (Z.of_nat (List.length raw) <=? _MAX_IMAGE_BYTES); [reflexivity|].
  unfold bind, lift. destruct (pil_recompress env raw); reflexivity.
Qed.

Lemma load_images_loadable (env : Env) (batch : list Drawing) (acc : list image_tuple)
    (s : State) :
  exists s',
    load_images env batch acc s = (Ok (acc ++ loadable env batch)%list, s')
    /\ only_log s s'.
Proof.
  revert acc s. induction batch as [|d rest IH]; intros acc s; simpl.
  - exists s. rewrite app_nil_r. split; [reflexivity | apply step_refl].
  - unfold bind at 1, attempt.
    pose proof (steps_load_image (R := only_log) env d s) as Hq.
    pose proof (load_image_loaded env d s) as Hl.
    destruct (load_image env d s) as [[t|e] s1]; simpl in Hq, Hl; rewrite Hl.
    + destruct (IH (acc ++ [t])%list s1) as (s' & E & Hs).
      exists s'. rewrite E, <- app_assoc. split; [reflexivity|].
      eapply step_trans; eassumption.
    + unfold bind at 1, print at 1.
      destruct (IH acc (mk_state (conn s1) (committed s1)
                          (log s1 ++ [LogCouldNotLoad (d_filepath d) e])
                          (calls s1) (clock s1))) as (s' & E & Hs).
      exists s'. rewrite E. split; [reflexivity|].
      eapply step_trans; [exact Hq|].
      eapply step_trans; [|exact Hs]. now apply quiet.
Qed.

(** X10. Loading the images of a group never raises and touches nothing
    but the log. The images it hands on are those of the drawings that can
    be loaded, one per drawing and in the order of the group, each labelled
    with the drawing's filename: the file as read, with the media type of
    its extension, when it is within the size limit; what Pillow makes of
    it, as image/jpeg, when it is larger; a drawing whose file cannot be
    read or recompressed is left out. *)
Theorem loading_keeps_order_and_never_raises (env : Env) (batch : list Drawing)
    (s : State) :
  exists s',
    load_images env batch [] s = (Ok (loadable env batch), s')
    /\ conn s' = conn s /\ committed s' = committed s /\ calls s' = calls s
    /\ map label_of (loadable env batch)
       = map d_filename (filter (fun d => negb (is_null (loaded env d))) batch).
Proof.
  destruct (load_images_loadable env batch [] s) as (s' & E & Hc & Hm & Hk).
  exists s'. split; [exact E|]. repeat split; try assumption.
  clear. induction batch as [|d rest IH]; simpl; [reflexivity|].
  destruct (loaded env d) as [t|] eqn:El; simpl; [|exact IH].
  f_equal; [|exact IH]. unfold loaded in El.
  destruct (read_file env (d_filepath d)) as [raw|e]; [|discriminate].
  destruct (Z.of_nat (List.length raw) <=? _MAX_IMAGE_BYTES).
  - now injection El as <-.
  - destruct (pil_recompress env raw); [|discriminate]. now injection El as <-.
Qed.

(* ------------------------------------------------------------------ *)
(** ** What annotation generation rewrites *)

#[export] Instance annotates_order (lens_id : Z) (ids : list Z) :
  DbOrder (annotates lens_id ids).
Proof.
  split; unfold annotates.
  - intros db. repeat split. apply Forall2_diag. intros x. tauto.
  - intros a b c (U1 & D1 & A1 & L1 & H1) (U2 & D2 & A2 & L2 & H2).
    repeat split; try congruence.
    eapply Forall2_chain; [|exact H1|exact H2].
    intros x y z (I1 & N1 & R1 & S1 & K1) (I2 & N2 & R2 & S2 & K2).
    repeat split; try congruence.
    destruct K2 as [->|(E2 & In2 & T2 & G2)]; [exact K1|].
    right. rewrite <- N1, <- R1. auto.
Qed.

Lemma truthy_bind_text (env : Env) (p : Z) (v : json) (t : option string) :
  truthy v = true -> bind_text env p v = Ok t -> t <> None.
Proof.
  destruct v as [|b|z|q|x|l|kv]; cbn [truthy bind_text]; try discriminate.
  - intros _ H. injection H as <-. discriminate.
  - intros _. destruct ((- 2 ^ 63 <=? z) && (z <? 2 ^ 63)); [|discriminate].
    intros H. injection H as <-. discriminate.
  - intros _. destruct (text_of_num env q); [|discriminate].
    intros H. injection H as <-. discriminate.
  - intros _ H. injection H as <-. discriminate.
Qed.

(** *** Steps that commit, and the connection closed after them *)

Section WithCommits.

Context {Rdb : DB -> DB -> Prop} {Rdb_order : DbOrder Rdb}.

#[export] Instance with_commits_order : StepOrder (with_commits Rdb).
Proof.
  split.
  - intros s. split; [apply db_refl|]. exists [].
    split; [reflexivity | constructor].
  - intros a b c [H1 (n1 & C1 & F1)] [H2 (n2 & C2 & F2)].
    split; [now apply (db_trans _ (conn b))|].
    exists (n2 ++ n1)%list. split; [now rewrite C2, C1, app_assoc|].
    apply Forall_app. split; [|exact F1].
    refine (Forall_impl _ _ F2). intros db Hdb. now apply (db_trans _ (conn b)).
Qed.

#[export] Instance with_commits_quiet : Quiet (with_commits Rdb).
Proof.
  split. intros s s' Hc Hk _. split; [rewrite Hc; apply db_refl|].
  exists []. split; [exact Hk | constructor].
Qed.

#[export] Instance with_commits_deaf : Deaf (with_commits Rdb).
Proof.
  split. intros s s' Hc Hk. split; [rewrite Hc; apply db_refl|].
  exists []. split; [exact Hk | constructor].
Qed.

Lemma with_commits_commit : steps (with_commits Rdb) commit.
Proof.
  intros s. split; [apply db_refl|]. exists [conn s].
  split; [reflexivity|]. constructor; [apply db_refl | constructor].
Qed.

Lemma with_commits_uncommitted (A : Type) (m : M A) :
  steps (on_conn Rdb) m -> steps same_commits m -> steps (with_commits Rdb) m.
Proof.
  intros H1 H2 s. split; [apply H1|]. exists [].
  split; [apply H2 | constructor].
Qed.

(** Closing the connection leaves what was committed last, or what the
    connection saw when it was opened. *)
Lemma closing_with_commits (A : Type) (body : M A) (s : State) :
  with_commits Rdb s (snd (body s)) ->
  Rdb (conn s) (conn (snd (closing body s)))
  /\ fst (closing body s) = fst (body s).
Proof.
  unfold closing. destruct (body s) as [r s1]. cbn [fst snd conn].
  intros [H (new & C & F)]. split; [|reflexivity].
  unfold last_commit. rewrite C, length_app.
  destruct new as [|db new]; cbn [List.length Nat.add hd app].
  - rewrite Nat.ltb_irrefl. apply db_refl.
  - inversion F; subst.
    destruct (Nat.ltb_spec (List.length (committed s))
                (S (List.length new + List.length (committed s))));
      [assumption | lia].
Qed.

End WithCommits.

Lemma closing_unchanged (A : Type) (body : M A) (s : State) (r : pyresult A) :
  body s = (r, s) -> closing body s = (r, s).
Proof.
  intros H. unfold closing. rewrite H. unfold last_commit.
  rewrite Nat.ltb_irrefl. now rewrite state_eta.
Qed.

#[export] Instance same_commits_order : StepOrder same_commits.
Proof.
  split; unfold same_commits; [reflexivity|]. intros a b c H1 H2. congruence.
Qed.

#[export] Instance same_commits_quiet : Quiet same_commits.
Proof. split. now intros s s' _ H _. Qed.

#[export] Instance same_commits_deaf : Deaf same_commits.
Proof. split. now intros s s' _ H. Qed.

Ltac step_uncommitted :=
  match goal with
  | |- steps _ (exec _) => intros ?; reflexivity
  | |- steps _ (_parse_json_list _ _) => apply steps_parse_json_list
  | _ => step
  end.

Section Annotates.

Variable env : Env.
Variable ids : list Z.

Lemma annotates_update_link (annotation : json) (lens_id drawing_id : Z) :
  truthy annotation = true -> In drawing_id ids ->
  steps (on_conn (annotates lens_id ids))
        (update_link_annotation env annotation lens_id drawing_id).
Proof.
  intros Ht Hin s. unfold update_link_annotation, bind, lift, now, exec, on_conn.
  destruct (bind_text env 1 annotation) as [text|e] eqn:E; [|apply db_refl].
  pose proof (truthy_bind_text env 1 annotation text Ht E) as Hn.
  cbn. unfold annotates. cbn. repeat split.
  induction (lens_drawing_links (conn s)) as [|k l IH]; simpl; constructor;
    [|exact IH].
  destruct (Z.eqb_spec (k_lens_id k) lens_id) as [El|El]; simpl; [|tauto].
  destruct (Z.eqb_spec (k_drawing_id k) drawing_id) as [Ed|Ed]; simpl; [|tauto].
  repeat split. right. rewrite Ed. repeat split; auto. discriminate.
Qed.

Lemma annotates_store_annotation (lens : Lens) (m : list (json * json)) (d : Drawing) :
  In (d_id d) ids ->
  steps (on_conn (annotates (l_id lens) ids)) (store_annotation env lens m d).
Proof.
  intros Hd. unfold store_annotation.
  destruct (dict_get m (JStr (d_filename d))) as [annotation|]; [|walk_db].
  destruct (truthy annotation) eqn:Ht; [|walk_db].
  now apply annotates_update_link.
Qed.

Lemma annotates_annotate_batch (lens : Lens) (batch : list Drawing) :
  (forall d, In d batch -> In (d_id d) ids) ->
  steps (on_conn (annotates (l_id lens) ids)) (_annotate_batch env lens batch).
Proof.
  intros Hb. unfold _annotate_batch. walk_db.
  apply steps_for_each_In. intros d Hd. apply annotates_store_annotation. auto.
Qed.

Lemma uncommitted_annotate_batch (lens : Lens) (batch : list Drawing) :
  steps same_commits (_annotate_batch env lens batch).
Proof.
  unfold _annotate_batch. repeat step_uncommitted.
  apply steps_for_each. intros d.
  unfold store_annotation, update_link_annotation. repeat step_uncommitted.
Qed.

End Annotates.

Lemma select_needing_annotation_In (env : Env) (lens_id : Z) (db : DB) (d : Drawing) :
  In d (select_needing_annotation env lens_id db) ->
  exists k, In k (lens_drawing_links db)
            /\ k_lens_id k = lens_id
            /\ k_drawing_id k = d_id d
            /\ k_annotation k = None
            /\ Qle_bool (relevance_threshold (cfg env)) (k_relevance_score k) = true
            /\ In d (drawings db)
            /\ d_analysis_text d <> None.
Proof.
  unfold select_needing_annotation. intros H.
  apply (Permutation_in _ (order_by_perm _)) in H.
  apply in_map_iff in H as ([k d'] & <- & H).
  apply filter_In in H as [Hj Ht]. simpl in *.
  apply andb_prop in Ht as [Ht Hx]. apply andb_prop in Ht as [Ha Hn].
  unfold above_threshold in Ha. simpl in Ha. apply andb_prop in Ha as [Hl Hq].
  unfold join_links in Hj. apply in_flat_map in Hj as (k0 & Hk0 & Hp).
  apply in_map_iff in Hp as (d0 & Hp & Hd0). injection Hp as -> ->.
  apply filter_In in Hd0 as [Hd0 Hi].
  exists k. repeat split; auto.
  - now apply Z.eqb_eq.
  - symmetry. now apply Z.eqb_eq.
  - destruct (k_annotation k); [discriminate | reflexivity].
  - destruct (d_analysis_text d'); [discriminate | discriminate].
Qed.

Lemma annotates_generate (env : Env) (lens_id user_id : Z) (s : State) :
  fst (generate_lens_annotations env lens_id user_id s) = Ok tt
  /\ annotates lens_id (map d_id (select_needing_annotation env lens_id (conn s)))
       (conn s) (conn (snd (generate_lens_annotations env lens_id user_id s))).
Proof.
  unfold generate_lens_annotations.
  match goal with
  | |- context [closing (try_except ?body ?h) s] =>
      assert (with_commits
                (annotates lens_id
                   (map d_id (select_needing_annotation env lens_id (conn s))))
                s (snd (body s))) as H;
        [| destruct (closing_with_commits (Rdb := annotates lens_id
                       (map d_id (select_needing_annotation env lens_id (conn s))))
                       _ (try_except body h) s) as [Hc Hr];
           [ unfold try_except; destruct (body s) as [[[]|e] s1]; exact H
           | split; [|exact Hc]; rewrite Hr; unfold try_except;
             destruct (body s) as [[[]|e] s1]; reflexivity ] ]
  end.
  unfold bind at 1, query at 1.
  destruct (find _ (lenses (conn s))) as [lens|] eqn:Ef; [|apply step_refl].
  apply find_some in Ef as [_ Ef]. apply andb_prop in Ef as [Ef _].
  apply Z.eqb_eq in Ef. subst lens_id.
  unfold bind at 1, query at 1.
  set (ids := map d_id (select_needing_annotation env (l_id lens) (conn s))).
  assert (forall d, In d (select_needing_annotation env (l_id lens) (conn s)) ->
                    In (d_id d) ids) as Hids by (intros d Hd; now apply in_map).
  destruct (select_needing_annotation env (l_id lens) (conn s)) as [|r rows];
    [apply step_refl|].
  match goal with
  | |- with_commits _ _ (snd (?k s)) =>
      enough (steps (with_commits (annotates (l_id lens) ids)) k) as H
        by exact (H s)
  end.
  step; [steps|]. apply steps_for_each. intros i.
  step; [|step; [apply with_commits_commit | steps]].
  apply with_commits_uncommitted; [|apply uncommitted_annotate_batch].
  apply annotates_annotate_batch.
  intros d Hd. apply Hids. now apply In_list_slice in Hd.
Qed.


Lemma NoDup_map_inj (A K : Type) (key : A -> K) (l : list A) (x y : A) :
  NoDup (map key l) -> In x l -> In y l -> key x = key y -> x = y.
Proof.
  induction l as [|a l IH]; simpl; intros Hn Hx Hy E; [contradiction|].
  apply NoDup_cons_iff in Hn as [Ha Hn].
  destruct Hx as [<-|Hx], Hy as [<-|Hy]; auto.
  - exfalso. apply Ha. rewrite E. now apply in_map.
  - exfalso. apply Ha. rewrite <- E. now apply in_map.
Qed.

(** X12. An annotation is written once. With (lens, drawing) pairs
    distinct, a link that already has an annotation, a link below the
    relevance threshold and a link of another lens are exactly as they
    were after an annotation pass over the lens. *)
Theorem annotation_written_once (env : Env) (lens_id user_id : Z) (s : State) :
  links_unique (conn s) ->
  Forall2 (fun k k' => settled env lens_id k -> k' = k)
          (lens_drawing_links (conn s))
          (lens_drawing_links
             (conn (snd (generate_lens_annotations env lens_id user_id s)))).
Proof.
  intros Hu.
  destruct (annotates_generate env lens_id user_id s) as [_ H].
  unfold annotates in H. destruct H as (_ & _ & _ & _ & H).
  revert H. apply Forall2_weaken_In.
  intros k k' Hk (_ & _ & _ & _ & [E|[El [Hin _]]]) Hs; [exact E|].
  exfalso. apply in_map_iff in Hin as (d & Hid & Hd).
  apply select_needing_annotation_In in Hd as (k2 & Hk2 & L2 & D2 & A2 & Q2 & _).
  assert (k2 = k) as ->.
  { apply (NoDup_map_inj _ _ link_key _ _ _ Hu Hk2 Hk).
    unfold link_key. congruence. }
  destruct Hs as [Hs|[Hs|Hs]]; congruence.
Qed.

Lemma annotation_written_once_witness :
  let s := fresh_state db_annotating in
  let s' := snd (generate_lens_annotations annotating_world 1 1 s) in
  Forall2 (fun k k' => settled annotating_world 1 k -> k' = k)
          (lens_drawing_links (conn s)) (lens_drawing_links (conn s'))
  /\ map k_annotation (lens_drawing_links (conn s'))
     = [Some "seen before"; Some "x"; None].
Proof.
  intros s s'. split.
  - apply (annotation_written_once annotating_world 1 1 s).
    repeat constructor; simpl; intuition discriminate.
  - vm_compute. reflexivity.
Defined.

(** X13. An annotation pass for a lens that is not the user's, or for a
    lens none of whose links needs an annotation, returns at once: no call
    to the inference service, nothing written, nothing committed, nothing
    logged. *)
Theorem annotation_pass_without_work (env : Env) (lens_id user_id : Z) (s : State) :
  (forall l, In l (lenses (conn s)) -> l_id l = lens_id -> l_user_id l <> user_id)
  \/ select_needing_annotation env lens_id (conn s) = [] ->
  generate_lens_annotations env lens_id user_id s = (Ok tt, s).
Proof.
  intros H. unfold generate_lens_annotations. apply closing_unchanged.
  unfold try_except, bind at 1, query at 1.
  destruct (find _ (lenses (conn s))) as [lens|] eqn:Ef; [|reflexivity].
  destruct H as [H|H].
  - apply find_some in Ef as [Hin Ht]. apply andb_prop in Ht as [Hl Hu].
    apply Z.eqb_eq in Hl, Hu. now destruct (H lens Hin Hl).
  - unfold bind at 1, query at 1. now rewrite H.
Qed.

Lemma annotation_pass_without_work_witness :
  generate_lens_annotations annotating_world 1 2 (fresh_state db_annotating)
  = (Ok tt, fresh_state db_annotating).
Proof.
  apply (annotation_pass_without_work annotating_world 1 2 (fresh_state db_annotating)).
  left. simpl. intros l [<-|[]] _. discriminate.
Defined.

(* ------------------------------------------------------------------ *)
(** ** The drawings of a lens ([routers/lenses.py]) *)

Lemma insert_row_sorted_perm (x : Link * Drawing) (l : list (Link * Drawing)) :
  Permutation (insert_row_sorted x l) (x :: l).
Proof.
  induction l as [|y l IH]; simpl; [reflexivity|].
  destruct (order_leb (snd x) (snd y)); [reflexivity|].
  rewrite IH. apply perm_swap.
Qed.

Lemma order_rows_perm (l : list (Link * Drawing)) : Permutation (order_rows l) l.
Proof.
  induction l as [|x l IH]; simpl; [reflexivity|].
  unfold order_rows in *. simpl. rewrite insert_row_sorted_perm. now constructor.
Qed.

Lemma filter_perm_length (A : Type) (f : A -> bool) (l l' : list A) :
  Permutation l l' -> List.length (filter f l) = List.length (filter f l').
Proof.
  induction 1 as [|x l l' _ IH|x y l|l1 l2 l3 _ IH1 _ IH2]; simpl.
  - reflexivity.
  - destruct (f x); simpl; congruence.
  - destruct (f x), (f y); reflexivity.
  - congruence.
Qed.

Lemma filter_map_length (A B : Type) (g : A -> B) (p : B -> bool) (l : list A) :
  List.length (filter p (map g l)) = List.length (filter (fun x => p (g x)) l).
Proof.
  induction l as [|x l IH]; simpl; [reflexivity|].
  destruct (p (g x)); simpl; congruence.
Qed.

Lemma filter_filter_length (A : Type) (f g : A -> bool) (l : list A) :
  List.length (filter f (filter g l)) = List.length (filter (fun x => g x && f x) l).
Proof.
  induction l as [|x l IH]; simpl; [reflexivity|].
  destruct (g x); simpl; [|exact IH]. destruct (f x); simpl; congruence.
Qed.

Lemma filter_length_le (A : Type) (f : A -> bool) (l : list A) :
  (List.length (filter f l) <= List.length l)%nat.
Proof.
  induction l as [|x l IH]; simpl; [lia|]. destruct (f x); simpl; lia.
Qed.

Lemma annotation_complete_iff (total ready : Z) :
  0 <= ready <= total ->
  (annotation_status total ready = "complete" <-> ready = total /\ 0 < total).
Proof.
  intros H. unfold annotation_status.
  destruct (Z.eqb_spec total 0); [split; [discriminate | lia]|].
  destruct (Z.eqb_spec ready 0); [split; [discriminate | lia]|].
  destruct (Z.ltb_spec ready total); [split; [discriminate | lia]|].
  split; [lia | reflexivity].
Qed.

(** The counts of the two handlers of a lens are taken from the same rows. *)
Lemma lens_rows_counts (env : Env) (lens_id : Z) (db : DB) :
  let rows := order_rows (filter (above_threshold env lens_id) (join_links db)) in
  let drawings := map row_to_drawing_with_annotation rows in
  List.length drawings
  = List.length (filter (above_threshold env lens_id) (join_links db))
  /\ List.length (filter (fun d => negb (is_null (dwa_annotation d))) drawings)
     = List.length (filter (fun p => above_threshold env lens_id p
                                     && negb (is_null (k_annotation (fst p))))
                           (join_links db)).
Proof.
  cbv zeta. split.
  - now rewrite length_map, (Permutation_length (order_rows_perm _)).
  - rewrite filter_map_length. cbn [dwa_annotation row_to_drawing_with_annotation].
    rewrite (filter_perm_length _ _ _ _ (order_rows_perm _)).
    apply filter_filter_length.
Qed.

(** X14. The handler of a lens's drawings, when it answers, agrees with
    the annotation status handler on the same database: its total and its
    done count are the status's [total] and [ready], it reports the
    annotations ready exactly when the status is "complete", and it queues
    an annotation pass, for this lens and this user, exactly when it was
    given a task queue and the status is not "complete". The lens it
    returns is the one asked for and belongs to the user, its relevant
    count is within its drawing count, and every drawing returned has a
    score at or above the threshold. *)
Theorem lens_drawings_agree_with_status (env : Env) (lens_id user_id : Z)
    (background_tasks : bool) (db : DB) (r : LensDrawingsResponse)
    (queued : list (Z * Z)) :
  get_lens_drawings env lens_id user_id background_tasks db = Ok (r, queued) ->
  let st := get_annotation_status env lens_id user_id db in
  lr_id (ldr_lens r) = lens_id
  /\ lr_user_id (ldr_lens r) = user_id
  /\ 0 <= lr_relevant_count (ldr_lens r) <= lr_drawing_count (ldr_lens r)
  /\ ldr_annotation_total r = as_total st
  /\ ldr_annotation_done r = as_ready st
  /\ ldr_annotation_total r = Z.of_nat (List.length (ldr_drawings r))
  /\ 0 <= ldr_annotation_done r <= ldr_annotation_total r
  /\ (ldr_annotations_ready r = true <-> as_status st = "complete")
  /\ (queued = [(lens_id, user_id)]
      <-> background_tasks = true /\ as_status st <> "complete")
  /\ (queued = [] <-> background_tasks = false \/ as_status st = "complete")
  /\ Forall (fun d => Qle_bool (relevance_threshold (cfg env))
                               (dwa_relevance_score d) = true)
            (ldr_drawings r).
Proof.
  unfold get_lens_drawings.
  destruct (find _ (lenses db)) as [lens_row|] eqn:Ef; [|discriminate].
  apply find_some in Ef as [_ Ef]. apply andb_prop in Ef as [Ei Eu].
  apply Z.eqb_eq in Ei, Eu.
  destruct (lens_rows_counts env lens_id db) as [Ht Hd]. cbv zeta in Ht, Hd.
  cbv zeta. intros H. injection H as <- <-.
  cbn [ldr_lens ldr_drawings ldr_annotations_ready ldr_annotation_total
       ldr_annotation_done lr_id lr_user_id lr_relevant_count lr_drawing_count].
  unfold get_annotation_status. cbn [as_total as_ready as_status].
  rewrite Hd, Ht.
  set (total := Z.of_nat (List.length (filter (above_threshold env lens_id)
                                              (join_links db)))).
  set (ready := Z.of_nat (List.length
                            (filter (fun p => above_threshold env lens_id p
                                              && negb (is_null (k_annotation (fst p))))
                                    (join_links db)))).
  assert (0 <= ready <= total) as Hr.
  { subst ready total. rewrite <- filter_filter_length.
    pose proof (filter_length_le _ (fun p : Link * Drawing =>
                                      negb (is_null (k_annotation (fst p))))
                  (filter (above_threshold env lens_id) (join_links db))). lia. }
  pose proof (annotation_complete_iff total ready Hr) as Hc.
  assert ((ready =? total) && (0 <? total) = true
          <-> annotation_status total ready = "complete") as Hb.
  { rewrite Hc, andb_true_iff, Z.eqb_eq, Z.ltb_lt. tauto. }
  assert (Forall (fun d => Qle_bool (relevance_threshold (cfg env))
                                 (dwa_relevance_score d) = true)
            (map row_to_drawing_with_annotation
               (order_rows (filter (above_threshold env lens_id) (join_links db)))))
    as Hscores.
  { apply Forall_forall. intros d Hd'. apply in_map_iff in Hd' as (p & <- & Hp).
    apply (Permutation_in _ (order_rows_perm _)) in Hp.
    apply filter_In in Hp as [_ Hp]. unfold above_threshold in Hp.
    now apply andb_prop in Hp as [_ Hp]. }
  split; [exact Ei|]. split; [exact Eu|]. split.
  { pose proof (filter_length_le _ (is_relevant env) (links_of lens_id db)). lia. }
  split; [reflexivity|]. split; [reflexivity|]. split; [reflexivity|].
  split; [exact Hr|]. split; [exact Hb|].
  destruct ((ready =? total) && (0 <? total)) eqn:Eb.
  - assert (annotation_status total ready = "complete") as -> by now apply Hb.
    cbn. split; [|split; [|exact Hscores]].
    + split; [discriminate | tauto].
    + tauto.
  - assert (annotation_status total ready <> "complete") as Hn.
    { intros Hx. apply Hb in Hx. discriminate. }
    destruct background_tasks; cbn; (split; [|split; [|exact Hscores]]).
    + tauto.
    + split; [discriminate | intros [?|?]; [discriminate | contradiction]].
    + split; [discriminate | intros [? _]; discriminate].
    + tauto.
Qed.

Lemma lens_drawings_agree_with_status_witness :
  exists r queued,
    get_lens_drawings annotating_world 1 1 true db_annotating = Ok (r, queued)
    /\ ldr_annotation_total r
       = as_total (get_annotation_status annotating_world 1 1 db_annotating)
    /\ ldr_annotation_done r
       = as_ready (get_annotation_status annotating_world 1 1 db_annotating)
    /\ ldr_annotation_total r = 2.
Proof.
  assert (exists r queued,
             get_lens_drawings annotating_world 1 1 true db_annotating = Ok (r, queued))
    as (r & queued & E) by (vm_compute; eauto).
  exists r, queued. split; [exact E|].
  destruct (lens_drawings_agree_with_status annotating_world 1 1 true db_annotating
              r queued E) as (_ & _ & _ & Ht & Hd & _).
  split; [exact Ht|]. split; [exact Hd|].
  rewrite Ht. vm_compute. reflexivity.
Defined.

Lemma find_lens_of_user (lens_id user_id : Z) (db : DB) :
  match find (fun l => (l_id l =? lens_id) && (l_user_id l =? user_id)) (lenses db) with
  | Some l => In l (lenses db) /\ l_id l = lens_id /\ l_user_id l = user_id
  | None => forall l, In l (lenses db) -> l_id l = lens_id -> l_user_id l <> user_id
  end.
Proof.
  destruct (find _ (lenses db)) as [l|] eqn:E.
  - apply find_some in E as [Hin Ht]. apply andb_prop in Ht as [Hi Hu].
    apply Z.eqb_eq in Hi, Hu. auto.
  - intros l Hin Hi Hu. pose proof (find_none _ _ E l Hin) as Hf. cbn in Hf.
    rewrite Hi, Hu, !Z.eqb_refl in Hf. discriminate.
Qed.

(** X15. The handler of a lens's drawings answers only for a lens of the
    user: when no row of [lenses] has both the lens id and the user id it
    raises 404 "Lens not found" and queues nothing, and otherwise it
    answers; the annotation status handler asks no such question. *)
Theorem lens_drawings_requires_owner (env : Env) (lens_id user_id : Z)
    (background_tasks : bool) (db : DB) :
  match get_lens_drawings env lens_id user_id background_tasks db with
  | Ok (r, _) =>
      exists l, In l (lenses db) /\ l_id l = lens_id /\ l_user_id l = user_id
                /\ lr_name (ldr_lens r) = l_name l
                /\ lr_description (ldr_lens r) = l_description l
  | Raise e =>
      e = mk_exn (HTTPException 404) "Lens not found"
      /\ forall l, In l (lenses db) -> l_id l = lens_id -> l_user_id l <> user_id
  end.
Proof.
  unfold get_lens_drawings.
  pose proof (find_lens_of_user lens_id user_id db) as H.
  destruct (find _ (lenses db)) as [l|].
  - exists l. cbn. tauto.
  - split; [reflexivity | exact H].
Qed.

Lemma filter_all_length (A : Type) (f g : A -> bool) (l : list A) :
  List.length (filter (fun x => f x && g x) l) = List.length (filter f l) ->
  forall x, In x l -> f x = true -> g x = true.
Proof.
  induction l as [|a l IH]; simpl; [contradiction|].
  pose proof (filter_length_le _ (fun x => f x && g x) l) as Hle.
  assert (List.length (filter (fun x => f x && g x) l) <= List.length (filter f l))%nat
    as Hle2.
  { clear. induction l as [|a l IH]; simpl; [lia|].
    destruct (f a), (g a); simpl; lia. }
  destruct (f a) eqn:Ea; simpl.
  - destruct (g a) eqn:Eg; simpl; intros H x [<-|Hx] Hf; try assumption.
    + apply IH; [lia | assumption | assumption].
    + lia.
    + lia.
  - intros H x [<-|Hx] Hf; [congruence|]. now apply IH.
Qed.

Lemma filter_none (A : Type) (f : A -> bool) (l : list A) :
  (forall x, In x l -> f x = false) -> filter f l = [].
Proof.
  induction l as [|a l IH]; simpl; intros H; [reflexivity|].
  rewrite (H a) by now left. apply IH. intros x Hx. apply H. now right.
Qed.

(** With nothing pending the annotation pass has nothing to do. *)
Lemma generate_nothing_pending (env : Env) (lens_id user_id : Z) (s : State) :
  select_needing_annotation env lens_id (conn s) = [] ->
  generate_lens_annotations env lens_id user_id s = (Ok tt, s).
Proof.
  intros H. unfold generate_lens_annotations. apply closing_unchanged.
  unfold try_except, bind at 1, query at 1.
  destruct (find _ (lenses (conn s))) as [lens|]; [|reflexivity].
  unfold bind at 1, query at 1. now rewrite H.
Qed.

(** X16. When the handler of a lens's drawings reports the annotations
    ready, or reports no drawing at all, an annotation pass over the lens
    finds nothing to annotate and leaves the state as it was. In the second
    case the handler queues such a pass all the same, on every request that
    comes with a task queue. *)
Theorem ready_or_empty_lens_needs_no_pass (env : Env) (lens_id user_id : Z)
    (background_tasks : bool) (s : State) (r : LensDrawingsResponse)
    (queued : list (Z * Z)) :
  get_lens_drawings env lens_id user_id background_tasks (conn s) = Ok (r, queued) ->
  ldr_annotations_ready r = true \/ ldr_annotation_total r = 0 ->
  generate_lens_annotations env lens_id user_id s = (Ok tt, s)
  /\ (ldr_annotation_total r = 0 -> background_tasks = true ->
      ldr_annotations_ready r = false /\ queued = [(lens_id, user_id)]).
Proof.
  unfold get_lens_drawings.
  destruct (find _ (lenses (conn s))) as [lens_row|]; [|discriminate].
  destruct (lens_rows_counts env lens_id (conn s)) as [Ht Hd]. cbv zeta in Ht, Hd.
  cbv zeta. intros H. injection H as <- <-.
  cbn [ldr_annotations_ready ldr_annotation_total]. rewrite Hd, Ht.
  intros Hor. split.
  - apply generate_nothing_pending. unfold select_needing_annotation.
    rewrite filter_none; [reflexivity|].
    intros p Hp.
    destruct (above_threshold env lens_id p) eqn:Ea; [|reflexivity].
    assert (negb (is_null (k_annotation (fst p))) = true) as Hn.
    { apply (filter_all_length _ (above_threshold env lens_id)
               (fun p => negb (is_null (k_annotation (fst p)))) (join_links (conn s)));
        [|exact Hp | exact Ea].
      destruct Hor as [Hr|Hz].
      - apply andb_prop in Hr as [Hr _]. apply Z.eqb_eq in Hr. lia.
      - assert (filter (above_threshold env lens_id) (join_links (conn s)) = []) as Hf
          by (apply length_zero_iff_nil; lia).
        exfalso. assert (In p (filter (above_threshold env lens_id)
                                      (join_links (conn s)))) as Hin
          by (apply filter_In; now split).
        rewrite Hf in Hin. contradiction. }
    apply negb_true_iff in Hn. rewrite Hn. reflexivity.
  - intros Hz ->.
    assert ((0 <? Z.of_nat (List.length (filter (above_threshold env lens_id)
                                                (join_links (conn s))))) = false)
      as Hlt by (apply Z.ltb_ge; lia).
    rewrite Hlt, andb_false_r. split; reflexivity.
Qed.

Lemma ready_or_empty_lens_needs_no_pass_witness :
  exists r queued,
    get_lens_drawings annotating_world 1 1 true db_low_scores = Ok (r, queued)
    /\ queued = [(1, 1)]
    /\ generate_lens_annotations annotating_world 1 1 (fresh_state db_low_scores)
       = (Ok tt, fresh_state db_low_scores).
Proof.
  assert (exists r queued,
             get_lens_drawings annotating_world 1 1 true db_low_scores = Ok (r, queued))
    as (r & queued & E) by (vm_compute; eauto).
  exists r, queued. split; [exact E|].
  assert (ldr_annotation_total r = 0) as Hz.
  { pose proof E as E2. vm_compute in E2. injection E2 as <- _. reflexivity. }
  destruct (ready_or_empty_lens_needs_no_pass annotating_world 1 1 true
              (fresh_state db_low_scores) r queued E (or_intror Hz)) as [Hg Hq].
  split; [apply (Hq Hz eq_refl) | exact Hg].
Defined.

(* ------------------------------------------------------------------ *)
(** ** The list of lenses ([routers/lenses.py]) *)

Lemma insert_by_sort_order_perm (x : Lens) (l : list Lens) :
  Permutation (insert_by_sort_order x l) (x :: l).
Proof.
  induction l as [|y l IH]; simpl; [reflexivity|].
  destruct (l_sort_order x <=? l_sort_order y); [reflexivity|].
  rewrite IH. apply perm_swap.
Qed.

Lemma order_by_sort_order_perm (l : list Lens) :
  Permutation (order_by_sort_order l) l.
Proof.
  induction l as [|x l IH]; simpl; [reflexivity|].
  unfold order_by_sort_order in *. simpl.
  rewrite insert_by_sort_order_perm. now constructor.
Qed.

Lemma insert_by_sort_order_sorted (x : Lens) (l : list Lens) :
  Sorted Z.le (map l_sort_order l) ->
  Sorted Z.le (map l_sort_order (insert_by_sort_order x l)).
Proof.
  induction l as [|y l IH]; simpl; intros Hs; [repeat constructor|].
  destruct (Z.leb_spec (l_sort_order x) (l_sort_order y)) as [H|H]; simpl.
  - constructor; [exact Hs | now constructor].
  - inversion Hs as [|? ? Hs' Hd]; subst. constructor; [now apply IH|].
    destruct l as [|z l]; simpl.
    + constructor. lia.
    + destruct (l_sort_order x <=? l_sort_order z); simpl; constructor;
        [lia | now inversion Hd].
Qed.

Lemma order_by_sort_order_sorted (l : list Lens) :
  Sorted Z.le (map l_sort_order (order_by_sort_order l)).
Proof.
  induction l as [|x l IH]; simpl; [constructor|].
  now apply insert_by_sort_order_sorted.
Qed.

(** X17. The list of lenses of a user holds each lens of the user once and
    no lens of anybody else, in ascending [sort_order]; the relevant count
    of an entry is within its drawing count. With lens ids distinct, each
    entry is the very lens record that the handler of that lens's drawings
    returns for the same user, counts included. *)
Theorem list_lenses_of_owner (env : Env) (user_id : Z) (db : DB) :
  Permutation (map lr_id (list_lenses env user_id db)) (lens_ids_of user_id db)
  /\ Sorted Z.le (map lr_sort_order (list_lenses env user_id db))
  /\ Forall (fun r => lr_user_id r = user_id
                      /\ 0 <= lr_relevant_count r <= lr_drawing_count r)
            (list_lenses env user_id db)
  /\ (lens_ids_unique db ->
      Forall (fun r => forall background_tasks,
                exists resp queued,
                  get_lens_drawings env (lr_id r) user_id background_tasks db
                  = Ok (resp, queued)
                  /\ ldr_lens resp = r)
             (list_lenses env user_id db)).
Proof.
  unfold list_lenses.
  set (mine := filter (fun l => l_user_id l =? user_id) (lenses db)).
  assert (forall l, In l (order_by_sort_order mine) ->
                    In l (lenses db) /\ l_user_id l = user_id) as Hmine.
  { intros l Hl. apply (Permutation_in _ (order_by_sort_order_perm _)) in Hl.
    apply filter_In in Hl as [Hin Hu]. apply Z.eqb_eq in Hu. auto. }
  split; [|split; [|split]].
  - rewrite map_map. cbn [lr_id _row_to_lens]. unfold lens_ids_of. fold mine.
    apply Permutation_map. apply order_by_sort_order_perm.
  - rewrite map_map. cbn [lr_sort_order _row_to_lens].
    apply order_by_sort_order_sorted.
  - apply Forall_forall. intros r Hr. apply in_map_iff in Hr as (l & <- & Hl).
    cbn. split; [now apply Hmine|].
    pose proof (filter_length_le _ (is_relevant env) (links_of (l_id l) db)). lia.
  - intros Hu. apply Forall_forall. intros r Hr background_tasks.
    apply in_map_iff in Hr as (l & <- & Hl). destruct (Hmine l Hl) as [Hin Hown].
    cbn [lr_id _row_to_lens]. unfold get_lens_drawings.
    pose proof (find_lens_of_user (l_id l) user_id db) as Hf.
    destruct (find _ (lenses db)) as [l'|].
    + destruct Hf as (Hin' & Hid & _).
      assert (l' = l) as -> by (apply (NoDup_map_inj _ _ l_id _ _ _ Hu Hin' Hin Hid)).
      eexists. eexists. split; reflexivity.
    + exfalso. now apply (Hf l Hin).
Qed.

Lemma list_lenses_of_owner_witness :
  exists resp queued,
    get_lens_drawings annotating_world 1 1 false db_annotating = Ok (resp, queued)
    /\ [ldr_lens resp] = list_lenses annotating_world 1 db_annotating.
Proof.
  destruct (list_lenses_of_owner annotating_world 1 db_annotating) as (_ & _ & _ & H).
  assert (lens_ids_unique db_annotating) as Hu
    by (repeat constructor; simpl; tauto).
  specialize (H Hu).
  assert (exists r, list_lenses annotating_world 1 db_annotating = [r]) as (r & Er)
    by (vm_compute; eauto).
  rewrite Er in H. inversion H as [|x l Hx _]; subst.
  destruct (Hx false) as (resp & queued & E & Hl).
  assert (lr_id r = 1) as Hid.
  { pose proof Er as E2. vm_compute in E2. injection E2 as <-. reflexivity. }
  rewrite Hid in E. exists resp, queued. split; [exact E|].
  now rewrite Er, Hl.
Defined.

(* ------------------------------------------------------------------ *)
(** ** The status of the archive ([routers/archive.py]) *)

Lemma fold_later_run (l : list Analysis) (best : option Analysis) :
  match fold_left later_run l best with
  | None => best = None /\ l = []
  | Some a =>
      (best = Some a \/ In a l)
      /\ (forall b, In b l -> (a_started_at b <= a_started_at a)%nat)
      /\ (forall b, best = Some b -> (a_started_at b <= a_started_at a)%nat)
  end.
Proof.
  revert best. induction l as [|x l IH]; intros best; simpl.
  - destruct best as [b|]; [|auto].
    split; [now left|]. split; [contradiction|].
    intros b' H. injection H as <-. lia.
  - specialize (IH (later_run best x)).
    destruct (fold_left later_run l (later_run best x)) as [a|].
    + destruct IH as (Hin & Hl & Hb). unfold later_run in Hin, Hb.
      destruct best as [b|].
      * destruct (Nat.ltb_spec (a_started_at b) (a_started_at x)) as [Hlt|Hge].
        -- split; [destruct Hin as [Hin|Hin]; [injection Hin as <-|]; auto|].
           specialize (Hb x eq_refl).
           split; [intros b' [<-|Hb']; auto|].
           intros b' H. injection H as <-. lia.
        -- specialize (Hb b eq_refl).
           split; [destruct Hin as [Hin|Hin]; auto|].
           split; [intros b' [<-|Hb']; [lia | auto]|].
           intros b' H. now injection H as <-.
      * specialize (Hb x eq_refl).
        split; [destruct Hin as [Hin|Hin]; [injection Hin as <-|]; auto|].
        split; [intros b' [<-|Hb']; auto | discriminate].
    + destruct IH as [Hn _]. destruct best as [b|]; simpl in Hn;
        [destruct (a_started_at b <? a_started_at x)%nat|]; discriminate.
Qed.

(** X18. The status handler reports "not_started" exactly when the user
    has no run at all. Otherwise the run it reports is one of the user's
    own, none of the user's runs started later, and status, phase, counts
    and error message are those of its row. The lens flag tells whether the
    user has a lens, whatever the runs are. *)
Theorem status_reports_latest_run_of_owner (user_id : Z) (db : DB) :
  let r := get_status user_id db in
  (st_status r = "not_started" <-> st_analysis_id r = None)
  /\ (st_analysis_id r = None
      <-> forall a, In a (archive_analyses db) -> a_user_id a <> user_id)
  /\ (st_has_lenses r = true <-> lens_ids_of user_id db <> [])
  /\ (forall id, st_analysis_id r = Some id ->
        exists a, In a (archive_analyses db)
                  /\ a_id a = id /\ a_user_id a = user_id
                  /\ st_status r = status_text (a_status a)
                  /\ st_phase r = option_map phase_text (a_phase a)
                  /\ st_total_drawings r = a_total_drawings a
                  /\ st_analyzed_count r = a_analyzed_count a
                  /\ st_error_message r = a_error_message a
                  /\ forall b, In b (archive_analyses db) -> a_user_id b = user_id ->
                               (a_started_at b <= a_started_at a)%nat).
Proof.
  cbv zeta. unfold get_status, latest_run.
  pose proof (fold_later_run
                (filter (fun a => a_user_id a =? user_id) (archive_analyses db)) None)
    as H.
  assert (st_lens : forall x : bool,
            (0 <? Z.of_nat (List.length (filter (fun l => l_user_id l =? user_id)
                                                (lenses db)))) = true
            <-> lens_ids_of user_id db <> []).
  { intros _. unfold lens_ids_of.
    destruct (filter (fun l => l_user_id l =? user_id) (lenses db)); simpl.
    - split; [discriminate | congruence].
    - split; [discriminate | reflexivity]. }
  destruct (fold_left later_run _ None) as [a|].
  - destruct H as ([H|Hin] & Hmax & _); [discriminate|].
    apply filter_In in Hin as [Hin Hu]. apply Z.eqb_eq in Hu.
    cbn. split; [|split; [|split]].
    + split; [destruct (a_status a); discriminate | discriminate].
    + split; [discriminate|]. intros Hn. now destruct (Hn a Hin).
    + apply (st_lens true).
    + intros id Hid. injection Hid as <-. exists a.
      repeat split; auto.
      intros b Hb Hub. apply Hmax. apply filter_In. split; [exact Hb|].
      now apply Z.eqb_eq.
  - destruct H as [_ Hnil]. cbn. split; [|split; [|split]].
    + tauto.
    + split; [|reflexivity]. intros _ a Hin Hu.
      assert (In a (filter (fun a => a_user_id a =? user_id) (archive_analyses db)))
        as Hf by (apply filter_In; split; [exact Hin | now apply Z.eqb_eq]).
      rewrite Hnil in Hf. contradiction.
    + apply (st_lens true).
    + discriminate.
Qed.

(* ------------------------------------------------------------------ *)
(** ** The order of a selection *)

Lemma date_eqb_sym (a b : option string) : date_eqb a b = date_eqb b a.
Proof. destruct a, b; simpl; auto. apply String.eqb_sym. Qed.

Lemma order_leb_total (a b : Drawing) : order_leb a b = false -> order_leb b a = true.
Proof.
  unfold order_leb. rewrite (date_eqb_sym (d_drawn_date b)).
  destruct (date_eqb (d_drawn_date a) (d_drawn_date b)).
  - intros H. destruct (String.leb_total (d_filename a) (d_filename b)); congruence.
  - destruct (d_drawn_date a) as [x|], (d_drawn_date b) as [y|]; simpl; auto.
    intros H. destruct (String.leb_total x y); congruence.
Qed.

Lemma insert_sorted_sorted (x : Drawing) (l : list Drawing) :
  Sorted (fun a b => order_leb a b = true) l ->
  Sorted (fun a b => order_leb a b = true) (insert_sorted x l).
Proof.
  induction l as [|y l IH]; simpl; intros Hs; [repeat constructor|].
  destruct (order_leb x y) eqn:E.
  - constructor; [exact Hs | now constructor].
  - inversion Hs as [|? ? Hs' Hd]; subst. constructor; [now apply IH|].
    destruct l as [|z l]; simpl.
    + constructor. now apply order_leb_total.
    + destruct (order_leb x z); constructor;
        [now apply order_leb_total | now inversion Hd].
Qed.

(** X19. The three selections of the pipeline come in the order of their
    ORDER BY clause: each is a rearrangement of the rows its WHERE clause
    keeps (for the third, the drawings of the joined rows that are links of
    the lens at or above the threshold, without annotation, to a drawing
    with an analysis text), and of two neighbours the first has the earlier
    date, an absent date counting as the earliest, or the same date and a
    filename that is not greater. *)
Theorem selections_are_sorted (env : Env) (user_id lens_id : Z) (db : DB) :
  let sorted := Sorted (fun a b => order_leb a b = true) in
  sorted (select_unanalyzed user_id db)
  /\ sorted (select_analyzed user_id db)
  /\ sorted (select_needing_annotation env lens_id db)
  /\ Permutation (select_unanalyzed user_id db)
       (filter (fun d => (d_user_id d =? user_id) && is_null (d_analyzed_at d))
               (drawings db))
  /\ Permutation (select_analyzed user_id db)
       (filter (fun d => (d_user_id d =? user_id) && negb (is_null (d_analysis_text d)))
               (drawings db))
  /\ Permutation (select_needing_annotation env lens_id db)
       (map snd
          (filter (fun p => above_threshold env lens_id p
                            && is_null (k_annotation (fst p))
                            && negb (is_null (d_analysis_text (snd p))))
                  (join_links db))).
Proof.
  assert (forall l, Sorted (fun a b => order_leb a b = true) (order_by_date_filename l))
    as H.
  { induction l as [|x l IH]; simpl; [constructor|].
    now apply insert_sorted_sorted. }
  cbv zeta. unfold select_unanalyzed, select_analyzed, select_needing_annotation.
  repeat split; try apply H; apply order_by_perm.
Qed.

(* ------------------------------------------------------------------ *)
(** ** The prompt registry ([services/ai/prompts/registry.py]) *)

(** X20. The three calls the analyzer makes to the registry never raise,
    whatever the values: each returns the text of its template with the
    doubled braces written once and every field replaced by the value as
    it is, the count in decimal. A value is not read again, so braces in a
    filename, a description or a lens name cannot break the prompt. *)
Theorem render_fills_templates (year_range : string) (total_count : nat)
    (all_summaries lens_name lens_description drawing_entries : string) :
  render "drawing_batch_analysis" [] = Some (Ok (drawing_batch_analysis_text "{" "}"))
  /\ render "lens_discovery"
       (lens_discovery_kwargs year_range total_count all_summaries)
     = Some (Ok (lens_discovery_text "{" "}" year_range
                   (str_of_Z (Z.of_nat total_count)) all_summaries))
  /\ render "lens_annotation_batch"
       (lens_annotation_kwargs lens_name lens_description drawing_entries)
     = Some (Ok (lens_annotation_batch_text "{" "}" lens_name lens_description
                   drawing_entries)).
Proof. repeat split; vm_compute; reflexivity. Qed.

(** [str.format] reads its arguments only under the names of the fields
    of the template. *)
Lemma format_from_agree (names : list string) (vars vars' : list (string * pyvalue)) :
  (forall name, In name names -> lookup vars name = lookup vars' name) ->
  forall n template field,
    (String.length template <= n)%nat ->
    fields_within names field template = true ->
    format_from vars field template = format_from vars' field template.
Proof.
  intros Hag. induction n as [|n IH]; intros [|c rest] field Hlen Hf;
    try reflexivity; cbn [String.length] in Hlen; try lia.
  cbn [format_from fields_within] in *. destruct field as [name|].
  - destruct (Ascii.eqb c "}").
    + apply andb_prop in Hf as [Hn Hf].
      apply existsb_exists in Hn as (k & Hk & Ek). apply String.eqb_eq in Ek.
      subst k. rewrite (Hag name Hk), (IH rest None) by (lia || assumption).
      reflexivity.
    + destruct (Ascii.eqb c "{"); [reflexivity|]. apply IH; [lia | exact Hf].
  - destruct (Ascii.eqb c "{").
    + destruct rest as [|c' rest']; [reflexivity|]. cbn [String.length] in Hlen.
      destruct (Ascii.eqb c' "{").
      * rewrite (IH rest' None) by (lia || assumption). reflexivity.
      * apply IH; [cbn [String.length]; lia | exact Hf].
    + destruct (Ascii.eqb c "}").
      * destruct rest as [|c' rest']; [reflexivity|]. cbn [String.length] in Hlen.
        destruct (Ascii.eqb c' "}"); [|reflexivity].
        rewrite (IH rest' None) by (lia || assumption). reflexivity.
      * rewrite (IH rest None) by (lia || assumption). reflexivity.
Qed.

Lemma lookup_entries (kwargs : list (string * pyvalue)) (name : string) :
  In name ["lens_name"; "lens_description"; "drawing_entries"] ->
  lookup kwargs name
  = lookup (entry_of "lens_name" (lookup kwargs "lens_name")
            ++ entry_of "lens_description" (lookup kwargs "lens_description")
            ++ entry_of "drawing_entries" (lookup kwargs "drawing_entries"))%list
           name.
Proof.
  intros [<-|[<-|[<-|[]]]];
    destruct (lookup kwargs "lens_name"), (lookup kwargs "lens_description"),
      (lookup kwargs "drawing_entries"); reflexivity.
Qed.

(** The annotation template with any arguments renders as it does with the
    arguments of its three fields alone. *)
Lemma render_annotation_by_fields (kwargs : list (string * pyvalue)) :
  render "lens_annotation_batch" kwargs
  = render "lens_annotation_batch"
      (entry_of "lens_name" (lookup kwargs "lens_name")
       ++ entry_of "lens_description" (lookup kwargs "lens_description")
       ++ entry_of "drawing_entries" (lookup kwargs "drawing_entries"))%list.
Proof.
  unfold render.
  match goal with
  | |- context [lookup _templates ?id] =>
      let t := eval vm_compute in (lookup _templates id) in
      change (lookup _templates id) with t
  end.
  cbv beta iota zeta delta [pt_default_values pt_template merge_variables str_format].
  rewrite !app_nil_r.
  match goal with
  | |- context [format_from kwargs None ?t] =>
      rewrite (format_from_agree ["lens_name"; "lens_description"; "drawing_entries"]
                 kwargs _ (lookup_entries kwargs) (String.length t) t None (le_n _))
        by (vm_compute; reflexivity)
  end.
  reflexivity.
Qed.

(** X21. What the registry raises. An id that is none of the three
    registered raises ValueError "Template not found". A template whose
    field has neither an argument nor a default raises ValueError naming
    the template and the first such field in the order of the text: so
    the annotation template asks for [lens_name], then [lens_description],
    then [drawing_entries]. The lens discovery template has a default for
    each of its fields and renders with no argument at all. *)
Theorem render_errors (template_id : string) (kwargs : list (string * pyvalue))
    (v1 v2 : pyvalue) :
  (lookup _templates template_id = None ->
   render template_id kwargs
   = Some (Raise (mk_exn ValueError ("Template not found: " ++ template_id))))
  /\ (lookup kwargs "lens_name" = None ->
      render "lens_annotation_batch" kwargs
      = Some (Raise (mk_exn ValueError
                       "Missing required variable for template 'lens_annotation_batch': 'lens_name'")))
  /\ (lookup kwargs "lens_name" = Some v1 ->
      lookup kwargs "lens_description" = None ->
      render "lens_annotation_batch" kwargs
      = Some (Raise (mk_exn ValueError
                       "Missing required variable for template 'lens_annotation_batch': 'lens_description'")))
  /\ (lookup kwargs "lens_name" = Some v1 ->
      lookup kwargs "lens_description" = Some v2 ->
      lookup kwargs "drawing_entries" = None ->
      render "lens_annotation_batch" kwargs
      = Some (Raise (mk_exn ValueError
                       "Missing required variable for template 'lens_annotation_batch': 'drawing_entries'")))
  /\ render "lens_discovery" []
     = Some (Ok (lens_discovery_text "{" "}" "unknown period" "0" EmptyString)).
Proof.
  split; [|split; [|split; [|split]]].
  - intros H. unfold render. now rewrite H.
  - intros H1. rewrite render_annotation_by_fields, H1.
    destruct (lookup kwargs "lens_description"), (lookup kwargs "drawing_entries");
      vm_compute; reflexivity.
  - intros H1 H2. rewrite render_annotation_by_fields, H1, H2.
    destruct (lookup kwargs "drawing_entries"); vm_compute; reflexivity.
  - intros H1 H2 H3. rewrite render_annotation_by_fields, H1, H2, H3.
    vm_compute. reflexivity.
  - vm_compute. reflexivity.
Qed.

Lemma render_errors_witness :
  render "phase4" []
  = Some (Raise (mk_exn ValueError "Template not found: phase4"))
  /\ render "lens_annotation_batch" [("lens_name", PStr "Geographic journey")]
     = Some (Raise (mk_exn ValueError
                      "Missing required variable for template 'lens_annotation_batch': 'lens_description'")).
Proof.
  destruct (render_errors "phase4" [("lens_name", PStr "Geographic journey")]
              (PStr "Geographic journey") (PInt 0)) as (H1 & _ & H3 & _).
  split.
  - destruct (render_errors "phase4" [] (PInt 0) (PInt 0)) as (H & _).
    apply H. reflexivity.
  - apply H3; reflexivity.
Defined.

(* ------------------------------------------------------------------ *)
(** ** A trigger, its run, and the next trigger *)

Lemma Forall2_map_r (A B : Type) (R : A -> B -> Prop) (g : B -> B) (l : list A)
    (l' : list B) :
  Forall2 (fun x y => R x (g y)) l l' -> Forall2 R l (map g l').
Proof. induction 1; simpl; constructor; auto. Qed.

Lemma run_settled_after (analysis_id : Z) (f : Analysis -> Analysis) (db db5 : DB) :
  (forall a, a_id (f a) = a_id a /\ a_user_id (f a) = a_user_id a
             /\ (a_status (f a) = Complete \/ a_status (f a) = Failed)) ->
  touches_run analysis_id db db5 ->
  run_settled analysis_id db
    (with_analyses db5 (update_where a_id analysis_id f (archive_analyses db5))).
Proof.
  intros Hf [Hu H]. split; [exact Hu|]. cbn. unfold update_where.
  apply Forall2_map_r. revert H. apply Forall2_impl.
  intros a b (I & U & _ & _ & _ & K). destruct (Hf b) as (F1 & F2 & F3).
  destruct (Z.eqb_spec (a_id b) analysis_id) as [E|E].
  - repeat split; try congruence; auto.
  - repeat split; try congruence; auto.
Qed.

Lemma run_settles (env : Env) (user_id analysis_id : Z) (s : State) :
  fst (run_full_pipeline env user_id analysis_id s) = Ok tt
  /\ run_settled analysis_id (conn s)
       (conn (snd (run_full_pipeline env user_id analysis_id s))).
Proof.
  unfold run_full_pipeline, try_except.
  destruct (pipeline_body env user_id analysis_id s) as [[[]|e] s1] eqn:Hb.
  - apply pipeline_body_returned in Hb as (s5 & T & ->).
    split; [reflexivity|]. cbn [snd]. rewrite conn_after_update.
    apply run_settled_after; [|exact T]. intros a. cbn. auto.
  - pose proof (touches_pipeline_body env analysis_id user_id s) as T.
    rewrite Hb in T. unfold on_conn in T. cbn [snd] in T.
    split; [reflexivity|]. cbn [snd]. rewrite conn_after_failure.
    apply run_settled_after; [|exact T]. intros a. cbn. auto.
Qed.

Lemma filter_nil_all (A : Type) (f : A -> bool) (l : list A) :
  filter f l = [] -> forall x, In x l -> f x = false.
Proof.
  intros H x Hx. destruct (f x) eqn:E; [|reflexivity].
  assert (In x (filter f l)) as Hin by (apply filter_In; now split).
  rewrite H in Hin. contradiction.
Qed.

(** X22. A trigger, the run it starts, and the next trigger. When none of
    the owner's runs is 'running' and the owner exists, the trigger
    succeeds; the run of the id it answers with returns, its row then
    reads 'complete' or 'failed', and none of the owner's runs is left
    'running'; so a trigger that comes after the run has ended succeeds
    too, with a greater id. *)
Theorem trigger_run_trigger (env : Env) (user_id : Z) (s : State) :
  running_runs user_id (conn s) = [] ->
  In user_id (users (conn s)) ->
  exists id,
    fst (trigger_analysis env user_id s) = Ok (mk_trigger_response id "started")
    /\ let s1 := snd (trigger_analysis env user_id s) in
       let s2 := snd (run_full_pipeline env user_id id s1) in
       fst (run_full_pipeline env user_id id s1) = Ok tt
       /\ (run_status_of id (conn s2) = Some Complete
           \/ run_status_of id (conn s2) = Some Failed)
       /\ running_runs user_id (conn s2) = []
       /\ exists id2,
            fst (trigger_analysis env user_id s2)
            = Ok (mk_trigger_response id2 "started")
            /\ id < id2.
Proof.
  intros Hr Hu.
  assert (existsb (Z.eqb user_id) (users (conn s)) = true) as He.
  { apply existsb_exists. exists user_id. split; [exact Hu | apply Z.eqb_refl]. }
  pose proof (trigger_creates_pending_run env user_id s (running_none_find _ _ Hr) He)
    as H1. cbv zeta in H1.
  set (id := next_analysis_id (conn s)) in *.
  set (a := mk_analysis id user_id Pending None 0 0 None
              (Some (model_name (cfg env))) (clock s) None) in *.
  exists id. rewrite H1. cbn [fst snd]. split; [reflexivity|].
  match goal with
  | |- context [run_full_pipeline env user_id id ?st] => set (s1 := st)
  end.
  destruct (run_settles env user_id id s1) as [Hok [Hus Hf2]].
  set (s2 := snd (run_full_pipeline env user_id id s1)) in *.
  assert (archive_analyses (conn s1) = (archive_analyses (conn s) ++ [a])%list)
    as Ea by reflexivity.
  assert (~ In id (map a_id (archive_analyses (conn s)))) as Hfresh
    by apply next_id_fresh.
  rewrite Ea in Hf2.
  assert (running_runs user_id (conn s2) = []) as Hr2.
  { unfold running_runs. apply filter_none. intros y Hy.
    destruct (Forall2_In_r _ _ _ _ _ Hf2 Hy) as (x & Hx & I & U & K & T).
    destruct (Z.eq_dec (a_id x) id) as [E|E].
    - destruct (T E) as [St|St]; unfold is_running; rewrite St;
        apply andb_false_r.
    - rewrite (K E). apply in_app_or in Hx as [Hx|[<-|[]]].
      + now apply (filter_nil_all _ _ _ Hr).
      + now elim E. }
  split; [exact Hok|]. split; [|split; [exact Hr2|]].
  - unfold run_status_of, run_row.
    apply Forall2_app_inv_l in Hf2 as (l1 & l2 & H1' & H2' & El).
    rewrite El. inversion H2' as [|x y lx ly (I & U & K & T) Hnil]; subst.
    inversion Hnil; subst.
    assert (find (fun r => a_id r =? id) l1 = None) as Hn.
    { destruct (find (fun r => a_id r =? id) l1) as [r|] eqn:Ef; [|reflexivity].
      apply find_some in Ef as [Hin Hid]. apply Z.eqb_eq in Hid.
      destruct (Forall2_In_r _ _ _ _ _ H1' Hin) as (x & Hx & Ix & _).
      exfalso. apply Hfresh. rewrite <- Hid, Ix. now apply in_map. }
    rewrite (find_app_none _ _ _ _ Hn). cbn [find]. rewrite I.
    cbn [a_id a]. rewrite Z.eqb_refl. cbn [option_map].
    destruct (T eq_refl) as [-> | ->]; auto.
  - assert (In user_id (users (conn s2))) as Hu2 by (rewrite Hus; exact Hu).
    assert (existsb (Z.eqb user_id) (users (conn s2)) = true) as He2.
    { apply existsb_exists. exists user_id. split; [exact Hu2 | apply Z.eqb_refl]. }
    pose proof (trigger_creates_pending_run env user_id s2
                  (running_none_find _ _ Hr2) He2) as H2. cbv zeta in H2.
    eexists. rewrite H2. split; [reflexivity|].
    apply next_id_above.
    apply Forall2_app_inv_l in Hf2 as (l1 & l2 & H1' & H2' & El).
    rewrite El, map_app. apply in_or_app. right.
    inversion H2' as [|x y lx ly (I & _) Hnil]; subst. inversion Hnil; subst.
    left. exact I.
Qed.

Lemma trigger_run_trigger_witness :
  exists id,
    fst (trigger_analysis rediscovery_world 1 (fresh_state db_with_lens))
    = Ok (mk_trigger_response id "started")
    /\ running_runs 1
         (conn (snd (run_full_pipeline rediscovery_world 1 id
                       (snd (trigger_analysis rediscovery_world 1
                               (fresh_state db_with_lens))))))
       = [].
Proof.
  destruct (trigger_run_trigger rediscovery_world 1 (fresh_state db_with_lens))
    as (id & H1 & _ & _ & H3 & _).
  - reflexivity.
  - simpl. now left.
  - exists id. split; [exact H1 | exact H3].
Defined.

(* ------------------------------------------------------------------ *)
(** ** What the parsers let through *)

Lemma loads_or_pass_cases (env : Env) (keep : json -> bool) (text : string)
    (s : State) :
  match loads_or_pass env keep text s with
  | (Ok _, s') => s' = s
  | (Raise e, s') =>
      s' = s /\ is_JSONDecodeError e = false /\ json_loads env text = Raise e
  end.
Proof.
  unfold loads_or_pass. destruct (json_loads env text) as [v|e].
  - destruct (keep v); reflexivity.
  - destruct (is_JSONDecodeError e) eqn:E; cbn; auto.
Qed.

Lemma parse_cases (env : Env) (shape : json -> bool) (o c : ascii) (empty : json)
    (ev : string -> LogEvent) (text : string) (s : State) :
  match (direct <- loads_or_pass env shape text ;;
         match direct with
         | Some result => ret result
         | None =>
             fallback <- match re_search_delimited o c text with
                         | Some m => loads_or_pass env (fun _ => true) m
                         | None => ret None
                         end ;;
             match fallback with
             | Some result => ret result
             | None => print (ev (first_chars 300 text)) ;; ret empty
             end
         end) s with
  | (Ok _, s') => s' = s \/ s' = snd (print (ev (first_chars 300 text)) s)
  | (Raise e, s') =>
      s' = s /\ is_JSONDecodeError e = false
      /\ exists document, json_loads env document = Raise e
  end.
Proof.
  unfold bind at 1.
  pose proof (loads_or_pass_cases env shape text s) as H1.
  destruct (loads_or_pass env shape text s) as [[[v|]|e] s1].
  - subst s1. now left.
  - subst s1. unfold bind at 1.
    destruct (re_search_delimited o c text) as [m|].
    + pose proof (loads_or_pass_cases env (fun _ => true) m s) as H2.
      destruct (loads_or_pass env (fun _ => true) m s) as [[[v|]|e] s2].
      * subst s2. now left.
      * subst s2. now right.
      * destruct H2 as (-> & He & Hl). eauto.
    + now right.
  - destruct H1 as (-> & He & Hl). eauto.
Qed.

(** X23. What the two parsers let through, whatever the decoder does. A
    parser that returns has left the state as it was or has printed its one
    line. A parser raises only what [json.loads] raised on a document it
    was given, and never a JSONDecodeError; the state is then as it was. *)
Theorem parsers_raise_only_what_the_decoder_raises (env : Env) (text : string)
    (s : State) :
  match _parse_json_list env text s with
  | (Ok _, s') =>
      s' = s \/ s' = snd (print (LogJSONListFailed
                                   (first_chars 300 (_strip_markdown_fences text))) s)
  | (Raise e, s') =>
      s' = s /\ is_JSONDecodeError e = false
      /\ exists document, json_loads env document = Raise e
  end
  /\
  match _parse_json_dict env text s with
  | (Ok _, s') =>
      s' = s \/ s' = snd (print (LogJSONDictFailed
                                   (first_chars 300 (_strip_markdown_fences text))) s)
  | (Raise e, s') =>
      s' = s /\ is_JSONDecodeError e = false
      /\ exists document, json_loads env document = Raise e
  end.
Proof.
  split.
  - apply (parse_cases env is_list "[" "]" (JArr []) LogJSONListFailed).
  - apply (parse_cases env is_dict "{" "}" (JObj []) LogJSONDictFailed).
Qed.
